(** * FLARM flight-log driver: catalog enumeration and log download

    A shallow embedding of [src/Device/Driver/FLARM/Logger.cpp]:
    the metadata-line parser ([ParseDate], [ParseTime], [operator+],
    [ParseRecordInfo]) and the protocol loops built on the exchange
    engine ([ReadFlightInfo], [SelectFlight], [ReadFlightList],
    [DownloadFlight]). *)

From Stdlib Require Import String Ascii ZArith List Bool Lia.
From Stdlib Require Import Init.Byte Strings.Byte.
Import ListNotations.
Local Open Scope Z_scope.

(** ** Machine integers

    Unsigned integers are values of [Z]; a store into a [bits]-wide
    unsigned field keeps the value modulo [2 ^ bits]. *)

Definition wrap (bits x : Z) : Z := x mod 2 ^ bits.

(** The declarations [Logger.cpp] is compiled against but which live in
    headers outside this unit: the width of [unsigned long], the widths
    of the unsigned fields of [BrokenDate] and [BrokenTime], and the
    fixed capacity of [RecordedFlightList]. *)
Class Target : Type := {
  ulong_bits : Z;
  year_bits : Z;
  month_bits : Z;
  day_bits : Z;
  hour_bits : Z;
  minute_bits : Z;
  second_bits : Z;
  list_capacity : nat
}.

(** A target for the sample runs: 16-bit year, 8 bits for the other
    fields, a list of 128 flights, 64-bit longs. *)
Definition xcsoar_target : Target := {|
  ulong_bits := 64;
  year_bits := 16; month_bits := 8; day_bits := 8;
  hour_bits := 8; minute_bits := 8; second_bits := 8;
  list_capacity := 128
|}.

Record BrokenDate : Type := {
  year : Z;
  month : Z;
  day : Z
}.

Record BrokenTime : Type := {
  hour : Z;
  minute : Z;
  second : Z
}.

(** [flarm] is [internal.flarm], the record index on the device. *)
Record RecordedFlightInfo : Type := {
  date : BrokenDate;
  start_time : BrokenTime;
  end_time : BrokenTime;
  flarm : Z
}.

Definition set_date (f : RecordedFlightInfo) (d : BrokenDate) :=
  {| date := d; start_time := start_time f; end_time := end_time f;
     flarm := flarm f |}.
Definition set_start_time (f : RecordedFlightInfo) (t : BrokenTime) :=
  {| date := date f; start_time := t; end_time := end_time f;
     flarm := flarm f |}.
Definition set_end_time (f : RecordedFlightInfo) (t : BrokenTime) :=
  {| date := date f; start_time := start_time f; end_time := t;
     flarm := flarm f |}.
Definition set_flarm (f : RecordedFlightInfo) (i : Z) :=
  {| date := date f; start_time := start_time f; end_time := end_time f;
     flarm := i |}.

(** An object declared without initialiser.  Every path that reads one
    of its fields has stored into that field before (lemmas
    [ParseTime_overwrites] and [ParseRecordInfo_overwrites]). *)
Definition indeterminate_time : BrokenTime :=
  {| hour := 0; minute := 0; second := 0 |}.
Definition indeterminate_date : BrokenDate :=
  {| year := 0; month := 0; day := 0 |}.
Definition indeterminate_flight : RecordedFlightInfo :=
  {| date := indeterminate_date; start_time := indeterminate_time;
     end_time := indeterminate_time; flarm := 0 |}.

(** ** C strings

    A C string is the list of its characters, terminator excluded.  A
    pointer into a string is the suffix it points at; for two pointers
    into the same string, equality of the pointers is equality of the
    suffix lengths. *)

Definition cstring := list ascii.

Definition same_ptr (p q : cstring) : bool :=
  Nat.eqb (List.length p) (List.length q).

(** [*p], the terminator when [p] is at the end. *)
Definition deref (p : cstring) : ascii := hd zero p.

Definition code (c : ascii) : Z := Z.of_N (N_of_ascii c).

Definition isspace (c : ascii) : bool :=
  (code c =? 32) || ((9 <=? code c) && (code c <=? 13)).

Definition isdigit (c : ascii) : bool :=
  (48 <=? code c) && (code c <=? 57).

Fixpoint skip_spaces (s : cstring) : cstring :=
  match s with
  | c :: s' => if isspace c then skip_spaces s' else s
  | [] => []
  end.

(** The decimal digits at the head of [s], accumulated onto [acc], and
    the first character that is not a digit. *)
Fixpoint digits (acc : Z) (s : cstring) : Z * cstring :=
  match s with
  | c :: s' =>
      if isdigit c then digits (acc * 10 + (code c - 48)) s' else (acc, s)
  | [] => (acc, [])
  end.

Section Parser.
Context {T : Target}.

Definition ULONG_MAX : Z := 2 ^ ulong_bits - 1.

(** The value [strtoul] returns for a sign and a run of digits of
    magnitude [v]: [ULONG_MAX] when [v] does not fit, otherwise [v],
    negated in [unsigned long] after a minus sign. *)
Definition ulong_value (negative : bool) (v : Z) : Z :=
  if v >? ULONG_MAX then ULONG_MAX
  else if negative then wrap ulong_bits (- v) else v.

(** [strtoul(str, &endptr, 10)]: white space, an optional sign, then
    decimal digits.  The result is the value and [endptr]; without a
    digit nothing is converted, the value is 0 and [endptr] is [str]. *)
Definition strtoul (str : cstring) : Z * cstring :=
  let s := skip_spaces str in
  let '(negative, s) :=
    match s with
    | "-"%char :: s' => (true, s')
    | "+"%char :: s' => (false, s')
    | _ => (false, s)
    end in
  if isdigit (deref s) then
    let '(v, endptr) := digits 0 s in
    (ulong_value negative v, endptr)
  else (0, str).

Definition ParseDate (str : cstring) (date : BrokenDate)
  : bool * BrokenDate :=
  (* Parse year *)
  let '(v, endptr) := strtoul str in
  let date := {| year := wrap year_bits v; month := month date;
                 day := day date |} in
  if same_ptr str endptr || negb (Ascii.eqb (deref endptr) "-") then
    (false, date)
  else
  let str := tl endptr in
  (* Parse month *)
  let '(v, endptr) := strtoul str in
  let date := {| year := year date; month := wrap month_bits v;
                 day := day date |} in
  if same_ptr str endptr || negb (Ascii.eqb (deref endptr) "-") then
    (false, date)
  else
  let str := tl endptr in
  (* Parse day *)
  let '(v, endptr) := strtoul str in
  let date := {| year := year date; month := month date;
                 day := wrap day_bits v |} in
  (negb (same_ptr str endptr), date).

Definition ParseTime (str : cstring) (time : BrokenTime)
  : bool * BrokenTime :=
  let '(v, endptr) := strtoul str in
  let time := {| hour := wrap hour_bits v; minute := minute time;
                 second := second time |} in
  if same_ptr str endptr || negb (Ascii.eqb (deref endptr) ":") then
    (false, time)
  else
  let str := tl endptr in
  let '(v, endptr) := strtoul str in
  let time := {| hour := hour time; minute := wrap minute_bits v;
                 second := second time |} in
  if same_ptr str endptr || negb (Ascii.eqb (deref endptr) ":") then
    (false, time)
  else
  let str := tl endptr in
  let '(v, endptr) := strtoul str in
  let time := {| hour := hour time; minute := minute time;
                 second := wrap second_bits v |} in
  (negb (same_ptr str endptr), time).

(** [while (lo > 60) { lo -= 60; hi++; }] on two unsigned fields.  Each
    turn lowers [lo], so [Z.to_nat lo] turns are enough
    ([carry_exits]). *)
Fixpoint carry (fuel : nat) (lo_bits hi_bits lo hi : Z) : Z * Z :=
  match fuel with
  | O => (lo, hi)
  | S fuel =>
      if lo >? 60 then
        carry fuel lo_bits hi_bits (wrap lo_bits (lo - 60))
              (wrap hi_bits (hi + 1))
      else (lo, hi)
  end.

Definition operator_plus (a b : BrokenTime) : BrokenTime :=
  let c_hour := wrap hour_bits (hour a + hour b) in
  let c_minute := wrap minute_bits (minute a + minute b) in
  let c_second := wrap second_bits (second a + second b) in
  let '(c_second, c_minute) :=
    carry (Z.to_nat c_second) second_bits minute_bits c_second c_minute in
  let '(c_minute, c_hour) :=
    carry (Z.to_nat c_minute) minute_bits hour_bits c_minute c_hour in
  {| hour := c_hour; minute := c_minute; second := c_second |}.

(** [p = strchr(s, c); *p = '\0'; p++]: the field before the first [c],
    now terminated, and [p], the text after it; [None] when [strchr]
    returns [NULL]. *)
Fixpoint strchr_cut (c : ascii) (s : cstring) : option (cstring * cstring) :=
  match s with
  | [] => None
  | x :: s' =>
      if Ascii.eqb x c then Some ([], s')
      else match strchr_cut c s' with
           | Some (field, p) => Some (x :: field, p)
           | None => None
           end
  end.

(** The source follows each [p++] with [if (p == '\0') return false;].
    That compares the pointer, not the character, with zero, and [p]
    points into the line, so the test never fires and has no
    counterpart here. *)
Definition ParseRecordInfo (record_info : cstring)
    (flight : RecordedFlightInfo) : bool * RecordedFlightInfo :=
  (* Search for first separator *)
  match strchr_cut "|" record_info with
  | None => (false, flight)
  | Some (record_info, p) =>
  (* Check if first field is NOT the date (length > 10) *)
  match (if (10 <? Z.of_nat (List.length record_info))
         then strchr_cut "|" p
         else Some (record_info, p)) with
  | None => (false, flight)
  | Some (record_info, p) =>
  let '(ok, d) := ParseDate record_info (date flight) in
  let flight := set_date flight d in
  if negb ok then (false, flight) else
  let record_info := p in
  (* Search for next separator *)
  match strchr_cut "|" record_info with
  | None => (false, flight)
  | Some (record_info, p) =>
  let '(ok, t) := ParseTime record_info (start_time flight) in
  let flight := set_start_time flight t in
  if negb ok then (false, flight) else
  let record_info := p in
  (* Search for next separator *)
  match strchr_cut "|" record_info with
  | None => (false, flight)
  | Some (record_info, p) =>
  let '(ok, duration) := ParseTime record_info indeterminate_time in
  if negb ok then (false, flight) else
  (true, set_end_time flight (operator_plus (start_time flight) duration))
  end end end end.

End Parser.

Definition line (s : string) : cstring := list_ascii_of_string s.

(** ** The link, the operation environment and the download sink

    [Logger.cpp] drives the exchange engine ([SendStartByte],
    [SendFrameHeader], [SendEscaped], [WaitForACKOrNACK]), the
    [OperationEnvironment] and a [BinaryWriter].  Their code is outside
    this unit, so their behaviour is an input: the world a run starts
    in fixes which transmissions the port accepts, what each wait for a
    reply delivers, what each poll of the cancellation flag answers and
    whether the destination can be opened. *)

(** The message types this unit names; the enumeration itself is
    declared with the device class. *)
Inductive MessageType : Type :=
  | MT_ERROR
  | MT_ACK
  | MT_NACK
  | MT_SELECTRECORD
  | MT_GETRECORDINFO
  | MT_GETIGCDATA.

Definition MessageType_eqb (a b : MessageType) : bool :=
  match a, b with
  | MT_ERROR, MT_ERROR | MT_ACK, MT_ACK | MT_NACK, MT_NACK
  | MT_SELECTRECORD, MT_SELECTRECORD
  | MT_GETRECORDINFO, MT_GETRECORDINFO
  | MT_GETIGCDATA, MT_GETIGCDATA => true
  | _, _ => false
  end.

(** What [WaitForACKOrNACK] hands back: the classification and the
    payload; [length], a 16-bit count, is the length of the payload. *)
Definition Reply : Type := MessageType * list byte.

(** Modelled from the spec: the frame header of the frame codec, kept
    as what the request was prepared for (message type and payload);
    sequence number and checksum play no part in this unit. *)
Record FrameHeader : Type := {
  header_type : MessageType;
  header_payload : list byte
}.

(** Modelled from the spec: header construction of the frame codec. *)
Definition PrepareFrameHeader (type : MessageType) (data : list byte)
  : FrameHeader :=
  {| header_type := type; header_payload := data |}.

(** Every call that reaches outside the driver, in program order. *)
Inductive Event : Type :=
  | StartByte
  | Header (h : FrameHeader) (timeout_ms : Z)
  | Escaped (data : list byte) (timeout_ms : Z)
  | Wait (timeout_ms : Z)
  | IsCancelledPoll (answer : bool)
  | ProgressRange (range : Z)
  | ProgressPosition (position : Z)
  | Open (ok : bool)
  | WriteData (data : list byte)
  | Delete.

Record World : Type := {
  (** the answer to each coming wait; when none is left the device is
      silent and the wait times out *)
  replies : list Reply;
  (** whether the n-th transmission is accepted by the port *)
  port : nat -> bool;
  sends : nat;
  (** what the n-th poll of the cancellation flag answers *)
  cancel : nat -> bool;
  polls : nat;
  (** whether the destination can be opened for writing *)
  can_open : bool;
  (** the file at the download path, if there is one *)
  file : option (list byte)
}.

Definition with_replies (w : World) (r : list Reply) : World :=
  {| replies := r; port := port w; sends := sends w; cancel := cancel w;
     polls := polls w; can_open := can_open w; file := file w |}.
Definition with_sends (w : World) (n : nat) : World :=
  {| replies := replies w; port := port w; sends := n; cancel := cancel w;
     polls := polls w; can_open := can_open w; file := file w |}.
Definition with_polls (w : World) (n : nat) : World :=
  {| replies := replies w; port := port w; sends := sends w;
     cancel := cancel w; polls := n; can_open := can_open w;
     file := file w |}.
Definition with_file (w : World) (f : option (list byte)) : World :=
  {| replies := replies w; port := port w; sends := sends w;
     cancel := cancel w; polls := polls w; can_open := can_open w;
     file := f |}.

(** A computation returns its value, the events it caused and the
    world it leaves; [None] only when a loop is cut short by its
    fuel. *)
Definition M (A : Type) : Type := World -> option (A * list Event * World).

Definition ret {A} (a : A) : M A := fun w => Some (a, [], w).

Definition bind {A B} (m : M A) (k : A -> M B) : M B :=
  fun w =>
    match m w with
    | None => None
    | Some (a, t1, w1) =>
        match k a w1 with
        | None => None
        | Some (b, t2, w2) => Some (b, t1 ++ t2, w2)
        end
    end.

Definition out_of_fuel {A} : M A := fun _ => None.

Declare Scope m_scope.
Delimit Scope m_scope with M.
Notation "x <- m ;; k" := (bind m (fun x => k))
  (at level 61, m at next level, right associativity) : m_scope.
Notation "' pat <- m ;; k" := (bind m (fun x => match x with pat => k end))
  (at level 61, pat pattern, m at next level, right associativity) : m_scope.
Notation "m ;; k" := (bind m (fun _ => k))
  (at level 61, right associativity) : m_scope.
Local Open Scope m_scope.

(** Modelled from the spec: the transport's [send(bytes, timeout)]
    behind [SendStartByte], [SendFrameHeader] and [SendEscaped]; the
    port decides, transmission by transmission, whether the bytes go
    out. *)
Definition transmit (e : Event) : M bool :=
  fun w => Some (port w (sends w), [e], with_sends w (S (sends w))).

Definition SendStartByte : M bool := transmit StartByte.

Definition SendFrameHeader (header : FrameHeader) (timeout_ms : Z) : M bool :=
  transmit (Header header timeout_ms).

Definition SendEscaped (data : list byte) (timeout_ms : Z) : M bool :=
  transmit (Escaped data timeout_ms).

(** What the next wait delivers: the head of the script, or a timeout
    from a silent device. *)
Definition next_reply (w : World) : Reply := hd (MT_ERROR, []) (replies w).

(** Modelled from the spec: the exchange engine's wait for the reply
    that matches the request, which yields an ACK with its payload, a
    NACK, or [MT_ERROR] when the timeout passes. *)
Definition WaitForACKOrNACK (timeout_ms : Z) : M Reply :=
  fun w =>
    Some (next_reply w, [Wait timeout_ms], with_replies w (tl (replies w))).

(** Modelled from the spec: the cancellation source of the operation
    environment, polled by the driver. *)
Definition IsCancelled : M bool :=
  fun w =>
    let answer := cancel w (polls w) in
    Some (answer, [IsCancelledPoll answer], with_polls w (S (polls w))).

(** Modelled from the spec: the progress sink of the operation
    environment. *)
Definition SetProgressRange (range : Z) : M unit :=
  fun w => Some (tt, [ProgressRange range], w).

Definition SetProgressPosition (position : Z) : M unit :=
  fun w => Some (tt, [ProgressPosition position], w).

(** Modelled from the spec: opening the download sink,
    [BinaryWriter writer(path)] followed by [writer.HasError()]; the
    file is created or emptied when it can be opened. *)
Definition BinaryWriter : M bool :=
  fun w =>
    if can_open w then Some (false, [Open true], with_file w (Some []))
    else Some (true, [Open false], w).

(** Modelled from the spec: the sink's append, [writer.Write]; the
    driver does not look at its result. *)
Definition Write (data : list byte) : M unit :=
  fun w =>
    Some (tt, [WriteData data],
          with_file w (option_map (fun old => old ++ data) (file w))).

(** Modelled from the spec: the sink's explicit delete,
    [File::Delete(path)]. *)
Definition File_Delete : M unit :=
  fun w => Some (tt, [Delete], with_file w None).

(** ** The driver

    Every entry point asserts [in_binary_mode]; the runs considered
    here are runs in binary mode. *)

Definition uint8_byte (x : Z) : byte :=
  byte_of_ascii (ascii_of_N (Z.to_N (wrap 8 x))).

Definition byte_value (b : byte) : Z := Z.of_N (Byte.to_N b).

(** A byte buffer read through a [char] pointer as a string: the
    characters up to the first zero byte.  The payload array holds
    exactly the bytes of the reply and the code puts no bound on its
    reads: when the text lacks its terminator and a search runs to the
    end of the payload, the code reads on behind the buffer.  That
    memory is no part of this model, where the text ends with the
    payload; what is proved about the text of a reply is therefore
    stated for replies that are [terminated], or whose line parses, so
    that every read ends inside the payload. *)
Fixpoint c_str (p : list byte) : cstring :=
  match p with
  | [] => []
  | b :: p' => if Byte.eqb b x00 then [] else ascii_of_byte b :: c_str p'
  end.

Section Driver.
Context {T : Target}.

Definition ReadFlightInfo (flight : RecordedFlightInfo)
  : M (bool * RecordedFlightInfo) :=
  (* Create header for getting record information *)
  let header := PrepareFrameHeader MT_GETRECORDINFO [] in
  (* Send request *)
  sent <- SendStartByte ;;
  if negb sent then ret (false, flight) else
  sent <- SendFrameHeader header 1000 ;;
  if negb sent then ret (false, flight) else
  (* Wait for an answer and save the payload for further processing *)
  '(ack_result, data) <- WaitForACKOrNACK 1000 ;;
  let length := Z.of_nat (List.length data) in
  (* If neither ACK nor NACK was received *)
  if negb (MessageType_eqb ack_result MT_ACK) || (length <=? 2) then
    ret (false, flight)
  else
  let record_info := c_str (skipn 2 data) in
  ret (ParseRecordInfo record_info flight).

Definition SelectFlight (record_number : Z) : M MessageType :=
  (* Create header for selecting a log record *)
  let data := [uint8_byte record_number] in
  let header := PrepareFrameHeader MT_SELECTRECORD data in
  (* Send request *)
  sent <- SendStartByte ;;
  if negb sent then ret MT_ERROR else
  sent <- SendFrameHeader header 1000 ;;
  if negb sent then ret MT_ERROR else
  sent <- SendEscaped data 1000 ;;
  if negb sent then ret MT_ERROR else
  (* Wait for an answer *)
  '(ack_result, _) <- WaitForACKOrNACK 1000 ;;
  ret ack_result.

(** Modelled from the spec: the flight list, an ordered sequence with
    a fixed upper capacity; [append] adds at the end, [full] holds when
    the capacity is reached. *)
Definition RecordedFlightList : Type := list RecordedFlightInfo.

Definition full (flight_list : RecordedFlightList) : bool :=
  Nat.leb list_capacity (List.length flight_list).

(** The [for] loop of [ReadFlightList], entered at its condition with
    the 8-bit counter at [i]. *)
Fixpoint ReadFlightList_loop (fuel : nat) (i : Z)
    (flight_list : RecordedFlightList) : M (bool * RecordedFlightList) :=
  match fuel with
  | O => out_of_fuel
  | S fuel =>
      if full flight_list then ret (true, flight_list) else
      SetProgressPosition (i mod 10) ;;
      ack_result <- SelectFlight i ;;
      (* Last record reached -> bail out and return list *)
      if MessageType_eqb ack_result MT_NACK then ret (true, flight_list) else
      (* If neither ACK nor NACK was received *)
      if negb (MessageType_eqb ack_result MT_ACK) then
        ret (false, flight_list)
      else
      cancelled <- IsCancelled ;;
      if cancelled then ret (false, flight_list) else
      let flight_info := set_flarm indeterminate_flight i in
      '(ok, flight_info) <- ReadFlightInfo flight_info ;;
      let flight_list :=
        if ok then flight_list ++ [flight_info] else flight_list in
      ReadFlightList_loop fuel (wrap 8 (i + 1)) flight_list
  end.

(** Every turn of the loop that does not leave it takes a reply, and a
    silent device ends it, so one turn more than there are replies is
    enough ([ReadFlightList_returns]). *)
Definition ReadFlightList (flight_list : RecordedFlightList)
  : M (bool * RecordedFlightList) :=
  fun w =>
    (SetProgressRange 10 ;;
     ReadFlightList_loop (S (List.length (replies w))) 0 flight_list) w.

(** The [while (true)] loop of [DownloadFlight(path, env)]. *)
Fixpoint DownloadFlight_loop (fuel : nat) : M bool :=
  match fuel with
  | O => out_of_fuel
  | S fuel =>
      (* Create header for getting IGC file data *)
      let header := PrepareFrameHeader MT_GETIGCDATA [] in
      (* Send request *)
      sent <- SendStartByte ;;
      if negb sent then ret false else
      sent <- SendFrameHeader header 1000 ;;
      if negb sent then ret false else
      cancelled <- IsCancelled ;;
      if cancelled then ret false else
      (* Wait for an answer and save the payload for further processing *)
      '(ack_result, data) <- WaitForACKOrNACK 3000 ;;
      let length := Z.of_nat (List.length data) in
      let ack := MessageType_eqb ack_result MT_ACK in
      (* If no ACK was received *)
      if negb ack || (length <=? 3) then ret false else
      cancelled <- IsCancelled ;;
      if cancelled then ret false else
      let length := length - 3 in
      (* Read progress (in percent) *)
      let progress := byte_value (nth 2 data x00) in
      SetProgressPosition (Z.min progress 100) ;;
      let is_last_packet := Byte.eqb (last data x00) x1a in
      let length := if is_last_packet then length - 1 else length in
      (* Read IGC data *)
      let igc_data := skipn 3 data in
      Write (firstn (Z.to_nat length) igc_data) ;;
      if is_last_packet then ret true else DownloadFlight_loop fuel
  end.

(** [DownloadFlight(path, env)]. *)
Definition DownloadFlight_path : M bool :=
  writer_error <- BinaryWriter ;;
  if writer_error then ret false else
  cancelled <- IsCancelled ;;
  if cancelled then ret false else
  SetProgressRange 100 ;;
  fun w => DownloadFlight_loop (S (List.length (replies w))) w.

(** [DownloadFlight(flight, path, env)]. *)
Definition DownloadFlight (flight : RecordedFlightInfo) : M bool :=
  ack_result <- SelectFlight (flarm flight) ;;
  (* If no ACK was received -> cancel *)
  if negb (MessageType_eqb ack_result MT_ACK) then ret false else
  cancelled <- IsCancelled ;;
  if cancelled then ret false else
  downloaded <- DownloadFlight_path ;;
  if downloaded then ret true else
  File_Delete ;;
  ret false.

End Driver.


(** ** The specification's vocabulary *)

(** The fields of a line: the text between consecutive separators. *)
Fixpoint fields (sep : ascii) (s : cstring) : list cstring :=
  match s with
  | [] => [[]]
  | x :: s' =>
      if Ascii.eqb x sep then [] :: fields sep s'
      else match fields sep s' with
           | field :: rest => (x :: field) :: rest
           | [] => [[x]]
           end
  end.

(** What a caller that looks at the result only after success sees. *)
Definition parsed (r : bool * RecordedFlightInfo) : option RecordedFlightInfo :=
  if fst r then Some (snd r) else None.

(** The rule of the specification: cut the line into fields, drop the
    first one when it is longer than 10 characters, then read date,
    start time and duration by position.  The duration field has to be
    closed by a separator, so a fourth field follows. *)
Definition positional {T : Target} (record_info : cstring)
    (flight : RecordedFlightInfo) : option RecordedFlightInfo :=
  let all := fields "|" record_info in
  let from_date :=
    if 10 <? Z.of_nat (List.length (hd [] all)) then tl all else all in
  match from_date with
  | date_field :: start_field :: duration_field :: _ :: _ =>
      match ParseDate date_field (date flight),
            ParseTime start_field (start_time flight),
            ParseTime duration_field indeterminate_time with
      | (true, d), (true, start), (true, duration) =>
          Some {| date := d; start_time := start;
                  end_time := operator_plus start duration;
                  flarm := flarm flight |}
      | _, _, _ => None
      end
  | _ => None
  end.

(** Field widths that hold the numbers of the two sample lines. *)
Definition wide_enough (T : Target) : Prop :=
  11 <= ulong_bits /\ 11 <= year_bits /\ 7 <= month_bits /\ 7 <= day_bits /\
  7 <= hour_bits /\ 7 <= minute_bits /\ 7 <= second_bits.

(** The world after [n] more transmissions. *)
Definition sent (w : World) (n : nat) : World := with_sends w (n + sends w).

(** The world after one more poll of the cancellation flag. *)
Definition polled (w : World) : World := with_polls w (S (polls w)).

(** The world after one more wait. *)
Definition received (w : World) : World := with_replies w (tl (replies w)).

(** The requests put on the link: the frame headers sent, in order. *)
Definition requests (events : list Event) : list FrameHeader :=
  flat_map (fun e => match e with Header h _ => [h] | _ => [] end) events.

(** The record numbers of the SELECTRECORD requests, in order. *)
Definition selected (events : list Event) : list byte :=
  flat_map (fun h => match header_type h with
                     | MT_SELECTRECORD => header_payload h
                     | _ => []
                     end) (requests events).

(** The data handed to the sink, call by call. *)
Definition writes (events : list Event) : list (list byte) :=
  flat_map (fun e => match e with WriteData d => [d] | _ => [] end) events.

(** An event that is part of an exchange with the device. *)
Definition is_exchange (e : Event) : bool :=
  match e with
  | StartByte | Header _ _ | Escaped _ _ | Wait _ => true
  | _ => false
  end.

(** No exchange follows a poll that found the operation cancelled. *)
Fixpoint quiet_after_cancel (events : list Event) : bool :=
  match events with
  | [] => true
  | IsCancelledPoll true :: rest => forallb (fun e => negb (is_exchange e)) rest
  | _ :: rest => quiet_after_cancel rest
  end.

Definition opens (e : Event) : bool :=
  match e with Open _ => true | _ => false end.

(** What [ReadFlightInfo] makes of the reply to GETRECORDINFO for the
    record at index [i], when the request went out. *)
Definition readable {T : Target} (i : Z) (reply : Reply)
  : option RecordedFlightInfo :=
  let '(type, data) := reply in
  if negb (MessageType_eqb type MT_ACK) || (Z.of_nat (List.length data) <=? 2)
  then None
  else parsed (ParseRecordInfo (c_str (skipn 2 data))
                               (set_flarm indeterminate_flight i)).

(** The records a catalog yields: one entry per acknowledged SELECT,
    given as the payload of that acknowledgement and the reply to the
    GETRECORDINFO that follows; the index counts in 8 bits from [i]. *)
Fixpoint collected {T : Target} (i : Z) (catalog : list (list byte * Reply))
  : RecordedFlightList :=
  match catalog with
  | [] => []
  | (_, reply) :: rest =>
      match readable i reply with
      | Some flight_info => flight_info :: collected (wrap 8 (i + 1)) rest
      | None => collected (wrap 8 (i + 1)) rest
      end
  end.

(** The script of such a catalog, closed by the NACK of the SELECT past
    its last record. *)
Definition catalog_replies (catalog : list (list byte * Reply))
    (nack_payload : list byte) : list Reply :=
  flat_map (fun entry => [(MT_ACK, fst entry); snd entry]) catalog
  ++ [(MT_NACK, nack_payload)].

(** Sample worlds: an open port, an openable destination and no file
    yet; the user never cancels, or has cancelled before the call. *)
Definition calm (script : list Reply) : World :=
  {| replies := script; port := fun _ => true; sends := 0;
     cancel := fun _ => false; polls := 0; can_open := true; file := None |}.

Definition cancelled (script : list Reply) : World :=
  {| replies := script; port := fun _ => true; sends := 0;
     cancel := fun _ => true; polls := 0; can_open := true; file := None |}.

Definition bytes (s : string) : list byte := list_byte_of_string s.

(** A world in which the port takes every transmission and nobody
    cancels. *)
Definition undisturbed (w : World) : Prop :=
  (forall n, port w n = true) /\ (forall n, cancel w n = false).

(** ** Vocabulary for further properties *)

(** A run of decimal digits, and the number it writes. *)
Definition number (ds : cstring) : Prop :=
  ds <> [] /\ forallb isdigit ds = true.

Definition value (ds : cstring) : Z := fst (digits 0 ds).

(** How often a character occurs in a string. *)
Definition occurrences (c : ascii) (s : cstring) : nat :=
  count_occ ascii_dec s c.

(** A time of day as seconds since midnight. *)
Definition seconds_of (t : BrokenTime) : Z :=
  3600 * hour t + 60 * minute t + second t.

(** A time of day in its usual ranges. *)
Definition clock (t : BrokenTime) : Prop :=
  0 <= hour t <= 23 /\ 0 <= minute t <= 59 /\ 0 <= second t <= 59.

(** The replies of a stretch of catalog: for each record the
    acknowledgement of its SELECT and the reply to its GETRECORDINFO. *)
Definition acknowledged (catalog : list (list byte * Reply)) : list Reply :=
  flat_map (fun entry => [(MT_ACK, fst entry); snd entry]) catalog.

(** The list is not full when the SELECT of any record of the catalog
    is due. *)
Definition room {T : Target} (i : Z) (flight_list : RecordedFlightList)
    (catalog : list (list byte * Reply)) : Prop :=
  forall k, (k < List.length catalog)%nat ->
    (List.length flight_list
     + List.length (collected i (firstn k catalog)) < list_capacity)%nat.

(** The places, counted from [k], of the records of a catalog whose
    metadata can be read. *)
Fixpoint readable_places {T : Target} (k : nat)
    (catalog : list (list byte * Reply)) : list nat :=
  match catalog with
  | [] => []
  | (_, reply) :: rest =>
      match readable 0 reply with
      | Some _ => k :: readable_places (S k) rest
      | None => readable_places (S k) rest
      end
  end.

(** What a progress event may say under a given range. *)
Definition progress_within (range highest : Z) (e : Event) : Prop :=
  match e with
  | ProgressRange r => r = range
  | ProgressPosition p => 0 <= p <= highest
  | _ => True
  end.

(** A chunk of log data that is not the last: more than the 3 leading
    bytes, and no sentinel at its end. *)
Definition inner_chunk (c : list byte) : Prop :=
  (3 < List.length c)%nat /\ last c x00 <> x1a.

(** A target for sample runs with a list of two flights. *)
Definition small_target : Target := {|
  ulong_bits := 32;
  year_bits := 16; month_bits := 8; day_bits := 8;
  hour_bits := 8; minute_bits := 8; second_bits := 8;
  list_capacity := 2
|}.

(** A metadata reply as the device sends it: two leading bytes, the
    line, the terminator. *)
Definition info_reply (s : string) : Reply :=
  (MT_ACK, bytes "ab" ++ bytes s ++ [x00]).

(** The text of a reply lies inside its payload: the reply is not read
    as text at all (it is no ACK, or has at most 2 bytes), or the text
    from offset 2 holds its terminating zero byte.  For such a reply
    [c_str] gives what the string functions of the C library read. *)
Definition terminated (reply : Reply) : bool :=
  negb (MessageType_eqb (fst reply) MT_ACK)
  || (Z.of_nat (List.length (snd reply)) <=? 2)
  || existsb (Byte.eqb x00) (skipn 2 (snd reply)).

(** A catalog whose metadata replies are all terminated. *)
Definition well_terminated (catalog : list (list byte * Reply)) : bool :=
  forallb (fun entry => terminated (snd entry)) catalog.

(** The answers the polls of the cancellation flag got, in order. *)
Definition answers (events : list Event) : list bool :=
  flat_map (fun e => match e with IsCancelledPoll b => [b] | _ => [] end)
           events.

(** The user cancels just before the driver looks at the flag for the
    n-th time in this call, counting from 0. *)
Definition cancelled_at (w : World) (n : nat) : Prop :=
  (forall k, (k < n)%nat -> cancel w (polls w + k) = false) /\
  cancel w (polls w + n) = true.

(** The port takes every transmission. *)
Definition port_open (w : World) : Prop := forall n, port w n = true.

(** The three requests of this unit. *)
Definition select_request (i : Z) : FrameHeader :=
  PrepareFrameHeader MT_SELECTRECORD [uint8_byte i].

Definition info_request : FrameHeader :=
  PrepareFrameHeader MT_GETRECORDINFO [].

Definition data_request : FrameHeader :=
  PrepareFrameHeader MT_GETIGCDATA [].

(** * Properties *)

(** ** Integers and strings *)

Lemma wrap_small (bits x : Z) : 0 <= x < 2 ^ bits -> wrap bits x = x.
Proof. intros H. unfold wrap. now apply Z.mod_small. Qed.

Lemma wrap_shrinks (bits x : Z) : 0 <= x -> 0 <= wrap bits x <= x.
Proof.
  intros Hx. unfold wrap.
  destruct (Z.eq_dec (2 ^ bits) 0) as [E | E].
  - rewrite E, Z.mod_0_r. lia.
  - assert (0 <= 2 ^ bits) by apply Z.pow_nonneg, Z.le_0_2.
    split.
    + apply Z.mod_pos_bound. lia.
    + apply Z.mod_le; lia.
Qed.

Lemma pow2_mono (a b : Z) : 0 <= a <= b -> 2 ^ a <= 2 ^ b.
Proof. intros H. apply Z.pow_le_mono_r; lia. Qed.

Lemma ulong_value_small {T : Target} (v : Z) :
  v <= ULONG_MAX -> ulong_value false v = v.
Proof.
  intros H. unfold ulong_value.
  destruct (Z.gtb_spec v ULONG_MAX); [lia | reflexivity].
Qed.

(** The carry loop runs until its guard fails: with [Z.to_nat lo] turns
    of fuel the low field it returns is not above 60. *)
Lemma carry_exits (lo_bits hi_bits : Z) (fuel : nat) :
  forall lo hi, 0 <= lo -> (Z.to_nat lo <= fuel)%nat ->
    0 <= fst (carry fuel lo_bits hi_bits lo hi) <= 60.
Proof.
  induction fuel as [| fuel IH]; intros lo hi Hlo Hfuel; simpl.
  - lia.
  - destruct (Z.gtb_spec lo 60) as [Hgt | Hle]; simpl; [| lia].
    pose proof (wrap_shrinks lo_bits (lo - 60) ltac:(lia)) as Hw.
    apply IH; lia.
Qed.

Lemma fields_cut (sep : ascii) (s : cstring) :
  fields sep s =
  match strchr_cut sep s with
  | Some (field, p) => field :: fields sep p
  | None => [s]
  end.
Proof.
  induction s as [| x s IH]; simpl; [reflexivity |].
  destruct (Ascii.eqb x sep); [reflexivity |].
  rewrite IH. destruct (strchr_cut sep s) as [[field p] |]; reflexivity.
Qed.

(** ** The metadata line *)

Section ParserFacts.
Context {T : Target}.

(** A successful [ParseTime] has stored into all three fields, so what
    the object held before does not show. *)
Lemma ParseTime_overwrites (str : cstring) (t t' : BrokenTime) :
  fst (ParseTime str t) = fst (ParseTime str t') /\
  (fst (ParseTime str t) = true -> snd (ParseTime str t) = snd (ParseTime str t')).
Proof.
  unfold ParseTime.
  destruct (strtoul str) as [v1 e1].
  destruct (same_ptr str e1 || negb (Ascii.eqb (deref e1) ":")); simpl;
    [split; [reflexivity | discriminate] |].
  destruct (strtoul (tl e1)) as [v2 e2].
  destruct (same_ptr (tl e1) e2 || negb (Ascii.eqb (deref e2) ":")); simpl;
    [split; [reflexivity | discriminate] |].
  destruct (strtoul (tl e2)) as [v3 e3]. simpl. split; reflexivity.
Qed.

Lemma ParseDate_overwrites (str : cstring) (d d' : BrokenDate) :
  fst (ParseDate str d) = fst (ParseDate str d') /\
  (fst (ParseDate str d) = true -> snd (ParseDate str d) = snd (ParseDate str d')).
Proof.
  unfold ParseDate.
  destruct (strtoul str) as [v1 e1].
  destruct (same_ptr str e1 || negb (Ascii.eqb (deref e1) "-")); simpl;
    [split; [reflexivity | discriminate] |].
  destruct (strtoul (tl e1)) as [v2 e2].
  destruct (same_ptr (tl e1) e2 || negb (Ascii.eqb (deref e2) "-")); simpl;
    [split; [reflexivity | discriminate] |].
  destruct (strtoul (tl e2)) as [v3 e3]. simpl. split; reflexivity.
Qed.

End ParserFacts.

Lemma xcsoar_target_wide_enough : wide_enough xcsoar_target.
Proof. unfold wide_enough; simpl; lia. Qed.

Section PositionalProof.
Context {T : Target}.

(** From the date field on, the parser and the positional rule agree. *)
Lemma ParseRecordInfo_from_date (date_field p : cstring)
    (flight : RecordedFlightInfo) :
  parsed
    (let '(ok, d) := ParseDate date_field (date flight) in
     let flight := set_date flight d in
     if negb ok then (false, flight) else
     match strchr_cut "|" p with
     | None => (false, flight)
     | Some (record_info, p) =>
     let '(ok, t) := ParseTime record_info (start_time flight) in
     let flight := set_start_time flight t in
     if negb ok then (false, flight) else
     match strchr_cut "|" p with
     | None => (false, flight)
     | Some (record_info, p) =>
     let '(ok, duration) := ParseTime record_info indeterminate_time in
     if negb ok then (false, flight) else
     (true, set_end_time flight (operator_plus (start_time flight) duration))
     end end) =
  match date_field :: fields "|" p with
  | date_field :: start_field :: duration_field :: _ :: _ =>
      match ParseDate date_field (date flight),
            ParseTime start_field (start_time flight),
            ParseTime duration_field indeterminate_time with
      | (true, d), (true, start), (true, duration) =>
          Some {| date := d; start_time := start;
                  end_time := operator_plus start duration;
                  flarm := flarm flight |}
      | _, _, _ => None
      end
  | _ => None
  end.
Proof.
  rewrite (fields_cut "|" p).
  destruct (strchr_cut "|" p) as [[start_field p1] |].
  - rewrite (fields_cut "|" p1).
    destruct (strchr_cut "|" p1) as [[duration_field p2] |].
    + rewrite (fields_cut "|" p2).
      destruct (strchr_cut "|" p2) as [[pilot_field p3] |];
        destruct (ParseDate date_field (date flight)) as [[|] d]; simpl;
        try reflexivity;
        destruct (ParseTime start_field (start_time flight)) as [[|] t]; simpl;
        try reflexivity;
        destruct (ParseTime duration_field indeterminate_time) as [[|] du];
        reflexivity.
    + destruct (ParseDate date_field (date flight)) as [[|] d]; simpl;
        [| reflexivity].
      destruct (ParseTime start_field (start_time flight)) as [[|] t];
        reflexivity.
  - destruct (ParseDate date_field (date flight)) as [[|] d]; reflexivity.
Qed.

Lemma ParseRecordInfo_positional (record_info : cstring)
    (flight : RecordedFlightInfo) :
  parsed (ParseRecordInfo record_info flight) = positional record_info flight.
Proof.
  unfold ParseRecordInfo, positional.
  rewrite (fields_cut "|" record_info).
  destruct (strchr_cut "|" record_info) as [[first p] |]; simpl hd; simpl tl.
  - destruct (10 <? Z.of_nat (List.length first)).
    + rewrite (fields_cut "|" p).
      destruct (strchr_cut "|" p) as [[date_field p1] |]; [| reflexivity].
      apply ParseRecordInfo_from_date.
    + apply ParseRecordInfo_from_date.
  - destruct (10 <? Z.of_nat (List.length record_info)); reflexivity.
Qed.

(** A successful [ParseRecordInfo] has stored into date, start time and
    end time; of what the object held before only [flarm] remains. *)
Lemma ParseRecordInfo_overwrites (record_info : cstring)
    (flight other : RecordedFlightInfo) :
  parsed (ParseRecordInfo record_info flight) =
  option_map (fun f => set_flarm f (flarm flight))
             (parsed (ParseRecordInfo record_info other)).
Proof.
  rewrite !ParseRecordInfo_positional. unfold positional.
  destruct (if 10 <? Z.of_nat (List.length (hd [] (fields "|" record_info)))
            then tl (fields "|" record_info) else fields "|" record_info)
    as [| d [| s [| t [| x rest]]]]; try reflexivity.
  destruct (ParseDate_overwrites d (date flight) (date other)) as [D1 D2].
  destruct (ParseTime_overwrites s (start_time flight) (start_time other))
    as [S1 S2].
  destruct (ParseDate d (date flight)) as [okd vd],
           (ParseDate d (date other)) as [okd' vd'],
           (ParseTime s (start_time flight)) as [oks vs],
           (ParseTime s (start_time other)) as [oks' vs'].
  cbn in D1, D2, S1, S2. subst okd' oks'.
  destruct okd; [| reflexivity]. destruct oks; [| reflexivity].
  rewrite (D2 eq_refl), (S2 eq_refl).
  destruct (ParseTime t indeterminate_time) as [[|] du]; reflexivity.
Qed.

End PositionalProof.

Section Samples.
Context {T : Target}.
Hypothesis wide : wide_enough T.

#[local] Arguments wrap : simpl never.
#[local] Arguments ulong_value : simpl never.

Lemma small_fits_ulong (v : Z) : 0 <= v < 2048 -> ulong_value false v = v.
Proof.
  intros Hv. apply ulong_value_small. unfold ULONG_MAX.
  destruct wide as (Hu & _).
  assert (P : 2 ^ 11 <= 2 ^ ulong_bits) by (apply pow2_mono; lia).
  change (2 ^ 11) with 2048 in P. lia.
Qed.

Lemma small_fits_year (v : Z) : 0 <= v < 2048 -> wrap year_bits v = v.
Proof.
  intros Hv. apply wrap_small. destruct wide as (_ & Hy & _).
  assert (P : 2 ^ 11 <= 2 ^ year_bits) by (apply pow2_mono; lia).
  change (2 ^ 11) with 2048 in P. lia.
Qed.

Lemma small_fits_field (bits v : Z) :
  7 <= bits -> 0 <= v < 128 -> wrap bits v = v.
Proof.
  intros Hb Hv. apply wrap_small.
  assert (P : 2 ^ 7 <= 2 ^ bits) by (apply pow2_mono; lia).
  change (2 ^ 7) with 128 in P. lia.
Qed.

Lemma carry_none (fuel : nat) (lo_bits hi_bits lo hi : Z) :
  lo <= 60 -> carry fuel lo_bits hi_bits lo hi = (lo, hi).
Proof.
  intros H. destruct fuel; simpl; [reflexivity |].
  destruct (Z.gtb_spec lo 60); [lia | reflexivity].
Qed.

Lemma carry_once (fuel : nat) (lo_bits hi_bits lo hi : Z) :
  (0 < fuel)%nat -> 7 <= lo_bits -> 7 <= hi_bits ->
  60 < lo <= 120 -> 0 <= hi < 127 ->
  carry fuel lo_bits hi_bits lo hi = (lo - 60, hi + 1).
Proof.
  intros Hf Hlo Hhi Hl Hh. destruct fuel; [lia |]. simpl.
  destruct (Z.gtb_spec lo 60); [| lia].
  rewrite !small_fits_field by lia. apply carry_none. lia.
Qed.

Ltac fit :=
  repeat (rewrite small_fits_ulong by lia);
  repeat (rewrite small_fits_year by lia);
  repeat (rewrite small_fits_field by lia).

Lemma ParseRecordInfo_with_filename (flight : RecordedFlightInfo) :
  ParseRecordInfo
    (line "18CG6NG1.IGC|2011-08-12|12:23:48|02:03:25|TOBIAS BIENIEK|TH|Club")
    flight =
  (true, {| date := {| year := 2011; month := 8; day := 12 |};
            start_time := {| hour := 12; minute := 23; second := 48 |};
            end_time := {| hour := 14; minute := 27; second := 13 |};
            flarm := flarm flight |}).
Proof.
  pose proof wide as (_ & _ & Hmo & Hd & Hh & Hmi & Hs).
  unfold line. cbn. fit.
  unfold operator_plus. cbn. fit.
  rewrite carry_once by lia. rewrite carry_none by lia. reflexivity.
Qed.

Lemma ParseRecordInfo_without_filename (flight : RecordedFlightInfo) :
  ParseRecordInfo (line "2000-11-08|20:05:21|01:21:09|J.Doe|XYZ|15M") flight =
  (true, {| date := {| year := 2000; month := 11; day := 8 |};
            start_time := {| hour := 20; minute := 5; second := 21 |};
            end_time := {| hour := 21; minute := 26; second := 30 |};
            flarm := flarm flight |}).
Proof.
  pose proof wide as (_ & _ & Hmo & Hd & Hh & Hmi & Hs).
  unfold line. cbn. fit.
  unfold operator_plus. cbn. fit.
  rewrite !carry_none by lia. reflexivity.
Qed.

(** Thirty seconds and thirty seconds: the sum 60 is not above 60, the
    loop does not turn, and the end time keeps 60 in its seconds. *)
Lemma ParseRecordInfo_sixty_seconds (flight : RecordedFlightInfo) :
  ParseRecordInfo (line "2000-11-08|23:05:30|01:21:30|J.Doe|XYZ|15M") flight =
  (true, {| date := {| year := 2000; month := 11; day := 8 |};
            start_time := {| hour := 23; minute := 5; second := 30 |};
            end_time := {| hour := 24; minute := 26; second := 60 |};
            flarm := flarm flight |}).
Proof.
  pose proof wide as (_ & _ & Hmo & Hd & Hh & Hmi & Hs).
  unfold line. cbn. fit.
  unfold operator_plus. cbn. fit.
  rewrite !carry_none by lia. reflexivity.
Qed.

End Samples.

Lemma carry_high_nonneg (lo_bits hi_bits : Z) (fuel : nat) :
  forall lo hi, 0 <= hi -> 0 <= snd (carry fuel lo_bits hi_bits lo hi).
Proof.
  induction fuel as [| fuel IH]; intros lo hi Hhi; simpl; [exact Hhi |].
  destruct (lo >? 60); simpl; [| exact Hhi].
  apply IH. apply wrap_shrinks. lia.
Qed.

(** Both loops of [operator+] run to the end of their guard: what they
    leave in seconds and minutes is at most 60. *)
Lemma operator_plus_exits {T : Target} (a b : BrokenTime) :
  0 <= second a + second b -> 0 <= minute a + minute b ->
  0 <= second (operator_plus a b) <= 60 /\
  0 <= minute (operator_plus a b) <= 60.
Proof.
  intros Hs Hm. unfold operator_plus.
  pose proof (wrap_shrinks second_bits _ Hs) as Ws.
  pose proof (wrap_shrinks minute_bits _ Hm) as Wm.
  set (s0 := wrap second_bits (second a + second b)) in *.
  set (m0 := wrap minute_bits (minute a + minute b)) in *.
  assert (E1 : 0 <= fst (carry (Z.to_nat s0) second_bits minute_bits s0 m0)
               <= 60) by (apply carry_exits; lia).
  assert (N1 : 0 <= snd (carry (Z.to_nat s0) second_bits minute_bits s0 m0))
    by (apply carry_high_nonneg; lia).
  destruct (carry (Z.to_nat s0) second_bits minute_bits s0 m0) as [s m].
  simpl in E1, N1.
  set (h0 := wrap hour_bits (hour a + hour b)).
  assert (E2 : 0 <= fst (carry (Z.to_nat m) minute_bits hour_bits m h0) <= 60)
    by (apply carry_exits; lia).
  destruct (carry (Z.to_nat m) minute_bits hour_bits m h0) as [m' h].
  simpl in *. lia.
Qed.

(** C2.  [ParseRecordInfo] reads a line as the positional rule says:
    the first field is dropped exactly when it is longer than 10
    characters, and the fields after it are date, start time and
    duration; on every target whose fields hold the numbers, the line
    of firmware 5.03 gives 2011-08-12, 12:23:48 to 14:27:13 and the
    documented line gives 2000-11-08, 20:05:21 to 21:26:30. *)
Theorem ParseRecordInfo_filename_rule :
  (forall (T : Target) (record_info : cstring) (flight : RecordedFlightInfo),
     parsed (ParseRecordInfo record_info flight) =
     positional record_info flight) /\
  (forall (T : Target) (flight : RecordedFlightInfo),
     wide_enough T ->
     ParseRecordInfo
       (line "18CG6NG1.IGC|2011-08-12|12:23:48|02:03:25|TOBIAS BIENIEK|TH|Club")
       flight =
     (true, {| date := {| year := 2011; month := 8; day := 12 |};
               start_time := {| hour := 12; minute := 23; second := 48 |};
               end_time := {| hour := 14; minute := 27; second := 13 |};
               flarm := flarm flight |}) /\
     ParseRecordInfo (line "2000-11-08|20:05:21|01:21:09|J.Doe|XYZ|15M")
       flight =
     (true, {| date := {| year := 2000; month := 11; day := 8 |};
               start_time := {| hour := 20; minute := 5; second := 21 |};
               end_time := {| hour := 21; minute := 26; second := 30 |};
               flarm := flarm flight |})).
Proof.
  split.
  - intros T record_info flight. apply ParseRecordInfo_positional.
  - intros T flight wide. split.
    + now apply ParseRecordInfo_with_filename.
    + now apply ParseRecordInfo_without_filename.
Qed.

Lemma ParseRecordInfo_filename_rule_witness :
  wide_enough xcsoar_target /\
  @ParseRecordInfo xcsoar_target
    (line "2000-11-08|20:05:21|01:21:09|J.Doe|XYZ|15M") indeterminate_flight =
  (true, {| date := {| year := 2000; month := 11; day := 8 |};
            start_time := {| hour := 20; minute := 5; second := 21 |};
            end_time := {| hour := 21; minute := 26; second := 30 |};
            flarm := 0 |}).
Proof.
  assert (W : wide_enough xcsoar_target) by (unfold wide_enough; simpl; lia).
  split; [exact W |].
  exact (proj2 (proj2 ParseRecordInfo_filename_rule xcsoar_target
                      indeterminate_flight W)).
Defined.

(** C3.  Where the sum of the seconds is exactly 60 the loop guard
    [c.second > 60] is false: a flight from 23:05:30 lasting 01:21:30
    gets the end time 24:26:60.  The hour passes 24 without rollover,
    the seconds are not below 60. *)
Theorem operator_plus_keeps_sixty (T : Target) (flight : RecordedFlightInfo) :
  wide_enough T ->
  operator_plus {| hour := 23; minute := 5; second := 30 |}
                {| hour := 1; minute := 21; second := 30 |} =
  {| hour := 24; minute := 26; second := 60 |} /\
  ParseRecordInfo (line "2000-11-08|23:05:30|01:21:30|J.Doe|XYZ|15M") flight =
  (true, {| date := {| year := 2000; month := 11; day := 8 |};
            start_time := {| hour := 23; minute := 5; second := 30 |};
            end_time := {| hour := 24; minute := 26; second := 60 |};
            flarm := flarm flight |}).
Proof.
  intros wide. split.
  - pose proof wide as (_ & _ & Hmo & Hd & Hh & Hmi & Hs).
    unfold operator_plus. cbn [hour minute second].
    change (30 + 30) with 60. change (5 + 21) with 26. change (23 + 1) with 24.
    rewrite !small_fits_field by lia.
    rewrite !carry_none by lia. reflexivity.
  - now apply ParseRecordInfo_sixty_seconds.
Qed.

Lemma operator_plus_keeps_sixty_witness :
  wide_enough xcsoar_target /\
  second (@operator_plus xcsoar_target
            {| hour := 23; minute := 5; second := 30 |}
            {| hour := 1; minute := 21; second := 30 |}) = 60.
Proof.
  assert (W : wide_enough xcsoar_target) by (unfold wide_enough; simpl; lia).
  split; [exact W |].
  rewrite (proj1 (operator_plus_keeps_sixty xcsoar_target
                    indeterminate_flight W)).
  reflexivity.
Defined.

(** ** The exchanges, case by case *)

Lemma SelectFlight_cases (i : Z) (w : World) :
  SelectFlight i w =
  let data := [uint8_byte i] in
  let h := Header (PrepareFrameHeader MT_SELECTRECORD data) 1000 in
  if negb (port w (sends w)) then
    Some (MT_ERROR, [StartByte], sent w 1)
  else if negb (port w (S (sends w))) then
    Some (MT_ERROR, [StartByte; h], sent w 2)
  else if negb (port w (S (S (sends w)))) then
    Some (MT_ERROR, [StartByte; h; Escaped data 1000], sent w 3)
  else
    Some (fst (next_reply w), [StartByte; h; Escaped data 1000; Wait 1000],
          received (sent w 3)).
Proof.
  unfold SelectFlight, bind, SendStartByte, SendFrameHeader, SendEscaped,
    transmit, WaitForACKOrNACK, ret, next_reply, received, sent.
  cbn.
  destruct (port w (sends w)); cbn; [| reflexivity].
  destruct (port w (S (sends w))); cbn; [| reflexivity].
  destruct (port w (S (S (sends w)))); cbn; [| reflexivity].
  destruct (replies w) as [| [ack_result data] rest]; reflexivity.
Qed.

Lemma SelectFlight_returns (i : Z) (w : World) :
  exists ack_result events w',
    SelectFlight i w = Some (ack_result, events, w') /\
    (List.length (replies w') <= List.length (replies w))%nat /\
    (ack_result = MT_ACK ->
       (List.length (replies w') < List.length (replies w))%nat) /\
    (ack_result = MT_NACK ->
       (List.length (replies w') < List.length (replies w))%nat) /\
    port w' = port w /\ cancel w' = cancel w /\ polls w' = polls w /\
    file w' = file w /\ can_open w' = can_open w /\
    forallb (fun e => negb (opens e)) events = true /\
    quiet_after_cancel events = true /\
    forallb (fun e => match e with IsCancelledPoll _ => false | _ => true end)
            events = true /\
    (requests events = [] \/
     requests events = [PrepareFrameHeader MT_SELECTRECORD [uint8_byte i]]) /\
    (ack_result = MT_ACK ->
     requests events = [PrepareFrameHeader MT_SELECTRECORD [uint8_byte i]]).
Proof.
  rewrite SelectFlight_cases. cbv zeta.
  destruct (port w (sends w)); cbn [negb];
    [| do 3 eexists; split; [reflexivity |]; cbn; intuition (try discriminate; auto)].
  destruct (port w (S (sends w))); cbn [negb];
    [| do 3 eexists; split; [reflexivity |]; cbn; intuition (try discriminate; auto)].
  destruct (port w (S (S (sends w)))); cbn [negb];
    [| do 3 eexists; split; [reflexivity |]; cbn; intuition (try discriminate; auto)].
  do 3 eexists; split; [reflexivity |]. unfold next_reply. cbn.
  destruct (replies w) as [| [type data] rest]; cbn;
    intuition (try discriminate; auto; try lia).
Qed.

Section Catalog.
Context {T : Target}.

Lemma ReadFlightInfo_cases (flight : RecordedFlightInfo) (w : World) :
  ReadFlightInfo flight w =
  let h := Header (PrepareFrameHeader MT_GETRECORDINFO []) 1000 in
  if negb (port w (sends w)) then
    Some ((false, flight), [StartByte], sent w 1)
  else if negb (port w (S (sends w))) then
    Some ((false, flight), [StartByte; h], sent w 2)
  else
    Some (if negb (MessageType_eqb (fst (next_reply w)) MT_ACK)
             || (Z.of_nat (List.length (snd (next_reply w))) <=? 2)
          then (false, flight)
          else ParseRecordInfo (c_str (skipn 2 (snd (next_reply w)))) flight,
          [StartByte; h; Wait 1000], received (sent w 2)).
Proof.
  unfold ReadFlightInfo, bind, SendStartByte, SendFrameHeader,
    transmit, WaitForACKOrNACK, ret, next_reply, received, sent.
  cbn.
  destruct (port w (sends w)); cbn; [| reflexivity].
  destruct (port w (S (sends w))); cbn; [| reflexivity].
  destruct (replies w) as [| [ack_result data] rest]; cbn; [reflexivity |].
  destruct (negb (MessageType_eqb ack_result MT_ACK)
            || (Z.of_nat (List.length data) <=? 2)); reflexivity.
Qed.

Lemma ReadFlightInfo_returns (flight : RecordedFlightInfo) (w : World) :
  exists result events w',
    ReadFlightInfo flight w = Some (result, events, w') /\
    (List.length (replies w') <= List.length (replies w))%nat /\
    port w' = port w /\ cancel w' = cancel w /\ polls w' = polls w /\
    file w' = file w /\ can_open w' = can_open w /\
    quiet_after_cancel events = true /\
    forallb (fun e => match e with IsCancelledPoll _ => false | _ => true end)
            events = true /\
    selected events = [].
Proof.
  rewrite ReadFlightInfo_cases. cbv zeta.
  destruct (port w (sends w)); cbn [negb];
    [| do 3 eexists; split; [reflexivity |]; cbn; intuition auto].
  destruct (port w (S (sends w))); cbn [negb];
    [| do 3 eexists; split; [reflexivity |]; cbn; intuition auto].
  do 3 eexists; split; [reflexivity |]. cbn.
  destruct (replies w) as [| [type data] rest]; cbn; intuition auto.
Qed.

(** C9.  [ReadFlightInfo] fails whenever what the wait delivers is not
    an ACK or carries at most 2 bytes; for an ACK with a longer payload
    whose text holds its terminating zero byte the result is
    [ParseRecordInfo] on the text from offset 2, whatever the first two
    bytes are. *)
Theorem ReadFlightInfo_offset_two (flight : RecordedFlightInfo) (w : World) :
  (fst (next_reply w) <> MT_ACK \/
   (List.length (snd (next_reply w)) <= 2)%nat ->
   exists events w',
     ReadFlightInfo flight w = Some ((false, flight), events, w')) /\
  (forall (b0 b1 : byte) (text : list byte),
     port w (sends w) = true -> port w (S (sends w)) = true ->
     next_reply w = (MT_ACK, b0 :: b1 :: text) -> In x00 text ->
     exists events w',
       ReadFlightInfo flight w =
       Some (ParseRecordInfo (c_str text) flight, events, w')) /\
  (forall (w2 : World) (b0 b1 c0 c1 : byte) (text : list byte),
     port w (sends w) = true -> port w (S (sends w)) = true ->
     port w2 (sends w2) = true -> port w2 (S (sends w2)) = true ->
     next_reply w = (MT_ACK, b0 :: b1 :: text) ->
     next_reply w2 = (MT_ACK, c0 :: c1 :: text) -> In x00 text ->
     option_map (fun r => fst (fst r)) (ReadFlightInfo flight w) =
     option_map (fun r => fst (fst r)) (ReadFlightInfo flight w2)).
Proof.
  split; [| split].
  - intros Hbad. rewrite ReadFlightInfo_cases. cbv zeta.
    destruct (negb (port w (sends w))); [do 2 eexists; reflexivity |].
    destruct (negb (port w (S (sends w)))); [do 2 eexists; reflexivity |].
    assert (E : negb (MessageType_eqb (fst (next_reply w)) MT_ACK)
                || (Z.of_nat (List.length (snd (next_reply w))) <=? 2) = true).
    { destruct Hbad as [Htype | Hlen].
      - destruct (fst (next_reply w)); try reflexivity. now elim Htype.
      - apply orb_true_iff. right. apply Z.leb_le. lia. }
    rewrite E. do 2 eexists; reflexivity.
  - intros b0 b1 text P0 P1 Hreply Htext.
    rewrite ReadFlightInfo_cases. cbv zeta. rewrite P0, P1, Hreply.
    cbn [fst snd negb MessageType_eqb orb skipn].
    destruct text as [| b2 text]; [now elim Htext |].
    clear Htext.
    match goal with
    | |- context [?n <=? 2] => destruct (Z.leb_spec n 2) as [Hle | Hgt]
    end.
    + cbn [List.length] in Hle. lia.
    + do 2 eexists; reflexivity.
  - intros w2 b0 b1 c0 c1 text P0 P1 Q0 Q1 Hw Hw2 _.
    rewrite !ReadFlightInfo_cases. cbv zeta.
    rewrite P0, P1, Q0, Q1, Hw, Hw2. reflexivity.
Qed.

(** One turn of the catalog loop. *)
Lemma ReadFlightList_loop_cases (fuel : nat) (i : Z)
    (flight_list : RecordedFlightList) (w : World) :
  ReadFlightList_loop (S fuel) i flight_list w =
  if full flight_list then Some ((true, flight_list), [], w) else
  match SelectFlight i w with
  | None => None
  | Some (ack_result, select_events, w1) =>
      let position := ProgressPosition (i mod 10) in
      if MessageType_eqb ack_result MT_NACK then
        Some ((true, flight_list), position :: select_events, w1)
      else if negb (MessageType_eqb ack_result MT_ACK) then
        Some ((false, flight_list), position :: select_events, w1)
      else if cancel w1 (polls w1) then
        Some ((false, flight_list),
              position :: select_events ++ [IsCancelledPoll true], polled w1)
      else
        match ReadFlightInfo (set_flarm indeterminate_flight i) (polled w1) with
        | None => None
        | Some ((ok, flight_info), info_events, w2) =>
            match ReadFlightList_loop fuel (wrap 8 (i + 1))
                    (if ok then flight_list ++ [flight_info] else flight_list)
                    w2 with
            | None => None
            | Some (result, events, w3) =>
                Some (result,
                      position :: select_events ++
                        IsCancelledPoll false :: info_events ++ events, w3)
            end
        end
  end.
Proof.
  cbn [ReadFlightList_loop].
  destruct (full flight_list); [reflexivity |].
  unfold bind at 1. unfold SetProgressPosition at 1.
  unfold bind at 1.
  destruct (SelectFlight i w) as [[[ack_result select_events] w1] |];
    [| reflexivity].
  cbv zeta.
  destruct (MessageType_eqb ack_result MT_NACK);
    [unfold ret; cbn; rewrite app_nil_r; reflexivity |].
  destruct (negb (MessageType_eqb ack_result MT_ACK));
    [unfold ret; cbn; rewrite app_nil_r; reflexivity |].
  unfold bind at 1. unfold IsCancelled at 1. cbv zeta.
  destruct (cancel w1 (polls w1)); [reflexivity |].
  unfold bind at 1. fold (polled w1).
  destruct (ReadFlightInfo (set_flarm indeterminate_flight i) (polled w1))
    as [[[[ok flight_info] info_events] w2] |]; [| reflexivity].
  destruct ok; cbv iota;
    match goal with
    | |- context [ReadFlightList_loop fuel ?j ?l w2] =>
        destruct (ReadFlightList_loop fuel j l w2) as [[[result events] w3] |]
    end; reflexivity.
Qed.

Lemma quiet_after_cancel_app (before after : list Event) :
  forallb (fun e => match e with IsCancelledPoll _ => false | _ => true end)
          before = true ->
  quiet_after_cancel (before ++ after) = quiet_after_cancel after.
Proof.
  induction before as [| e before IH]; intros H; [reflexivity |].
  cbn in H. apply andb_true_iff in H as [He Hb].
  destruct e; try discriminate; cbn; auto.
Qed.

Lemma requests_app (a b : list Event) :
  requests (a ++ b) = requests a ++ requests b.
Proof. unfold requests. apply flat_map_app. Qed.

Lemma selected_app (a b : list Event) :
  selected (a ++ b) = selected a ++ selected b.
Proof. unfold selected. rewrite requests_app. apply flat_map_app. Qed.

(** The catalog loop returns: a turn that goes on has taken a reply, so
    fuel above the number of replies is never used up. *)
Lemma ReadFlightList_loop_returns (fuel : nat) :
  forall (i : Z) (flight_list : RecordedFlightList) (w : World),
    (List.length (replies w) < fuel)%nat ->
    exists result events w',
      ReadFlightList_loop fuel i flight_list w = Some (result, events, w') /\
      quiet_after_cancel events = true.
Proof.
  induction fuel as [| fuel IH]; intros i flight_list w Hfuel; [lia |].
  rewrite ReadFlightList_loop_cases.
  destruct (full flight_list); [do 3 eexists; split; reflexivity |].
  destruct (SelectFlight_returns i w)
    as (ack & ev1 & w1 & E1 & Hle & Hack & _ & _ & _ & _ & _ & _ & _ & Hq1
        & Hp1 & _).
  rewrite E1. cbv zeta.
  destruct (MessageType_eqb ack MT_NACK).
  { do 3 eexists; split; [reflexivity |]. exact Hq1. }
  destruct (negb (MessageType_eqb ack MT_ACK)) eqn:Enack.
  { do 3 eexists; split; [reflexivity |]. exact Hq1. }
  assert (ack = MT_ACK) by (destruct ack; try discriminate; reflexivity).
  specialize (Hack H).
  destruct (cancel w1 (polls w1)).
  { do 3 eexists; split; [reflexivity |].
    cbn [quiet_after_cancel]. rewrite quiet_after_cancel_app by exact Hp1.
    reflexivity. }
  destruct (ReadFlightInfo_returns (set_flarm indeterminate_flight i)
                                   (polled w1))
    as ([ok flight_info] & ev2 & w2 & E2 & Hle2 & _ & _ & _ & _ & _ & Hq2
        & Hp2 & _).
  rewrite E2. cbn [replies polled with_polls] in Hle2.
  destruct (IH (wrap 8 (i + 1))
               (if ok then flight_list ++ [flight_info] else flight_list)
               w2 ltac:(lia))
    as (result & ev3 & w3 & E3 & Hq3).
  rewrite E3. do 3 eexists; split; [reflexivity |].
  cbn [quiet_after_cancel]. rewrite quiet_after_cancel_app by exact Hp1.
  cbn [quiet_after_cancel]. rewrite quiet_after_cancel_app by exact Hp2.
  exact Hq3.
Qed.

Lemma byte_value_uint8 (x : Z) : byte_value (uint8_byte x) = wrap 8 x.
Proof.
  unfold byte_value, uint8_byte.
  rewrite (Byte.to_of_N _ (eq_sym (byte_of_ascii_via_N _))).
  assert (B : 0 <= wrap 8 x < 256) by (apply Z.mod_pos_bound; reflexivity).
  rewrite N_ascii_embedding by lia. lia.
Qed.

Lemma ReadFlightList_loop_counter (fuel : nat) :
  forall (i : Z) (flight_list : RecordedFlightList) (w : World)
         result events w',
    0 <= i < 256 ->
    ReadFlightList_loop fuel i flight_list w = Some (result, events, w') ->
    map byte_value (selected events) =
    map (fun k => (i + Z.of_nat k) mod 256)
        (seq 0 (List.length (selected events))).
Proof.
  induction fuel as [| fuel IH]; intros i flight_list w result events w' Hi;
    [discriminate |].
  rewrite ReadFlightList_loop_cases.
  destruct (full flight_list); [intros [= <- <- <-]; reflexivity |].
  destruct (SelectFlight_returns i w)
    as (ack & ev1 & w1 & E1 & _ & _ & _ & _ & _ & _ & _ & _ & _ & _
        & _ & Hreq & Hreq_ack).
  rewrite E1. cbv zeta.
  assert (Hsel1 : selected ev1 = [] \/ selected ev1 = [uint8_byte i])
    by (unfold selected; destruct Hreq as [-> | ->]; [left | right];
        reflexivity).
  assert (Hsel1_ack : ack = MT_ACK -> selected ev1 = [uint8_byte i])
    by (intros Hack; unfold selected; rewrite (Hreq_ack Hack); reflexivity).
  assert (Hfirst : byte_value (uint8_byte i) = (i + 0) mod 256)
    by (rewrite byte_value_uint8; unfold wrap; f_equal; lia).
  assert (Hlocal : forall tail,
            selected tail = [] ->
            map byte_value
                (selected (ProgressPosition (i mod 10) :: ev1 ++ tail)) =
            map (fun k => (i + Z.of_nat k) mod 256)
                (seq 0 (List.length
                   (selected (ProgressPosition (i mod 10) :: ev1 ++ tail))))).
  { intros tail Htail.
    change (ProgressPosition (i mod 10) :: ev1 ++ tail)
      with ([ProgressPosition (i mod 10)] ++ ev1 ++ tail).
    rewrite !selected_app, Htail.
    change (selected [ProgressPosition (i mod 10)]) with (@nil byte).
    destruct Hsel1 as [-> | ->]; [reflexivity |].
    cbn. rewrite Hfirst. reflexivity. }
  destruct (MessageType_eqb ack MT_NACK).
  { intros [= <- <- <-]. rewrite <- (app_nil_r ev1). now apply Hlocal. }
  destruct (negb (MessageType_eqb ack MT_ACK)) eqn:Enack.
  { intros [= <- <- <-]. rewrite <- (app_nil_r ev1). now apply Hlocal. }
  assert (Hack : ack = MT_ACK) by (destruct ack; try discriminate; reflexivity).
  destruct (cancel w1 (polls w1)).
  { intros [= <- <- <-]. now apply Hlocal. }
  destruct (ReadFlightInfo_returns (set_flarm indeterminate_flight i)
                                   (polled w1))
    as ([ok flight_info] & ev2 & w2 & E2 & _ & _ & _ & _ & _ & _ & _
        & _ & Hsel2).
  rewrite E2.
  destruct (ReadFlightList_loop fuel (wrap 8 (i + 1))
              (if ok then flight_list ++ [flight_info] else flight_list) w2)
    as [[[result3 ev3] w3] |] eqn:E3; [| discriminate].
  intros [= <- <- <-].
  assert (Hnext : 0 <= wrap 8 (i + 1) < 256)
    by (apply Z.mod_pos_bound; reflexivity).
  pose proof (IH _ _ _ _ _ _ Hnext E3) as Hrest.
  change (ProgressPosition (i mod 10)
            :: ev1 ++ IsCancelledPoll false :: ev2 ++ ev3)
    with ([ProgressPosition (i mod 10)] ++ ev1 ++
          [IsCancelledPoll false] ++ ev2 ++ ev3).
  rewrite !selected_app, Hsel2, (Hsel1_ack Hack).
  change (selected [ProgressPosition (i mod 10)]) with (@nil byte).
  change (selected [IsCancelledPoll false]) with (@nil byte).
  cbn [app map List.length seq]. rewrite Hfirst.
  rewrite <- seq_shift, map_map, Hrest.
  f_equal.
  apply map_ext. intros k. unfold wrap.
  rewrite Zplus_mod_idemp_l. f_equal. lia.
Qed.

(** With the port open, [ReadFlightInfo] succeeds exactly on a readable
    reply. *)
Lemma ReadFlightInfo_readable (i : Z) (w : World) :
  port w (sends w) = true -> port w (S (sends w)) = true ->
  exists ok flight_info events,
    ReadFlightInfo (set_flarm indeterminate_flight i) w =
      Some ((ok, flight_info), events, received (sent w 2)) /\
    readable i (next_reply w) = (if ok then Some flight_info else None).
Proof.
  intros P0 P1. rewrite ReadFlightInfo_cases. cbv zeta. rewrite P0, P1.
  cbn [negb]. unfold readable.
  destruct (next_reply w) as [type data]. cbn [fst snd].
  destruct (negb (MessageType_eqb type MT_ACK)
            || (Z.of_nat (List.length data) <=? 2)).
  - do 3 eexists. split; reflexivity.
  - unfold parsed.
    destruct (ParseRecordInfo (c_str (skipn 2 data))
                              (set_flarm indeterminate_flight i))
      as [ok flight_info].
    do 3 eexists. split; reflexivity.
Qed.

Lemma ReadFlightList_loop_catalog (catalog : list (list byte * Reply)) :
  forall (fuel : nat) (i : Z) (flight_list : RecordedFlightList) (w : World)
         (nack_payload : list byte) (rest : list Reply),
    (List.length catalog < fuel)%nat ->
    undisturbed w ->
    replies w = catalog_replies catalog nack_payload ++ rest ->
    (List.length flight_list + List.length (collected i catalog)
     < list_capacity)%nat ->
    exists events w',
      ReadFlightList_loop fuel i flight_list w =
        Some ((true, flight_list ++ collected i catalog), events, w') /\
      replies w' = rest.
Proof.
  induction catalog as [| [payload reply] catalog IH];
    intros fuel i flight_list w nack_payload rest Hfuel [Hport Hcancel]
           Hreplies Hroom;
    (destruct fuel as [| fuel]; [cbn in Hfuel; lia |]);
    rewrite ReadFlightList_loop_cases;
    (assert (Hfull : full flight_list = false)
       by (unfold full; apply Nat.leb_gt; lia));
    rewrite Hfull, SelectFlight_cases; cbv zeta; rewrite !Hport;
    cbn [negb]; unfold next_reply; rewrite Hreplies.
  - cbn. rewrite app_nil_r. do 2 eexists. split; [reflexivity |].
    cbn. rewrite Hreplies. reflexivity.
  - cbn [catalog_replies flat_map app hd fst snd MessageType_eqb negb].
    cbn [cancel received sent with_replies with_sends polls].
    rewrite Hcancel.
    destruct (ReadFlightInfo_readable i (polled (received (sent w 3))))
      as (ok & flight_info & info_events & E & Hreadable);
      [apply Hport | apply Hport |].
    rewrite E.
    unfold next_reply in Hreadable.
    cbn [replies polled received sent with_polls with_replies with_sends]
      in Hreadable.
    rewrite Hreplies in Hreadable.
    cbn [catalog_replies flat_map app hd tl fst snd] in Hreadable.
    cbn [collected] in Hroom |- *. rewrite Hreadable in Hroom |- *.
    destruct (IH fuel (wrap 8 (i + 1))
                 (if ok then flight_list ++ [flight_info] else flight_list)
                 (received (sent (polled (received (sent w 3))) 2))
                 nack_payload rest)
      as (events & w' & Eloop & Hrest).
    + cbn in Hfuel. lia.
    + split; [exact Hport | exact Hcancel].
    + cbn. rewrite Hreplies. reflexivity.
    + destruct ok; [rewrite length_app; cbn in Hroom |- *; lia | exact Hroom].
    + rewrite Eloop. do 2 eexists. split; [| exact Hrest].
      destruct ok; [rewrite <- app_assoc |]; reflexivity.
Qed.

Lemma collected_length (catalog : list (list byte * Reply)) :
  forall i, (List.length (collected i catalog) <= List.length catalog)%nat.
Proof.
  induction catalog as [| [payload reply] catalog IH]; intros i; cbn;
    [lia |].
  specialize (IH (wrap 8 (i + 1))).
  destruct (readable i reply); cbn; lia.
Qed.

Lemma collected_all_readable (catalog : list (list byte * Reply)) :
  forall i,
    (forall j reply, In reply (map snd catalog) -> readable j reply <> None) ->
    List.length (collected i catalog) = List.length catalog.
Proof.
  induction catalog as [| [payload reply] catalog IH]; intros i Hall; cbn;
    [reflexivity |].
  destruct (readable i reply) eqn:E.
  - cbn. f_equal. apply IH. intros j other Hin. apply Hall. now right.
  - exfalso. apply (Hall i reply); [now left | exact E].
Qed.

Lemma ReadFlightList_unfold (flight_list : RecordedFlightList) (w : World) :
  ReadFlightList flight_list w =
  match ReadFlightList_loop (S (List.length (replies w))) 0 flight_list w with
  | None => None
  | Some (result, events, w') => Some (result, ProgressRange 10 :: events, w')
  end.
Proof. reflexivity. Qed.

(** [ReadFlightList] returns, and no exchange follows a poll that found
    the operation cancelled. *)
Lemma ReadFlightList_returns (flight_list : RecordedFlightList) (w : World) :
  exists result events w',
    ReadFlightList flight_list w = Some (result, events, w') /\
    quiet_after_cancel events = true.
Proof.
  rewrite ReadFlightList_unfold.
  destruct (ReadFlightList_loop_returns (S (List.length (replies w))) 0
              flight_list w (Nat.lt_succ_diag_r _))
    as (result & events & w' & E & Hq).
  rewrite E. do 3 eexists. split; [reflexivity | exact Hq].
Qed.

(** C5, amended.  When the device acknowledges the SELECT of the first
    n records and refuses the next, nobody cancels, the metadata
    replies are terminated and the list has room, [ReadFlightList]
    stops at that NACK and reports success; the list has grown by the
    records whose metadata could be read, so by at most n, and by n
    when every record was readable. *)
Theorem ReadFlightList_stops_at_NACK (catalog : list (list byte * Reply))
    (nack_payload : list byte) (rest : list Reply)
    (flight_list : RecordedFlightList) (w : World) :
  undisturbed w ->
  replies w = catalog_replies catalog nack_payload ++ rest ->
  well_terminated catalog = true ->
  (List.length flight_list + List.length (collected 0 catalog)
   < list_capacity)%nat ->
  exists events w',
    ReadFlightList flight_list w =
      Some ((true, flight_list ++ collected 0 catalog), events, w') /\
    replies w' = rest /\
    (List.length (collected 0 catalog) <= List.length catalog)%nat /\
    ((forall j reply, In reply (map snd catalog) -> readable j reply <> None) ->
     List.length (flight_list ++ collected 0 catalog) =
     (List.length flight_list + List.length catalog)%nat).
Proof.
  intros Hw Hreplies _ Hroom. rewrite ReadFlightList_unfold.
  destruct (ReadFlightList_loop_catalog catalog (S (List.length (replies w)))
              0 flight_list w nack_payload rest)
    as (events & w' & E & Hrest); try assumption.
  { rewrite Hreplies, length_app. unfold catalog_replies.
    rewrite length_app.
    assert (L : forall c : list (list byte * Reply),
              List.length (flat_map (fun entry => [(MT_ACK, fst entry);
                                                  snd entry]) c)
              = (2 * List.length c)%nat)
      by (induction c as [| e c IHc]; cbn in *; [reflexivity | lia]).
    rewrite L. cbn. lia. }
  rewrite E. do 2 eexists. split; [reflexivity |].
  split; [exact Hrest |]. split; [apply collected_length |].
  intros Hall. rewrite length_app, collected_all_readable by exact Hall.
  reflexivity.
Qed.

(** C7.  After an acknowledged SELECT and with no cancellation, a
    [ReadFlightInfo] that fails does not end the loop: it goes on at
    the next index with the list as it was.  With the port open,
    [ReadFlightInfo] fails on every terminated reply that is not
    readable: not an ACK, too short, or a line that does not parse. *)
Theorem ReadFlightList_skips_unreadable :
  (forall (fuel : nat) (i : Z) (flight_list : RecordedFlightList)
          (w w1 w2 : World) (select_events info_events : list Event)
          (flight_info : RecordedFlightInfo),
     full flight_list = false ->
     SelectFlight i w = Some (MT_ACK, select_events, w1) ->
     cancel w1 (polls w1) = false ->
     ReadFlightInfo (set_flarm indeterminate_flight i) (polled w1) =
       Some ((false, flight_info), info_events, w2) ->
     ReadFlightList_loop (S fuel) i flight_list w =
     match ReadFlightList_loop fuel (wrap 8 (i + 1)) flight_list w2 with
     | None => None
     | Some (result, events, w3) =>
         Some (result,
               ProgressPosition (i mod 10) :: select_events ++
                 IsCancelledPoll false :: info_events ++ events, w3)
     end) /\
  (forall (i : Z) (w : World),
     port w (sends w) = true -> port w (S (sends w)) = true ->
     terminated (next_reply w) = true ->
     readable i (next_reply w) = None ->
     exists flight_info events,
       ReadFlightInfo (set_flarm indeterminate_flight i) w =
         Some ((false, flight_info), events, received (sent w 2))).
Proof.
  split.
  - intros fuel i flight_list w w1 w2 select_events info_events flight_info
           Hfull Hselect Hcancel Hinfo.
    rewrite ReadFlightList_loop_cases, Hfull, Hselect. cbv zeta.
    cbn [MessageType_eqb negb]. rewrite Hcancel, Hinfo. reflexivity.
  - intros i w P0 P1 _ Hunreadable.
    destruct (ReadFlightInfo_readable i w P0 P1)
      as (ok & flight_info & events & E & Hreadable).
    rewrite Hunreadable in Hreadable.
    destruct ok; [discriminate |].
    exists flight_info, events. exact E.
Qed.

End Catalog.

(** ** The download *)

(** One turn of the download loop. *)
Lemma DownloadFlight_loop_cases (fuel : nat) (w : World) :
  DownloadFlight_loop (S fuel) w =
  let h := Header (PrepareFrameHeader MT_GETIGCDATA []) 1000 in
  let data := snd (next_reply w) in
  let length := Z.of_nat (List.length data) in
  let is_last_packet := Byte.eqb (last data x00) x1a in
  let igc := firstn (Z.to_nat (if is_last_packet then length - 3 - 1
                               else length - 3)) (skipn 3 data) in
  let w1 := received (polled (sent w 2)) in
  let w2 := with_file (polled w1)
              (option_map (fun old => old ++ igc) (file w)) in
  let turn := [StartByte; h; IsCancelledPoll false; Wait 3000;
               IsCancelledPoll false;
               ProgressPosition (Z.min (byte_value (nth 2 data x00)) 100);
               WriteData igc] in
  if negb (port w (sends w)) then Some (false, [StartByte], sent w 1) else
  if negb (port w (S (sends w))) then Some (false, [StartByte; h], sent w 2)
  else
  if cancel w (polls w) then
    Some (false, [StartByte; h; IsCancelledPoll true], polled (sent w 2))
  else
  if negb (MessageType_eqb (fst (next_reply w)) MT_ACK) || (length <=? 3) then
    Some (false, [StartByte; h; IsCancelledPoll false; Wait 3000], w1)
  else
  if cancel w (S (polls w)) then
    Some (false, [StartByte; h; IsCancelledPoll false; Wait 3000;
                  IsCancelledPoll true], polled w1)
  else
  if is_last_packet then Some (true, turn, w2) else
  match DownloadFlight_loop fuel w2 with
  | None => None
  | Some (result, events, w3) => Some (result, turn ++ events, w3)
  end.
Proof.
  cbn [DownloadFlight_loop].
  unfold bind, SendStartByte, SendFrameHeader, transmit, IsCancelled,
    WaitForACKOrNACK, SetProgressPosition, Write, ret, next_reply, received,
    polled, sent.
  cbn.
  destruct (port w (sends w)); cbn; [| reflexivity].
  destruct (port w (S (sends w))); cbn; [| reflexivity].
  destruct (cancel w (polls w)); cbn; [reflexivity |].
  destruct (replies w) as [| [type data] rest]; cbn; [reflexivity |].
  destruct (negb (MessageType_eqb type MT_ACK)
            || (Z.of_nat (List.length data) <=? 3));
    cbn; [reflexivity |].
  destruct (cancel w (S (polls w))); cbn; [reflexivity |].
  destruct (Byte.eqb (last data x00) x1a); cbn; [reflexivity |].
  unfold with_file, with_polls, with_replies, with_sends.
  cbn [replies port sends cancel polls can_open file].
  match goal with
  | |- context [DownloadFlight_loop fuel ?w2] =>
      destruct (DownloadFlight_loop fuel w2) as [[[result events] w3] |]
  end; reflexivity.
Qed.

Lemma quiet_after_cancel_snoc (events : list Event) (e : Event) :
  is_exchange e = false ->
  quiet_after_cancel events = true ->
  quiet_after_cancel (events ++ [e]) = true.
Proof.
  intros He. induction events as [| x events IH]; intros H.
  - destruct e; try discriminate; try reflexivity.
    destruct answer; reflexivity.
  - destruct x; cbn in *; auto.
    destruct answer; auto.
    rewrite forallb_app, H. cbn. now rewrite He.
Qed.

(** The download loop returns: a turn that goes on has taken a reply. *)
Lemma DownloadFlight_loop_returns (fuel : nat) :
  forall w : World,
    (List.length (replies w) < fuel)%nat ->
    exists result events w',
      DownloadFlight_loop fuel w = Some (result, events, w') /\
      quiet_after_cancel events = true.
Proof.
  induction fuel as [| fuel IH]; intros w Hfuel; [lia |].
  rewrite DownloadFlight_loop_cases. cbv zeta.
  destruct (negb (port w (sends w)));
    [do 3 eexists; split; reflexivity |].
  destruct (negb (port w (S (sends w))));
    [do 3 eexists; split; reflexivity |].
  destruct (cancel w (polls w));
    [do 3 eexists; split; reflexivity |].
  destruct (negb (MessageType_eqb (fst (next_reply w)) MT_ACK)
            || (Z.of_nat (List.length (snd (next_reply w))) <=? 3)) eqn:Ebad;
    [do 3 eexists; split; reflexivity |].
  destruct (cancel w (S (polls w)));
    [do 3 eexists; split; reflexivity |].
  destruct (Byte.eqb (last (snd (next_reply w)) x00) x1a);
    [do 3 eexists; split; reflexivity |].
  match goal with
  | |- context [DownloadFlight_loop fuel ?w2] =>
      destruct (IH w2) as (result & events & w3 & E & Hq)
  end.
  - cbn [replies with_file polled received sent with_polls with_replies
         with_sends].
    unfold next_reply in Ebad.
    destruct (replies w) as [| reply rest]; [discriminate Ebad |].
    cbn in Hfuel |- *. lia.
  - rewrite E. do 3 eexists. split; [reflexivity |]. exact Hq.
Qed.

Lemma DownloadFlight_path_cases (w : World) :
  DownloadFlight_path w =
  if can_open w then
    let opened := with_file w (Some []) in
    if cancel w (polls w) then
      Some (false, [Open true; IsCancelledPoll true], polled opened)
    else
      match DownloadFlight_loop (S (List.length (replies w))) (polled opened)
      with
      | None => None
      | Some (result, events, w') =>
          Some (result,
                Open true :: IsCancelledPoll false :: ProgressRange 100
                  :: events, w')
      end
  else Some (false, [Open false], w).
Proof.
  unfold DownloadFlight_path, bind, BinaryWriter, IsCancelled,
    SetProgressRange, ret, polled.
  destruct (can_open w); [| reflexivity]. cbn -[DownloadFlight_loop].
  destruct (cancel w (polls w)); [reflexivity |]. cbn -[DownloadFlight_loop].
  match goal with
  | |- context [DownloadFlight_loop ?n ?w2] =>
      destruct (DownloadFlight_loop n w2) as [[[result events] w3] |]
  end; reflexivity.
Qed.

Lemma DownloadFlight_path_returns (w : World) :
  exists result events w',
    DownloadFlight_path w = Some (result, events, w') /\
    quiet_after_cancel events = true.
Proof.
  rewrite DownloadFlight_path_cases.
  destruct (can_open w); [| do 3 eexists; split; reflexivity].
  cbv zeta.
  destruct (cancel w (polls w)); [do 3 eexists; split; reflexivity |].
  destruct (DownloadFlight_loop_returns (S (List.length (replies w)))
              (polled (with_file w (Some []))) (Nat.lt_succ_diag_r _))
    as (result & events & w' & E & Hq).
  rewrite E. do 3 eexists. split; [reflexivity | exact Hq].
Qed.

Lemma DownloadFlight_cases (flight : RecordedFlightInfo) (w : World) :
  DownloadFlight flight w =
  match SelectFlight (flarm flight) w with
  | None => None
  | Some (ack_result, select_events, w1) =>
      if negb (MessageType_eqb ack_result MT_ACK) then
        Some (false, select_events, w1)
      else if cancel w1 (polls w1) then
        Some (false, select_events ++ [IsCancelledPoll true], polled w1)
      else
        match DownloadFlight_path (polled w1) with
        | None => None
        | Some (true, events, w2) =>
            Some (true, select_events ++ IsCancelledPoll false :: events, w2)
        | Some (false, events, w2) =>
            Some (false,
                  select_events ++ IsCancelledPoll false :: events ++ [Delete],
                  with_file w2 None)
        end
  end.
Proof.
  unfold DownloadFlight. unfold bind at 1.
  destruct (SelectFlight (flarm flight) w)
    as [[[ack_result select_events] w1] |]; [| reflexivity].
  destruct (negb (MessageType_eqb ack_result MT_ACK));
    [unfold ret; cbn; rewrite app_nil_r; reflexivity |].
  unfold bind at 1. unfold IsCancelled at 1. cbv zeta.
  destruct (cancel w1 (polls w1)); [reflexivity |].
  unfold bind at 1. fold (polled w1).
  destruct (DownloadFlight_path (polled w1)) as [[[[|] events] w2] |];
    [| | reflexivity].
  - unfold ret. cbn. rewrite app_nil_r. reflexivity.
  - unfold bind, File_Delete, ret. cbn. reflexivity.
Qed.

Lemma firstn_whole (data : list byte) :
  firstn (Z.to_nat (Z.of_nat (List.length data) - 3)) (skipn 3 data) =
  skipn 3 data.
Proof. apply firstn_all2. rewrite length_skipn. lia. Qed.

Lemma firstn_but_last (data : list byte) :
  firstn (Z.to_nat (Z.of_nat (List.length data) - 3 - 1)) (skipn 3 data) =
  removelast (skipn 3 data).
Proof. rewrite removelast_firstn_len, length_skipn. f_equal. lia. Qed.

Lemma sentinel_put_back (final : list byte) :
  (3 < List.length final)%nat -> last final x00 = x1a ->
  removelast (skipn 3 final) ++ [x1a] = skipn 3 final.
Proof.
  intros Hlen Hlast.
  destruct final as [| a [| b [| c [| d tail]]]]; cbn in Hlen; try lia.
  change (last (a :: b :: c :: d :: tail) x00) with (last (d :: tail) x00)
    in Hlast.
  change (skipn 3 (a :: b :: c :: d :: tail)) with (d :: tail).
  rewrite <- Hlast. symmetry. apply app_removelast_last. discriminate.
Qed.

Lemma writes_app (a b : list Event) : writes (a ++ b) = writes a ++ writes b.
Proof. unfold writes. apply flat_map_app. Qed.

Lemma DownloadFlight_loop_chunks (chunks : list (list byte)) :
  forall (fuel : nat) (w : World) (final : list byte) (rest : list Reply)
         (content : list byte),
    (List.length chunks < fuel)%nat ->
    undisturbed w ->
    replies w = map (pair MT_ACK) chunks ++ (MT_ACK, final) :: rest ->
    file w = Some content ->
    Forall (fun c => (3 < List.length c)%nat /\ last c x00 <> x1a) chunks ->
    (3 < List.length final)%nat -> last final x00 = x1a ->
    exists events w',
      DownloadFlight_loop fuel w = Some (true, events, w') /\
      writes events = map (skipn 3) chunks ++ [removelast (skipn 3 final)] /\
      file w' = Some (content ++ concat (writes events)) /\
      replies w' = rest.
Proof.
  induction chunks as [| chunk chunks IH];
    intros fuel w final rest content Hfuel [Hport Hcancel] Hreplies Hfile
           Hchunks Hlen Hlast;
    (destruct fuel as [| fuel]; [cbn in Hfuel; lia |]);
    rewrite DownloadFlight_loop_cases; cbv zeta;
    rewrite !Hport, !Hcancel; unfold next_reply; rewrite Hreplies;
    cbn [map app hd fst snd negb MessageType_eqb orb].
  - destruct (Z.leb_spec (Z.of_nat (List.length final)) 3) as [Hle | _];
      [lia |].
    rewrite Hlast. cbn [Byte.eqb]. change (Byte.eqb x1a x1a) with true.
    cbv iota. rewrite firstn_but_last, Hfile.
    do 2 eexists. split; [reflexivity |].
    split; [reflexivity |]. split.
    + cbn. rewrite app_nil_r. reflexivity.
    + cbn. rewrite Hreplies. reflexivity.
  - inversion Hchunks as [| c cs [Hclen Hclast] Hrest]; subst c cs.
    destruct (Z.leb_spec (Z.of_nat (List.length chunk)) 3) as [Hle | _];
      [lia |].
    destruct (Byte.eqb (last chunk x00) x1a) eqn:Esentinel;
      [apply Byte.byte_dec_bl in Esentinel; contradiction |].
    rewrite firstn_whole, Hfile. cbn [option_map].
    match goal with
    | |- context [DownloadFlight_loop fuel ?w2] =>
        destruct (IH fuel w2 final rest (content ++ skipn 3 chunk))
          as (events & w' & E & Hwrites & Hfile' & Hrest')
    end; try assumption.
    + cbn in Hfuel. lia.
    + split; [exact Hport | exact Hcancel].
    + cbn. rewrite Hreplies. reflexivity.
    + reflexivity.
    + rewrite E. do 2 eexists. split; [reflexivity |].
      cbn [writes flat_map app]. fold (writes events).
      rewrite Hwrites. split; [reflexivity |].
      split; [| exact Hrest'].
      rewrite Hfile', Hwrites. cbn [concat map app].
      rewrite <- app_assoc. reflexivity.
Qed.

Lemma written_length (chunks : list (list byte)) (final : list byte) :
  Forall (fun c => (3 < List.length c)%nat /\ last c x00 <> x1a) chunks ->
  (3 < List.length final)%nat ->
  Z.of_nat (List.length
              (concat (map (skipn 3) chunks ++ [removelast (skipn 3 final)])))
  = fold_right Z.add 0
      (map (fun c => Z.of_nat (List.length c) - 3) (chunks ++ [final])) - 1.
Proof.
  intros Hchunks Hlen.
  induction Hchunks as [| chunk chunks [Hclen _] _ IH]; cbn [map app concat].
  - rewrite app_nil_r. rewrite removelast_firstn_len, length_firstn,
      length_skipn. cbn [fold_right]. lia.
  - rewrite length_app, Nat2Z.inj_add, IH, length_skipn.
    cbn [fold_right]. lia.
Qed.

(** C1, amended.  With the port open, the destination opened and
    nobody cancelling, a device that answers each GETIGCDATA with an
    ACK of more than 3 bytes, the last of them ending in the sentinel
    0x1A, makes [DownloadFlight] succeed:
    every chunk is written from offset 3 on, the final one without its
    last byte; so the sink holds, sentinel put back, the data of all
    chunks, and its length is the sum of (payload length - 3) less 1. *)
Theorem DownloadFlight_writes_all_but_sentinel (w : World)
    (chunks : list (list byte)) (final : list byte) (rest : list Reply) :
  undisturbed w ->
  can_open w = true ->
  replies w = map (pair MT_ACK) chunks ++ (MT_ACK, final) :: rest ->
  Forall (fun c => (3 < List.length c)%nat /\ last c x00 <> x1a) chunks ->
  (3 < List.length final)%nat ->
  last final x00 = x1a ->
  exists events w',
    DownloadFlight_path w = Some (true, events, w') /\
    writes events = map (skipn 3) chunks ++ [removelast (skipn 3 final)] /\
    file w' = Some (concat (writes events)) /\
    concat (writes events) ++ [x1a] =
      concat (map (skipn 3) (chunks ++ [final])) /\
    Z.of_nat (List.length (concat (writes events))) =
      fold_right Z.add 0
        (map (fun c => Z.of_nat (List.length c) - 3) (chunks ++ [final])) - 1 /\
    replies w' = rest.
Proof.
  intros [Hport Hcancel] Hopen Hreplies Hchunks Hlen Hlast.
  rewrite DownloadFlight_path_cases, Hopen. cbv zeta. rewrite Hcancel.
  destruct (DownloadFlight_loop_chunks chunks (S (List.length (replies w)))
              (polled (with_file w (Some []))) final rest [])
    as (events & w' & E & Hwrites & Hfile & Hrest); try assumption.
  - rewrite Hreplies, length_app, length_map. lia.
  - split; [exact Hport | exact Hcancel].
  - reflexivity.
  - rewrite E. do 2 eexists. split; [reflexivity |].
    change (writes (Open true :: IsCancelledPoll false :: ProgressRange 100
                      :: events)) with (writes events).
    split; [exact Hwrites |]. split; [exact Hfile |].
    rewrite Hwrites. split; [| split; [| exact Hrest]].
    + rewrite map_app, !concat_app. cbn [map concat].
      rewrite !app_nil_r, <- app_assoc.
      now rewrite sentinel_put_back.
    + now apply written_length.
Qed.

(** The other way round, in any world: a download that succeeds has
    taken chunks of that shape and written exactly that. *)
Lemma DownloadFlight_loop_success (fuel : nat) :
  forall (w w' : World) (events : list Event),
    DownloadFlight_loop fuel w = Some (true, events, w') ->
    exists (chunks : list (list byte)) (final : list byte),
      replies w = map (pair MT_ACK) chunks ++ (MT_ACK, final) :: replies w' /\
      Forall (fun c => (3 < List.length c)%nat /\ last c x00 <> x1a) chunks /\
      (3 < List.length final)%nat /\ last final x00 = x1a /\
      writes events = map (skipn 3) chunks ++ [removelast (skipn 3 final)] /\
      file w' = option_map (fun old => old ++ concat (writes events)) (file w).
Proof.
  induction fuel as [| fuel IH]; intros w w' events; [discriminate |].
  rewrite DownloadFlight_loop_cases. cbv zeta.
  destruct (negb (port w (sends w))); [discriminate |].
  destruct (negb (port w (S (sends w)))); [discriminate |].
  destruct (cancel w (polls w)); [discriminate |].
  unfold next_reply.
  destruct (replies w) as [| [type data] rest] eqn:Hreplies;
    [discriminate |].
  cbn [hd fst snd].
  destruct (MessageType_eqb type MT_ACK) eqn:Etype; [| discriminate].
  assert (type = MT_ACK) by (destruct type; try discriminate; reflexivity).
  subst type. cbn [negb orb].
  destruct (Z.leb_spec (Z.of_nat (List.length data)) 3) as [| Hlen];
    [discriminate |].
  destruct (cancel w (S (polls w))); [discriminate |].
  destruct (Byte.eqb (last data x00) x1a) eqn:Esentinel.
  - intros [= <- <-]. exists [], data.
    apply Byte.byte_dec_bl in Esentinel.
    rewrite firstn_but_last.
    cbn [replies received polled sent with_file with_polls with_replies
         with_sends file map app].
    rewrite Hreplies. cbn [tl].
    split; [reflexivity |]. split; [constructor |].
    split; [lia |]. split; [exact Esentinel |]. split; [reflexivity |].
    cbn. rewrite app_nil_r. reflexivity.
  - rewrite firstn_whole.
    match goal with
    | |- context [DownloadFlight_loop fuel ?w2] =>
        destruct (DownloadFlight_loop fuel w2)
          as [[[result tail_events] w3] |] eqn:E; [| discriminate];
        specialize (IH w2 w3 tail_events)
    end.
    intros [= -> <- ->]. 
    destruct (IH E) as (chunks & final & Hrest & Hchunks & Hflen & Hflast
                        & Hwrites & Hfile).
    cbn [replies received polled sent with_file with_polls with_replies
         with_sends file] in Hrest, Hfile.
    rewrite Hreplies in Hrest. cbn [tl] in Hrest.
    exists (data :: chunks), final.
    split; [cbn [map app]; rewrite Hrest; reflexivity |].
    split.
    { constructor; [| exact Hchunks]. split; [lia |].
      intros Heq. rewrite Heq in Esentinel. discriminate. }
    split; [exact Hflen |]. split; [exact Hflast |].
    cbn [writes flat_map app]. fold (writes tail_events).
    rewrite Hwrites. split; [reflexivity |].
    rewrite Hfile, Hwrites. destruct (file w) as [old |]; [| reflexivity].
    cbn [option_map concat map app]. rewrite <- app_assoc. reflexivity.
Qed.

Lemma DownloadFlight_path_success (w w' : World) (events : list Event) :
  DownloadFlight_path w = Some (true, events, w') ->
  exists (chunks : list (list byte)) (final : list byte),
    replies w = map (pair MT_ACK) chunks ++ (MT_ACK, final) :: replies w' /\
    Forall (fun c => (3 < List.length c)%nat /\ last c x00 <> x1a) chunks /\
    (3 < List.length final)%nat /\ last final x00 = x1a /\
    writes events = map (skipn 3) chunks ++ [removelast (skipn 3 final)] /\
    file w' = Some (concat (writes events)).
Proof.
  rewrite DownloadFlight_path_cases.
  destruct (can_open w); [| discriminate]. cbv zeta.
  destruct (cancel w (polls w)); [discriminate |].
  destruct (DownloadFlight_loop (S (List.length (replies w)))
              (polled (with_file w (Some []))))
    as [[[result loop_events] w3] |] eqn:E; [| discriminate].
  intros [= -> <- ->].
  destruct (DownloadFlight_loop_success _ _ _ _ E)
    as (chunks & final & Hreplies & Hchunks & Hlen & Hlast & Hwrites & Hfile).
  exists chunks, final.
  change (writes (Open true :: IsCancelledPoll false :: ProgressRange 100
                    :: loop_events)) with (writes loop_events).
  repeat split; try assumption.
Qed.

(** Only the last byte of the final chunk is held back: a byte 0x1A
    inside the data is written like any other. *)
Example DownloadFlight_writes_inner_0x1A :
  option_map (fun r => file (snd r))
    (DownloadFlight_path
       (calm [(MT_ACK, bytes "ab2" ++ [x1a] ++ bytes "x");
              (MT_ACK, bytes "ab2y" ++ [x1a])])) =
  Some (Some ([x1a] ++ bytes "xy")).
Proof. vm_compute. reflexivity. Qed.

Lemma no_opens (events : list Event) :
  forallb (fun e => negb (opens e)) events = true ->
  existsb opens events = false /\ ~ In (Open true) events.
Proof.
  intros H. split.
  - induction events as [| e events IH]; [reflexivity |].
    cbn in H |- *. apply andb_true_iff in H as [He Hrest].
    rewrite (IH Hrest). destruct (opens e); [discriminate | reflexivity].
  - intros Hin. rewrite forallb_forall in H. specialize (H _ Hin).
    discriminate.
Qed.

(** [DownloadFlight] returns, and no exchange follows a poll that found
    the operation cancelled. *)
Lemma DownloadFlight_returns (flight : RecordedFlightInfo) (w : World) :
  exists result events w',
    DownloadFlight flight w = Some (result, events, w') /\
    quiet_after_cancel events = true.
Proof.
  rewrite DownloadFlight_cases.
  destruct (SelectFlight_returns (flarm flight) w)
    as (ack & ev1 & w1 & E1 & _ & _ & _ & _ & _ & _ & _ & _ & _ & Hq1
        & Hp1 & _).
  rewrite E1.
  destruct (negb (MessageType_eqb ack MT_ACK));
    [do 3 eexists; split; [reflexivity | exact Hq1] |].
  destruct (cancel w1 (polls w1)).
  { do 3 eexists; split; [reflexivity |].
    rewrite quiet_after_cancel_app by exact Hp1. reflexivity. }
  destruct (DownloadFlight_path_returns (polled w1))
    as ([|] & ev2 & w2 & E2 & Hq2); rewrite E2;
    do 3 eexists; (split; [reflexivity |]);
    rewrite quiet_after_cancel_app by exact Hp1; cbn [quiet_after_cancel].
  - exact Hq2.
  - now apply quiet_after_cancel_snoc.
Qed.

Lemma DownloadFlight_path_cancelled_on_entry (w : World) :
  (forall n, cancel w n = true) ->
  exists events w',
    DownloadFlight_path w = Some (false, events, w') /\ requests events = [].
Proof.
  intros Hcancel. rewrite DownloadFlight_path_cases.
  destruct (can_open w); [| do 2 eexists; split; reflexivity].
  cbv zeta. rewrite Hcancel. do 2 eexists; split; reflexivity.
Qed.

(** C6.  [DownloadFlight] returns; when it returns failure after the
    destination was opened, deleting the destination is the last thing
    it did and the file is gone. *)
Theorem DownloadFlight_deletes_partial (flight : RecordedFlightInfo)
    (w : World) :
  exists result events w',
    DownloadFlight flight w = Some (result, events, w') /\
    (In (Open true) events -> result = false ->
     (exists before, events = before ++ [Delete]) /\ file w' = None).
Proof.
  rewrite DownloadFlight_cases.
  destruct (SelectFlight_returns (flarm flight) w)
    as (ack & ev1 & w1 & E1 & _ & _ & _ & _ & _ & _ & _ & _ & Hopens & _).
  destruct (no_opens _ Hopens) as [_ Hnone].
  rewrite E1.
  destruct (negb (MessageType_eqb ack MT_ACK)).
  { do 3 eexists. split; [reflexivity |]. intros Hin. contradiction. }
  destruct (cancel w1 (polls w1)).
  { do 3 eexists. split; [reflexivity |]. intros Hin.
    apply in_app_or in Hin as [Hin | [Hin | []]];
      [contradiction | discriminate]. }
  destruct (DownloadFlight_path_returns (polled w1))
    as ([|] & ev2 & w2 & E2 & _); rewrite E2;
    do 3 eexists; (split; [reflexivity |]); intros _ Hresult.
  - discriminate.
  - split; [| reflexivity].
    exists (ev1 ++ IsCancelledPoll false :: ev2).
    rewrite <- app_assoc. reflexivity.
Qed.

(** C8.  The SELECT exchange of [DownloadFlight] returns; when its
    answer is not ACK the call fails there: it has sent nothing but the
    SELECT request, opened nothing and left the file as it was. *)
Theorem DownloadFlight_needs_selection (flight : RecordedFlightInfo)
    (w : World) :
  exists ack_result events w',
    SelectFlight (flarm flight) w = Some (ack_result, events, w') /\
    (ack_result <> MT_ACK ->
     DownloadFlight flight w = Some (false, events, w') /\
     existsb opens events = false /\
     Forall (fun h => header_type h = MT_SELECTRECORD) (requests events) /\
     writes events = [] /\
     file w' = file w).
Proof.
  destruct (SelectFlight_returns (flarm flight) w)
    as (ack & ev1 & w1 & E1 & _ & _ & _ & _ & _ & _ & Hfile & _ & Hopens & _
        & Hpolls & Hreq & _).
  exists ack, ev1, w1. split; [exact E1 |]. intros Hack.
  rewrite DownloadFlight_cases, E1.
  assert (Enot : negb (MessageType_eqb ack MT_ACK) = true)
    by (destruct ack; try reflexivity; now elim Hack).
  rewrite Enot. split; [reflexivity |].
  split; [apply (no_opens _ Hopens) |].
  split; [destruct Hreq as [-> | ->]; repeat constructor |].
  split; [| exact Hfile].
  pose proof E1 as E. rewrite SelectFlight_cases in E. cbv zeta in E.
  destruct (negb (port w (sends w)));
    [injection E as _ <- _; reflexivity |].
  destruct (negb (port w (S (sends w))));
    [injection E as _ <- _; reflexivity |].
  destruct (negb (port w (S (S (sends w)))));
    injection E as _ <- _; reflexivity.
Qed.

(** ** The claims at concrete runs *)

Lemma DownloadFlight_writes_all_but_sentinel_witness :
  exists events w',
    DownloadFlight_path
      (calm [(MT_ACK, bytes "ab2hello "); (MT_ACK, bytes "ab2world" ++ [x1a])])
    = Some (true, events, w') /\
    file w' = Some (bytes "hello world").
Proof.
  destruct (DownloadFlight_writes_all_but_sentinel
              (calm [(MT_ACK, bytes "ab2hello ");
                     (MT_ACK, bytes "ab2world" ++ [x1a])])
              [bytes "ab2hello "] (bytes "ab2world" ++ [x1a]) [])
    as (events & w' & E & Hwrites & Hfile & _).
  - split; intros n; reflexivity.
  - reflexivity.
  - reflexivity.
  - constructor; [split; [cbn; lia | discriminate] | constructor].
  - cbn; lia.
  - reflexivity.
  - exists events, w'. split; [exact E |].
    rewrite Hfile, Hwrites. reflexivity.
Defined.

(** C4 as stated fails: cancelled before the first catalog request, and
    yet the SELECT request for record 0 has been sent. *)
Lemma ReadFlightList_cancelled_still_selects :
  option_map (fun r => (fst (fst r), requests (snd (fst r))))
    (@ReadFlightList xcsoar_target [] (cancelled [(MT_ACK, [])])) =
  Some ((false, []), [PrepareFrameHeader MT_SELECTRECORD [x00]]).
Proof. vm_compute. reflexivity. Qed.

(** C5 as stated fails: one SELECT is acknowledged before the NACK, its
    metadata line, terminated as it should be, does not parse, and the
    list that comes back with success is empty. *)
Lemma ReadFlightList_acknowledged_not_listed :
  exists flight_list,
    option_map (fun r => fst (fst r))
      (@ReadFlightList xcsoar_target []
         (calm [(MT_ACK, []); (MT_ACK, bytes "00no date here" ++ [x00]);
                (MT_NACK, [])])) =
    Some (true, flight_list) /\
    List.length flight_list <> 1%nat.
Proof. exists []. split; [vm_compute; reflexivity | discriminate]. Qed.

Lemma ReadFlightList_stops_at_NACK_witness :
  exists events w',
    @ReadFlightList xcsoar_target []
      (calm (catalog_replies
               [([], info_reply "2000-11-08|20:05:21|01:21:09|J.Doe|XYZ|15M");
                ([], (MT_ERROR, []))] [])) =
    Some ((true,
           [{| date := {| year := 2000; month := 11; day := 8 |};
               start_time := {| hour := 20; minute := 5; second := 21 |};
               end_time := {| hour := 21; minute := 26; second := 30 |};
               flarm := 0 |}]), events, w').
Proof.
  destruct (@ReadFlightList_stops_at_NACK xcsoar_target
              [([], info_reply "2000-11-08|20:05:21|01:21:09|J.Doe|XYZ|15M");
               ([], (MT_ERROR, []))] [] [] []
              (calm (catalog_replies
                 [([], info_reply "2000-11-08|20:05:21|01:21:09|J.Doe|XYZ|15M");
                  ([], (MT_ERROR, []))] [])))
    as (events & w' & E & _).
  - split; intros n; reflexivity.
  - reflexivity.
  - reflexivity.
  - apply Nat.ltb_lt. vm_compute. reflexivity.
  - exists events, w'. exact E.
Defined.

Lemma DownloadFlight_deletes_partial_witness :
  exists events w',
    DownloadFlight indeterminate_flight
      (calm [(MT_ACK, []); (MT_ACK, bytes "ab2hello ");
             (MT_ACK, bytes "ab2world"); (MT_ERROR, [])]) =
      Some (false, events, w') /\
    In (WriteData (bytes "hello ")) events /\
    In (WriteData (bytes "world")) events /\
    (exists before, events = before ++ [Delete]) /\
    file w' = None.
Proof.
  destruct (DownloadFlight_deletes_partial indeterminate_flight
              (calm [(MT_ACK, []); (MT_ACK, bytes "ab2hello ");
                     (MT_ACK, bytes "ab2world"); (MT_ERROR, [])]))
    as (result & events & w' & E & H).
  vm_compute in E. injection E as <- <- <-.
  do 2 eexists. split; [vm_compute; reflexivity |].
  split; [vm_compute; tauto |]. split; [vm_compute; tauto |].
  apply H; [vm_compute; tauto | reflexivity].
Defined.

Lemma ReadFlightList_skips_unreadable_witness :
  exists events w',
    @ReadFlightList_loop xcsoar_target 2 0 []
      (calm [(MT_ACK, []); (MT_NACK, []); (MT_NACK, [])]) =
      Some ((true, []), events, w') /\
    selected events = [x00; x01].
Proof.
  erewrite (proj1 (@ReadFlightList_skips_unreadable xcsoar_target) 1%nat 0 []
              (calm [(MT_ACK, []); (MT_NACK, []); (MT_NACK, [])]));
    [| reflexivity | vm_compute; reflexivity | reflexivity
     | vm_compute; reflexivity].
  do 2 eexists. split; vm_compute; reflexivity.
Defined.

Lemma DownloadFlight_needs_selection_witness :
  exists events w',
    DownloadFlight indeterminate_flight (calm [(MT_NACK, [])]) =
      Some (false, events, w') /\
    existsb opens events = false /\
    file w' = None.
Proof.
  destruct (DownloadFlight_needs_selection indeterminate_flight
              (calm [(MT_NACK, [])]))
    as (ack & events & w' & E & H).
  vm_compute in E. injection E as <- <- <-.
  destruct H as (Hfails & Hopens & _ & _ & Hfile); [discriminate |].
  do 2 eexists. split; [exact Hfails |]. split; [exact Hopens | exact Hfile].
Defined.

Lemma ReadFlightInfo_offset_two_witness :
  exists events w',
    @ReadFlightInfo xcsoar_target indeterminate_flight
      (calm [(MT_ACK,
              bytes "ab2000-11-08|20:05:21|01:21:09|J.Doe|XYZ|15M" ++ [x00])])
    = Some ((true,
             {| date := {| year := 2000; month := 11; day := 8 |};
                start_time := {| hour := 20; minute := 5; second := 21 |};
                end_time := {| hour := 21; minute := 26; second := 30 |};
                flarm := 0 |}), events, w').
Proof.
  destruct (proj1 (proj2 (@ReadFlightInfo_offset_two xcsoar_target
              indeterminate_flight
              (calm [(MT_ACK,
                      bytes "ab2000-11-08|20:05:21|01:21:09|J.Doe|XYZ|15M"
                        ++ [x00])])))
              "a"%byte "b"%byte
              (bytes "2000-11-08|20:05:21|01:21:09|J.Doe|XYZ|15M" ++ [x00]))
    as (events & w' & E); try reflexivity;
    [apply in_or_app; right; left; reflexivity |].
  exists events, w'. rewrite E. vm_compute. reflexivity.
Defined.

(** 260 records in a row whose metadata cannot be read: the list never
    fills, and after record 255 the SELECT requests carry 0, 1, 2, ... *)
Example ReadFlightList_index_wraps_run :
  option_map
    (fun r => map byte_value (skipn 254 (selected (snd (fst r)))))
    (@ReadFlightList xcsoar_target []
       (calm (concat (repeat [(MT_ACK, []); (MT_NACK, [])] 260)))) =
  Some [254; 255; 0; 1; 2; 3; 4].
Proof. vm_compute. reflexivity. Qed.

(** * Further properties of the parser *)

Lemma digit_not_space (c : ascii) : isdigit c = true -> isspace c = false.
Proof.
  unfold isdigit, isspace. intros H.
  apply andb_true_iff in H as [H1 H2].
  apply Z.leb_le in H1. apply Z.leb_le in H2.
  apply orb_false_iff. split.
  - apply Z.eqb_neq. lia.
  - apply andb_false_iff. right. apply Z.leb_gt. lia.
Qed.

Lemma digits_run (ds rest : cstring) :
  forall acc,
    forallb isdigit ds = true -> isdigit (deref rest) = false ->
    digits acc (ds ++ rest) = (fst (digits acc ds), rest).
Proof.
  induction ds as [| d ds IH]; intros acc Hds Hrest.
  - destruct rest as [| r rest]; [reflexivity |].
    cbn in Hrest |- *. rewrite Hrest. reflexivity.
  - cbn in Hds. apply andb_true_iff in Hds as [Hd Hds].
    cbn. rewrite Hd. now apply IH.
Qed.

Section NumberFacts.
Context {T : Target}.

(** [strtoul] on a run of digits: the run is the conversion, what
    follows it is [endptr]. *)
Lemma strtoul_number (ds rest : cstring) :
  number ds -> isdigit (deref rest) = false ->
  strtoul (ds ++ rest) = (ulong_value false (value ds), rest) /\
  same_ptr (ds ++ rest) rest = false.
Proof.
  intros [Hne Hds] Hrest.
  destruct ds as [| d ds]; [now elim Hne |].
  pose proof Hds as Hall. cbn in Hds. apply andb_true_iff in Hds as [Hd Hds'].
  split.
  - unfold strtoul, value.
    destruct d as [[] [] [] [] [] [] [] []]; try discriminate Hd;
      cbn -[ulong_value]; rewrite (digits_run ds rest _ Hds' Hrest);
      reflexivity.
  - unfold same_ptr. apply Nat.eqb_neq. rewrite length_app. cbn. lia.
Qed.

End NumberFacts.

Section Acceptance.
Context {T : Target}.

(** X1.  [ParseDate] takes any three runs of decimal digits joined by
    '-', whatever follows the third: no range is checked, and each
    number is stored reduced to the width of its field. *)
Theorem ParseDate_reads_any_numbers (y m d tail : cstring)
    (date : BrokenDate) :
  number y -> number m -> number d -> isdigit (deref tail) = false ->
  ParseDate (y ++ "-"%char :: m ++ "-"%char :: d ++ tail) date =
  (true, {| year := wrap year_bits (ulong_value false (value y));
            month := wrap month_bits (ulong_value false (value m));
            day := wrap day_bits (ulong_value false (value d)) |}).
Proof.
  intros Hy Hm Hd Htail. unfold ParseDate.
  destruct (strtoul_number y ("-"%char :: m ++ "-"%char :: d ++ tail) Hy
              eq_refl) as [-> ->].
  cbv beta iota zeta. cbn [deref hd tl orb negb Ascii.eqb Bool.eqb andb].
  destruct (strtoul_number m ("-"%char :: d ++ tail) Hm eq_refl) as [-> ->].
  cbv beta iota zeta. cbn [deref hd tl orb negb Ascii.eqb Bool.eqb andb].
  destruct (strtoul_number d tail Hd Htail) as [-> ->].
  reflexivity.
Qed.

(** X2.  [ParseTime] takes any three runs of decimal digits joined by
    ':', whatever follows the third: an hour of 99 or a second of 75
    is accepted, and each number is stored reduced to the width of its
    field. *)
Theorem ParseTime_reads_any_numbers (h m s tail : cstring)
    (time : BrokenTime) :
  number h -> number m -> number s -> isdigit (deref tail) = false ->
  ParseTime (h ++ ":"%char :: m ++ ":"%char :: s ++ tail) time =
  (true, {| hour := wrap hour_bits (ulong_value false (value h));
            minute := wrap minute_bits (ulong_value false (value m));
            second := wrap second_bits (ulong_value false (value s)) |}).
Proof.
  intros Hh Hm Hs Htail. unfold ParseTime.
  destruct (strtoul_number h (":"%char :: m ++ ":"%char :: s ++ tail) Hh
              eq_refl) as [-> ->].
  cbv beta iota zeta. cbn [deref hd tl orb negb Ascii.eqb Bool.eqb andb].
  destruct (strtoul_number m (":"%char :: s ++ tail) Hm eq_refl) as [-> ->].
  cbv beta iota zeta. cbn [deref hd tl orb negb Ascii.eqb Bool.eqb andb].
  destruct (strtoul_number s tail Hs Htail) as [-> ->].
  reflexivity.
Qed.

End Acceptance.

Lemma ParseDate_reads_any_numbers_witness :
  @ParseDate xcsoar_target (line "2011-13-99 and more") indeterminate_date =
  (true, {| year := 2011; month := 13; day := 99 |}).
Proof.
  refine (@ParseDate_reads_any_numbers xcsoar_target
            (line "2011") (line "13") (line "99") (line " and more")
            indeterminate_date _ _ _ _);
    try (split; [discriminate | reflexivity]); reflexivity.
Defined.

Lemma ParseTime_reads_any_numbers_witness :
  @ParseTime xcsoar_target (line "99:61:75|x") indeterminate_time =
  (true, {| hour := 99; minute := 61; second := 75 |}).
Proof.
  refine (@ParseTime_reads_any_numbers xcsoar_target
            (line "99") (line "61") (line "75") (line "|x")
            indeterminate_time _ _ _ _);
    try (split; [discriminate | reflexivity]); reflexivity.
Defined.

Lemma skip_spaces_suffix (s : cstring) : exists pre, s = pre ++ skip_spaces s.
Proof.
  induction s as [| c s [pre IH]]; [exists []; reflexivity |].
  cbn. destruct (isspace c).
  - exists (c :: pre). cbn. now rewrite <- IH.
  - exists []. reflexivity.
Qed.

Lemma digits_suffix (s : cstring) :
  forall acc, exists pre, s = pre ++ snd (digits acc s).
Proof.
  induction s as [| c s IH]; intros acc; [exists []; reflexivity |].
  cbn. destruct (isdigit c).
  - destruct (IH (acc * 10 + (code c - 48))) as [pre E].
    exists (c :: pre). cbn. now rewrite <- E.
  - exists []. reflexivity.
Qed.

Section Rejection.
Context {T : Target}.

(** [endptr] points into the string [strtoul] was given. *)
Lemma strtoul_suffix (str : cstring) :
  exists pre, str = pre ++ snd (strtoul str).
Proof.
  unfold strtoul.
  destruct (skip_spaces_suffix str) as [spaces Hspaces].
  set (s := skip_spaces str) in *.
  assert (Hsign : exists sign,
            s = sign ++ snd (match s with
                             | "-"%char :: s' => (true, s')
                             | "+"%char :: s' => (false, s')
                             | _ => (false, s)
                             end)).
  { destruct s as [| c s']; [exists []; reflexivity |].
    destruct c as [[] [] [] [] [] [] [] []];
      first [ now (exists []) | now (exists ["-"%char])
            | now (exists ["+"%char]) ]. }
  destruct Hsign as [sign Hsign].
  destruct (match s with
            | "-"%char :: s' => (true, s')
            | "+"%char :: s' => (false, s')
            | _ => (false, s)
            end) as [negative s2].
  cbn [snd] in Hsign.
  destruct (isdigit (deref s2)); [| exists []; reflexivity].
  destruct (digits_suffix s2 0) as [run Hrun].
  destruct (digits 0 s2) as [v endptr]. cbn [snd] in Hrun |- *.
  exists (spaces ++ sign ++ run).
  rewrite Hspaces at 1. rewrite Hsign at 1. rewrite Hrun at 1.
  now rewrite <- !app_assoc.
Qed.

(** A conversion that ends on the separator [c] leaves behind it a
    string with fewer occurrences of [c]. *)
Lemma separator_consumed (c : ascii) (str : cstring) :
  c <> zero ->
  Ascii.eqb (deref (snd (strtoul str))) c = true ->
  (occurrences c (tl (snd (strtoul str))) < occurrences c str)%nat.
Proof.
  intros Hc Hsep. destruct (strtoul_suffix str) as [pre Hpre].
  apply Ascii.eqb_eq in Hsep.
  destruct (snd (strtoul str)) as [| x rest].
  - cbn in Hsep. now elim Hc.
  - cbn in Hsep. subst x. rewrite Hpre. unfold occurrences.
    rewrite count_occ_app. cbn [tl].
    rewrite count_occ_cons_eq by reflexivity. lia.
Qed.

(** X3.  A text that [ParseDate] accepts holds at least two '-', a text
    that [ParseTime] accepts at least two ':': the empty string and a
    bare number are rejected. *)
Theorem Parse_needs_two_separators (str : cstring) :
  (forall date, fst (ParseDate str date) = true ->
                (2 <= occurrences "-" str)%nat) /\
  (forall time, fst (ParseTime str time) = true ->
                (2 <= occurrences ":" str)%nat).
Proof.
  split.
  - intros date. unfold ParseDate.
    pose proof (separator_consumed "-" str) as S1.
    destruct (strtoul str) as [v1 e1]. cbn [snd] in S1.
    destruct (same_ptr str e1); [discriminate |]. cbn [orb].
    destruct (Ascii.eqb (deref e1) "-") eqn:E1; [| discriminate].
    cbn [negb].
    pose proof (separator_consumed "-" (tl e1)) as S2.
    destruct (strtoul (tl e1)) as [v2 e2]. cbn [snd] in S2.
    destruct (same_ptr (tl e1) e2); [discriminate |]. cbn [orb].
    destruct (Ascii.eqb (deref e2) "-") eqn:E2; [| discriminate].
    intros _.
    assert (Hz : "-"%char <> zero) by discriminate.
    specialize (S1 Hz eq_refl). specialize (S2 Hz eq_refl). lia.
  - intros time. unfold ParseTime.
    pose proof (separator_consumed ":" str) as S1.
    destruct (strtoul str) as [v1 e1]. cbn [snd] in S1.
    destruct (same_ptr str e1); [discriminate |]. cbn [orb].
    destruct (Ascii.eqb (deref e1) ":") eqn:E1; [| discriminate].
    cbn [negb].
    pose proof (separator_consumed ":" (tl e1)) as S2.
    destruct (strtoul (tl e1)) as [v2 e2]. cbn [snd] in S2.
    destruct (same_ptr (tl e1) e2); [discriminate |]. cbn [orb].
    destruct (Ascii.eqb (deref e2) ":") eqn:E2; [| discriminate].
    intros _.
    assert (Hz : ":"%char <> zero) by discriminate.
    specialize (S1 Hz eq_refl). specialize (S2 Hz eq_refl). lia.
Qed.

End Rejection.

Lemma Parse_needs_two_separators_witness :
  fst (@ParseTime xcsoar_target (line "12:23:48") indeterminate_time) = true /\
  (2 <= occurrences ":" (line "12:23:48"))%nat.
Proof.
  split; [reflexivity |].
  apply (proj2 (@Parse_needs_two_separators xcsoar_target (line "12:23:48"))
               indeterminate_time).
  reflexivity.
Defined.

(** * Further properties of the time arithmetic *)

(** X4.  Whatever non-negative times are added, the two loops of
    [operator+] leave seconds and minutes between 0 and 60: 60 itself
    can remain, nothing larger. *)
Theorem operator_plus_at_most_sixty (T : Target) (a b : BrokenTime) :
  0 <= second a + second b -> 0 <= minute a + minute b ->
  0 <= second (operator_plus a b) <= 60 /\
  0 <= minute (operator_plus a b) <= 60.
Proof.
  intros Hs Hm. unfold operator_plus.
  pose proof (wrap_shrinks second_bits _ Hs) as Ws.
  pose proof (wrap_shrinks minute_bits _ Hm) as Wm.
  set (s0 := wrap second_bits (second a + second b)) in *.
  set (m0 := wrap minute_bits (minute a + minute b)) in *.
  assert (E1 : 0 <= fst (carry (Z.to_nat s0) second_bits minute_bits s0 m0)
               <= 60) by (apply carry_exits; lia).
  assert (N1 : 0 <= snd (carry (Z.to_nat s0) second_bits minute_bits s0 m0))
    by (apply carry_high_nonneg; lia).
  destruct (carry (Z.to_nat s0) second_bits minute_bits s0 m0) as [s m].
  cbn [fst snd] in E1, N1.
  assert (E2 : 0 <= fst (carry (Z.to_nat m) minute_bits hour_bits m
                           (wrap hour_bits (hour a + hour b))) <= 60)
    by (apply carry_exits; lia).
  destruct (carry (Z.to_nat m) minute_bits hour_bits m
              (wrap hour_bits (hour a + hour b))) as [m' h].
  cbn [fst snd second minute] in *. lia.
Qed.

Lemma operator_plus_at_most_sixty_witness :
  second (@operator_plus xcsoar_target
            {| hour := 12; minute := 23; second := 48 |}
            {| hour := 2; minute := 3; second := 25 |}) <= 60.
Proof.
  apply (operator_plus_at_most_sixty xcsoar_target
           {| hour := 12; minute := 23; second := 48 |}
           {| hour := 2; minute := 3; second := 25 |});
    cbn; lia.
Defined.

(** The carry loop moves sixties from the low field to the high one
    and loses nothing, as long as the high field has room. *)
Lemma carry_conserves (lo_bits hi_bits : Z) (fuel : nat) :
  forall lo hi,
    0 <= lo < 2 ^ lo_bits -> 0 <= hi -> 60 * hi + lo < 60 * 2 ^ hi_bits ->
    60 * snd (carry fuel lo_bits hi_bits lo hi)
      + fst (carry fuel lo_bits hi_bits lo hi) = 60 * hi + lo /\
    0 <= fst (carry fuel lo_bits hi_bits lo hi) <= lo /\
    0 <= snd (carry fuel lo_bits hi_bits lo hi).
Proof.
  induction fuel as [| fuel IH]; intros lo hi Hlo Hhi Hroom; cbn [carry].
  - cbn. lia.
  - destruct (Z.gtb_spec lo 60) as [Hgt | Hle]; [| cbn; lia].
    rewrite (wrap_small lo_bits (lo - 60)) by lia.
    rewrite (wrap_small hi_bits (hi + 1)) by lia.
    destruct (IH (lo - 60) (hi + 1)) as (E & B & N); lia.
Qed.

(** X5.  For times of day in their usual ranges, on a target whose
    minute and second fields have 7 bits and whose hour field 6, the
    end time is start plus duration to the second: the carries lose
    nothing and the hours run on past 23. *)
Theorem operator_plus_conserves_seconds (T : Target) (a b : BrokenTime) :
  clock a -> clock b ->
  7 <= second_bits -> 7 <= minute_bits -> 6 <= hour_bits ->
  seconds_of (operator_plus a b) = seconds_of a + seconds_of b.
Proof.
  intros (Ha1 & Ha2 & Ha3) (Hb1 & Hb2 & Hb3) Ws Wm Wh.
  assert (Ps : 2 ^ 7 <= 2 ^ second_bits) by (apply pow2_mono; lia).
  assert (Pm : 2 ^ 7 <= 2 ^ minute_bits) by (apply pow2_mono; lia).
  assert (Ph : 2 ^ 6 <= 2 ^ hour_bits) by (apply pow2_mono; lia).
  change (2 ^ 7) with 128 in Ps, Pm. change (2 ^ 6) with 64 in Ph.
  unfold seconds_of, operator_plus.
  rewrite (wrap_small second_bits (second a + second b)) by lia.
  rewrite (wrap_small minute_bits (minute a + minute b)) by lia.
  rewrite (wrap_small hour_bits (hour a + hour b)) by lia.
  destruct (carry_conserves second_bits minute_bits
              (Z.to_nat (second a + second b))
              (second a + second b) (minute a + minute b))
    as (E1 & B1 & N1); try lia.
  destruct (carry (Z.to_nat (second a + second b)) second_bits minute_bits
              (second a + second b) (minute a + minute b)) as [s m].
  cbn [fst snd] in E1, B1, N1.
  destruct (carry_conserves minute_bits hour_bits (Z.to_nat m) m
              (hour a + hour b))
    as (E2 & B2 & N2); try lia.
  destruct (carry (Z.to_nat m) minute_bits hour_bits m (hour a + hour b))
    as [m' h].
  cbn [fst snd hour minute second] in *. lia.
Qed.

Lemma operator_plus_conserves_seconds_witness :
  seconds_of (@operator_plus xcsoar_target
                {| hour := 23; minute := 5; second := 30 |}
                {| hour := 1; minute := 21; second := 30 |}) =
  seconds_of {| hour := 23; minute := 5; second := 30 |}
  + seconds_of {| hour := 1; minute := 21; second := 30 |}.
Proof.
  apply (operator_plus_conserves_seconds xcsoar_target);
    unfold clock; cbn; lia.
Defined.

(** * Further properties of the metadata line *)

Lemma fields_length (sep : ascii) (s : cstring) :
  List.length (fields sep s) = S (occurrences sep s).
Proof.
  unfold occurrences.
  induction s as [| x s IH]; [reflexivity |]. cbn [fields].
  destruct (Ascii.eqb_spec x sep) as [-> | Hne].
  - cbn [List.length]. rewrite IH, count_occ_cons_eq by reflexivity.
    reflexivity.
  - rewrite count_occ_cons_neq by exact Hne.
    destruct (fields sep s) as [| field rest]; cbn in IH |- *; lia.
Qed.

Lemma strchr_cut_app (c : ascii) (head : cstring) :
  (1 <= occurrences c head)%nat ->
  exists field p,
    (forall tail, strchr_cut c (head ++ tail) = Some (field, p ++ tail)) /\
    occurrences c head = S (occurrences c p).
Proof.
  unfold occurrences.
  induction head as [| x head IH]; intros H; [cbn in H; lia |].
  destruct (Ascii.eqb_spec x c) as [-> | Hne].
  - exists [], head. split.
    + intros tail. cbn. now rewrite Ascii.eqb_refl.
    + now rewrite count_occ_cons_eq.
  - rewrite count_occ_cons_neq in H |- * by exact Hne.
    destruct (IH H) as (field & p & Hcut & Hocc).
    exists (x :: field), p. split; [| exact Hocc].
    intros tail. cbn.
    destruct (Ascii.eqb_spec x c) as [E | _]; [now elim Hne |].
    now rewrite Hcut.
Qed.

Section LineFacts.
Context {T : Target}.

(** X6.  A line with fewer than three separators is rejected, and so is
    a line with fewer than four whose first field is longer than 10
    characters: date, start time and duration must each be closed by a
    separator. *)
Theorem ParseRecordInfo_needs_separators (record_info : cstring)
    (flight : RecordedFlightInfo) :
  ((occurrences "|" record_info < 3)%nat ->
   fst (ParseRecordInfo record_info flight) = false) /\
  ((10 < List.length (hd [] (fields "|" record_info)))%nat ->
   (occurrences "|" record_info < 4)%nat ->
   fst (ParseRecordInfo record_info flight) = false).
Proof.
  assert (Hnone : positional record_info flight = None ->
                  fst (ParseRecordInfo record_info flight) = false).
  { rewrite <- ParseRecordInfo_positional. unfold parsed.
    destruct (fst (ParseRecordInfo record_info flight));
      [discriminate | reflexivity]. }
  pose proof (fields_length "|" record_info) as Hlen.
  split.
  - intros Hfew. apply Hnone. unfold positional.
    destruct (fields "|" record_info) as [| f0 [| f1 [| f2 [| f3 rest]]]];
      cbn in Hlen; try lia; cbn [hd tl];
      destruct (10 <? Z.of_nat (List.length f0)); reflexivity.
  - intros Hlong Hfew. apply Hnone. unfold positional.
    destruct (fields "|" record_info)
      as [| f0 [| f1 [| f2 [| f3 [| f4 rest]]]]];
      cbn in Hlen, Hlong; try lia; cbn [hd tl];
      (destruct (Z.ltb_spec 10 (Z.of_nat (List.length f0)));
       [reflexivity | lia]).
Qed.

(** X7.  Nothing behind the separator that closes the duration field is
    looked at: two lines that agree up to and including their fourth
    separator parse alike, whatever pilot, glider and class say. *)
Theorem ParseRecordInfo_ignores_metadata (head tail tail' : cstring)
    (flight : RecordedFlightInfo) :
  (4 <= occurrences "|" head)%nat ->
  ParseRecordInfo (head ++ tail) flight =
  ParseRecordInfo (head ++ tail') flight.
Proof.
  intros H.
  destruct (strchr_cut_app "|" head) as (f0 & p0 & C0 & O0); [lia |].
  destruct (strchr_cut_app "|" p0) as (f1 & p1 & C1 & O1); [lia |].
  destruct (strchr_cut_app "|" p1) as (f2 & p2 & C2 & O2); [lia |].
  destruct (strchr_cut_app "|" p2) as (f3 & p3 & C3 & O3); [lia |].
  unfold ParseRecordInfo. rewrite !C0. cbv beta iota.
  destruct (10 <? Z.of_nat (List.length f0)).
  - rewrite !C1. cbv beta iota. rewrite !C2. cbv beta iota.
    rewrite !C3. reflexivity.
  - rewrite !C1. cbv beta iota. rewrite !C2. reflexivity.
Qed.

(** X8.  What the record held before does not show in a successful
    parse, the record number apart: success depends on the line only,
    and date, start time and end time are all stored anew.  A record
    declared without initialiser can be handed in. *)
Theorem ParseRecordInfo_ignores_previous_contents (record_info : cstring)
    (flight other : RecordedFlightInfo) :
  fst (ParseRecordInfo record_info flight) =
  fst (ParseRecordInfo record_info other) /\
  (fst (ParseRecordInfo record_info flight) = true ->
   snd (ParseRecordInfo record_info flight) =
   set_flarm (snd (ParseRecordInfo record_info other)) (flarm flight)).
Proof.
  pose proof (ParseRecordInfo_overwrites record_info flight other) as H.
  unfold parsed in H.
  destruct (ParseRecordInfo record_info flight) as [ok f],
           (ParseRecordInfo record_info other) as [ok' f'].
  cbn [fst snd] in *.
  destruct ok, ok'; cbn in H; try discriminate; split; try reflexivity;
    try discriminate.
  intros _. now injection H.
Qed.

(** X9.  [ParseRecordInfo] never touches the record number, and stores
    the end time only when it succeeds; after a failure date and start
    time may have been overwritten, the end time is as before. *)
Theorem ParseRecordInfo_keeps_on_failure (record_info : cstring)
    (flight : RecordedFlightInfo) :
  flarm (snd (ParseRecordInfo record_info flight)) = flarm flight /\
  (fst (ParseRecordInfo record_info flight) = false ->
   end_time (snd (ParseRecordInfo record_info flight)) = end_time flight).
Proof.
  unfold ParseRecordInfo.
  destruct (strchr_cut "|" record_info) as [[f0 p0] |];
    [| split; reflexivity].
  destruct (if 10 <? Z.of_nat (List.length f0)
            then strchr_cut "|" p0 else Some (f0, p0)) as [[fd pd] |];
    [| split; reflexivity].
  destruct (ParseDate fd (date flight)) as [[|] d]; cbn [negb];
    [| split; reflexivity].
  destruct (strchr_cut "|" pd) as [[fs ps] |]; [| split; reflexivity].
  cbn [start_time set_date].
  destruct (ParseTime fs (start_time flight)) as [[|] t]; cbn [negb];
    [| split; reflexivity].
  destruct (strchr_cut "|" ps) as [[ft pt] |]; [| split; reflexivity].
  destruct (ParseTime ft indeterminate_time) as [[|] du]; cbn [negb];
    split; try reflexivity.
  discriminate.
Qed.

End LineFacts.

Lemma ParseRecordInfo_needs_separators_witness :
  (occurrences "|" (line "2000-11-08|20:05:21|01:21:09") < 3)%nat /\
  fst (@ParseRecordInfo xcsoar_target (line "2000-11-08|20:05:21|01:21:09")
         indeterminate_flight) = false.
Proof.
  assert (H : (occurrences "|" (line "2000-11-08|20:05:21|01:21:09") < 3)%nat)
    by (apply Nat.ltb_lt; reflexivity).
  split; [exact H |].
  exact (proj1 (@ParseRecordInfo_needs_separators xcsoar_target
                  (line "2000-11-08|20:05:21|01:21:09") indeterminate_flight)
               H).
Defined.

Lemma ParseRecordInfo_ignores_metadata_witness :
  @ParseRecordInfo xcsoar_target
    (line "2000-11-08|20:05:21|01:21:09|J.Doe|XYZ|15M") indeterminate_flight =
  @ParseRecordInfo xcsoar_target
    (line "2000-11-08|20:05:21|01:21:09|J.Doe|") indeterminate_flight.
Proof.
  refine (@ParseRecordInfo_ignores_metadata xcsoar_target
            (line "2000-11-08|20:05:21|01:21:09|J.Doe|") (line "XYZ|15M") []
            indeterminate_flight _).
  apply Nat.leb_le. reflexivity.
Defined.

Lemma ParseRecordInfo_ignores_previous_contents_witness :
  snd (@ParseRecordInfo xcsoar_target
         (line "2000-11-08|20:05:21|01:21:09|J.Doe|XYZ|15M")
         (set_flarm indeterminate_flight 7)) =
  set_flarm
    (snd (@ParseRecordInfo xcsoar_target
            (line "2000-11-08|20:05:21|01:21:09|J.Doe|XYZ|15M")
            indeterminate_flight)) 7.
Proof.
  apply (proj2 (@ParseRecordInfo_ignores_previous_contents xcsoar_target
                  (line "2000-11-08|20:05:21|01:21:09|J.Doe|XYZ|15M")
                  (set_flarm indeterminate_flight 7) indeterminate_flight)).
  reflexivity.
Defined.

Lemma ParseRecordInfo_keeps_on_failure_witness :
  fst (@ParseRecordInfo xcsoar_target (line "2000-11-08|20:05:21|xx|")
         indeterminate_flight) = false /\
  end_time (snd (@ParseRecordInfo xcsoar_target
                   (line "2000-11-08|20:05:21|xx|") indeterminate_flight)) =
  end_time indeterminate_flight.
Proof.
  split; [reflexivity |].
  apply (proj2 (@ParseRecordInfo_keeps_on_failure xcsoar_target
                  (line "2000-11-08|20:05:21|xx|") indeterminate_flight)).
  reflexivity.
Defined.

(** * Further properties of the catalog *)

Lemma SelectFlight_exchanges (i : Z) (w w' : World)
    (ack_result : MessageType) (events : list Event) :
  SelectFlight i w = Some (ack_result, events, w') ->
  forallb is_exchange events = true.
Proof.
  rewrite SelectFlight_cases. cbv zeta.
  destruct (negb (port w (sends w))); [intros [= _ <- _]; reflexivity |].
  destruct (negb (port w (S (sends w)))); [intros [= _ <- _]; reflexivity |].
  destruct (negb (port w (S (S (sends w)))));
    intros [= _ <- _]; reflexivity.
Qed.

Section CatalogFacts.
Context {T : Target}.

Lemma ParseRecordInfo_flarm (record_info : cstring)
    (flight : RecordedFlightInfo) :
  flarm (snd (ParseRecordInfo record_info flight)) = flarm flight.
Proof.
  unfold ParseRecordInfo.
  destruct (strchr_cut "|" record_info) as [[f0 p0] |]; [| reflexivity].
  destruct (if 10 <? Z.of_nat (List.length f0)
            then strchr_cut "|" p0 else Some (f0, p0)) as [[fd pd] |];
    [| reflexivity].
  destruct (ParseDate fd (date flight)) as [[|] d]; cbn [negb];
    [| reflexivity].
  destruct (strchr_cut "|" pd) as [[fs ps] |]; [| reflexivity].
  cbn [start_time set_date].
  destruct (ParseTime fs (start_time flight)) as [[|] t]; cbn [negb];
    [| reflexivity].
  destruct (strchr_cut "|" ps) as [[ft pt] |]; [| reflexivity].
  destruct (ParseTime ft indeterminate_time) as [[|] du]; reflexivity.
Qed.

Lemma ReadFlightInfo_events (flight flight' : RecordedFlightInfo)
    (w w' : World) (ok : bool) (events : list Event) :
  ReadFlightInfo flight w = Some ((ok, flight'), events, w') ->
  forallb is_exchange events = true /\ flarm flight' = flarm flight.
Proof.
  rewrite ReadFlightInfo_cases. cbv zeta.
  destruct (negb (port w (sends w)));
    [intros [= _ <- <- _]; split; reflexivity |].
  destruct (negb (port w (S (sends w))));
    [intros [= _ <- <- _]; split; reflexivity |].
  destruct (negb (MessageType_eqb (fst (next_reply w)) MT_ACK)
            || (Z.of_nat (List.length (snd (next_reply w))) <=? 2)).
  - intros [= _ <- <- _]. split; reflexivity.
  - intros [= E <- _]. split; [reflexivity |].
    pose proof (f_equal snd E) as E'. cbn [snd] in E'.
    rewrite <- E'. apply ParseRecordInfo_flarm.
Qed.

Lemma ReadFlightList_loop_grows (fuel : nat) :
  forall (i : Z) (flight_list flight_list' : RecordedFlightList)
         (w w' : World) (ok : bool) (events : list Event),
    0 <= i < 256 ->
    ReadFlightList_loop fuel i flight_list w =
      Some ((ok, flight_list'), events, w') ->
    exists added,
      flight_list' = flight_list ++ added /\
      (List.length flight_list'
       <= Nat.max list_capacity (List.length flight_list))%nat /\
      Forall (fun f => 0 <= flarm f < 256) added.
Proof.
  induction fuel as [| fuel IH];
    intros i flight_list flight_list' w w' ok events Hi; [discriminate |].
  assert (Hstay : exists added : RecordedFlightList,
            flight_list = flight_list ++ added /\
            (List.length flight_list
             <= Nat.max list_capacity (List.length flight_list))%nat /\
            Forall (fun f => 0 <= flarm f < 256) added)
    by (exists []; rewrite app_nil_r; repeat split; [lia | constructor]).
  rewrite ReadFlightList_loop_cases.
  destruct (full flight_list) eqn:Hfull; [intros [= _ <- _ _]; exact Hstay |].
  destruct (SelectFlight i w) as [[[ack ev1] w1] |]; [| discriminate].
  cbv zeta.
  destruct (MessageType_eqb ack MT_NACK);
    [intros [= _ <- _ _]; exact Hstay |].
  destruct (negb (MessageType_eqb ack MT_ACK));
    [intros [= _ <- _ _]; exact Hstay |].
  destruct (cancel w1 (polls w1)); [intros [= _ <- _ _]; exact Hstay |].
  destruct (ReadFlightInfo (set_flarm indeterminate_flight i) (polled w1))
    as [[[[read flight_info] ev2] w2] |] eqn:Einfo; [| discriminate].
  destruct (ReadFlightInfo_events _ _ _ _ _ _ Einfo) as [_ Hflarm].
  cbn [flarm set_flarm] in Hflarm.
  assert (Hnext : 0 <= wrap 8 (i + 1) < 256)
    by (apply Z.mod_pos_bound; reflexivity).
  destruct (ReadFlightList_loop fuel (wrap 8 (i + 1))
              (if read then flight_list ++ [flight_info] else flight_list) w2)
    as [[[[ok3 list3] ev3] w3] |] eqn:Eloop; [| discriminate].
  intros [= _ <- _ _].
  destruct (IH _ _ _ _ _ _ _ Hnext Eloop) as (added & Hlist & Hlen & Hall).
  destruct read.
  - exists (flight_info :: added).
    split; [rewrite Hlist, <- app_assoc; reflexivity |]. split.
    + rewrite length_app in Hlen. cbn [List.length] in Hlen.
      unfold full in Hfull. apply Nat.leb_gt in Hfull. lia.
    + constructor; [lia | exact Hall].
  - exists added. split; [exact Hlist |]. split; [exact Hlen | exact Hall].
Qed.

(** X10.  A call of [ReadFlightList] that returns has only appended,
    whether it reports success or failure: the list it leaves starts
    with the list it was given, is no longer than the capacity (or
    than it was), and every record appended carries an 8-bit record
    number. *)
Theorem ReadFlightList_only_appends
    (flight_list flight_list' : RecordedFlightList) (w w' : World)
    (ok : bool) (events : list Event) :
  ReadFlightList flight_list w = Some ((ok, flight_list'), events, w') ->
  (exists added,
     flight_list' = flight_list ++ added /\
     Forall (fun f => 0 <= flarm f < 256) added) /\
  (List.length flight_list'
   <= Nat.max list_capacity (List.length flight_list))%nat.
Proof.
  intros E.
  rewrite ReadFlightList_unfold in E.
  destruct (ReadFlightList_loop (S (List.length (replies w))) 0 flight_list w)
    as [[[[ok0 list0] events0] w0] |] eqn:Eloop; [| discriminate].
  injection E as <- <- _ _.
  assert (Hzero : 0 <= 0 < 256) by lia.
  destruct (ReadFlightList_loop_grows _ _ _ _ _ _ _ _ Hzero Eloop)
    as (added & Hlist & Hlen & Hall).
  split; [exists added; split; assumption | exact Hlen].
Qed.

End CatalogFacts.

Section CatalogRuns.
Context {T : Target}.

Lemma readable_flarm (i : Z) (reply : Reply) (flight_info : RecordedFlightInfo) :
  readable i reply = Some flight_info -> flarm flight_info = i.
Proof.
  unfold readable. destruct reply as [type data].
  destruct (negb (MessageType_eqb type MT_ACK)
            || (Z.of_nat (List.length data) <=? 2)); [discriminate |].
  unfold parsed.
  pose proof (ParseRecordInfo_flarm (c_str (skipn 2 data))
                (set_flarm indeterminate_flight i)) as F.
  destruct (ParseRecordInfo (c_str (skipn 2 data))
              (set_flarm indeterminate_flight i)) as [[|] f];
    cbn [fst snd] in *; [| discriminate].
  intros [= <-]. exact F.
Qed.

Lemma readable_any_index (i j : Z) (reply : Reply) :
  readable i reply = None -> readable j reply = None.
Proof.
  unfold readable. destruct reply as [type data].
  destruct (negb (MessageType_eqb type MT_ACK)
            || (Z.of_nat (List.length data) <=? 2)); [reflexivity |].
  rewrite (ParseRecordInfo_overwrites (c_str (skipn 2 data))
             (set_flarm indeterminate_flight j)
             (set_flarm indeterminate_flight i)).
  intros ->. reflexivity.
Qed.

Lemma collected_places (catalog : list (list byte * Reply)) :
  forall k : nat,
    map flarm (collected (Z.of_nat k mod 256) catalog) =
    map (fun p => Z.of_nat p mod 256) (readable_places k catalog).
Proof.
  induction catalog as [| [payload reply] catalog IH]; intros k;
    [reflexivity |].
  cbn [collected readable_places].
  assert (Hnext : wrap 8 (Z.of_nat k mod 256 + 1) = Z.of_nat (S k) mod 256).
  { unfold wrap. change (2 ^ 8) with 256.
    rewrite Zplus_mod_idemp_l. f_equal. lia. }
  rewrite Hnext.
  destruct (readable (Z.of_nat k mod 256) reply) as [f |] eqn:E.
  - destruct (readable 0 reply) eqn:E0.
    + cbn [map]. rewrite (readable_flarm _ _ _ E), IH. reflexivity.
    + apply (readable_any_index 0 (Z.of_nat k mod 256)) in E0. congruence.
  - apply (readable_any_index _ 0) in E. rewrite E. apply IH.
Qed.

Lemma collected_firstn_length (catalog : list (list byte * Reply)) :
  forall (i : Z) (k : nat),
    (List.length (collected i (firstn k catalog))
     <= List.length (collected i catalog))%nat.
Proof.
  induction catalog as [| [payload reply] catalog IH]; intros i k.
  - rewrite firstn_nil. cbn. lia.
  - destruct k as [| k]; [cbn; lia |].
    cbn [firstn collected]. specialize (IH (wrap 8 (i + 1)) k).
    destruct (readable i reply); cbn [List.length]; lia.
Qed.

(** The loop runs through a stretch of acknowledged records for which
    the list has room and goes on behind it. *)
Lemma ReadFlightList_loop_through (catalog : list (list byte * Reply)) :
  forall (i : Z) (flight_list : RecordedFlightList) (w : World)
         (rest : list Reply),
    undisturbed w ->
    replies w = acknowledged catalog ++ rest ->
    room i flight_list catalog ->
    exists (j : Z) (passed : list Event) (w0 : World),
      replies w0 = rest /\ undisturbed w0 /\ file w0 = file w /\
      List.length (selected passed) = List.length catalog /\
      forall fuel,
        ReadFlightList_loop (List.length catalog + fuel) i flight_list w =
        match ReadFlightList_loop fuel j
                (flight_list ++ collected i catalog) w0 with
        | None => None
        | Some (result, events, w') => Some (result, passed ++ events, w')
        end.
Proof.
  induction catalog as [| [payload reply] catalog IH];
    intros i flight_list w rest Hw Hreplies Hroom.
  - exists i, [], w. repeat split; try assumption; try apply Hw.
    intros fuel. cbn [List.length Nat.add collected]. rewrite app_nil_r.
    destruct (ReadFlightList_loop fuel i flight_list w)
      as [[[result events] w'] |]; reflexivity.
  - destruct Hw as [Hport Hcancel].
    assert (Hfull : full flight_list = false).
    { unfold full. apply Nat.leb_gt.
      specialize (Hroom 0%nat). cbn in Hroom. lia. }
    destruct (ReadFlightInfo_readable i (polled (received (sent w 3))))
      as (ok & flight_info & info_events & E & Hreadable);
      [apply Hport | apply Hport |].
    destruct (ReadFlightInfo_returns (set_flarm indeterminate_flight i)
                (polled (received (sent w 3))))
      as (res' & ev' & w'' & E' & _ & _ & _ & _ & _ & _ & _ & _ & Hsel).
    rewrite E in E'. injection E' as _ <- _.
    unfold next_reply in Hreadable.
    cbn [replies polled received sent with_polls with_replies with_sends]
      in Hreadable.
    rewrite Hreplies in Hreadable.
    cbn [acknowledged flat_map app hd tl fst snd] in Hreadable.
    destruct (IH (wrap 8 (i + 1))
                 (if ok then flight_list ++ [flight_info] else flight_list)
                 (received (sent (polled (received (sent w 3))) 2)) rest)
      as (j & passed & w0 & Hrest & Hw0 & Hfile & Hcount & Hrun).
    + split; [exact Hport | exact Hcancel].
    + cbn. rewrite Hreplies. reflexivity.
    + intros k Hk. specialize (Hroom (S k)).
      cbn [List.length firstn collected] in Hroom.
      rewrite Hreadable in Hroom.
      destruct ok; [rewrite length_app |]; cbn [List.length] in Hroom |- *;
        lia.
    + exists j,
        (ProgressPosition (i mod 10)
           :: [StartByte;
               Header (PrepareFrameHeader MT_SELECTRECORD [uint8_byte i]) 1000;
               Escaped [uint8_byte i] 1000; Wait 1000]
           ++ IsCancelledPoll false :: info_events ++ passed), w0.
      split; [exact Hrest |]. split; [exact Hw0 |].
      split; [exact Hfile |]. split.
      * change (ProgressPosition (i mod 10)
                  :: [StartByte;
                      Header (PrepareFrameHeader MT_SELECTRECORD
                                [uint8_byte i]) 1000;
                      Escaped [uint8_byte i] 1000; Wait 1000]
                  ++ IsCancelledPoll false :: info_events ++ passed)
          with ([ProgressPosition (i mod 10); StartByte;
                 Header (PrepareFrameHeader MT_SELECTRECORD
                           [uint8_byte i]) 1000;
                 Escaped [uint8_byte i] 1000; Wait 1000;
                 IsCancelledPoll false] ++ info_events ++ passed).
        rewrite !selected_app, Hsel. cbn. now rewrite Hcount.
      * intros fuel. cbn [List.length Nat.add].
        rewrite ReadFlightList_loop_cases, Hfull, SelectFlight_cases.
        cbv zeta. rewrite !Hport. cbn [negb]. unfold next_reply.
        rewrite Hreplies.
        cbn [acknowledged flat_map app hd fst snd MessageType_eqb negb].
        cbn [cancel received sent with_replies with_sends polls].
        rewrite Hcancel, E. cbn [collected]. rewrite Hreadable.
        destruct ok; rewrite Hrun; [rewrite <- app_assoc; cbn [app] |];
          match goal with
          | |- context [ReadFlightList_loop fuel j ?l w0] =>
              destruct (ReadFlightList_loop fuel j l w0)
                as [[[result events] w'] |]
          end; try reflexivity;
          cbn [app]; rewrite <- !app_assoc; reflexivity.
Qed.

End CatalogRuns.

Section CatalogEnds.
Context {T : Target}.

Lemma acknowledged_length (catalog : list (list byte * Reply)) :
  List.length (acknowledged catalog) = (2 * List.length catalog)%nat.
Proof.
  induction catalog as [| entry catalog IH]; [reflexivity |].
  unfold acknowledged in *. cbn [flat_map app List.length].
  rewrite IH. lia.
Qed.

(** A catalog closed by anything but an acknowledgement: a NACK ends
    the enumeration with success, a timeout, silence or a stray answer
    with failure; the records read before are in the list either way. *)
Lemma ReadFlightList_catalog_closed (catalog : list (list byte * Reply))
    (rest : list Reply) (flight_list : RecordedFlightList) (w : World) :
  undisturbed w ->
  replies w = acknowledged catalog ++ rest ->
  fst (hd (MT_ERROR, []) rest) <> MT_ACK ->
  (List.length flight_list + List.length (collected 0 catalog)
   < list_capacity)%nat ->
  exists events w',
    ReadFlightList flight_list w =
      Some ((MessageType_eqb (fst (hd (MT_ERROR, []) rest)) MT_NACK,
             flight_list ++ collected 0 catalog), events, w').
Proof.
  intros Hw Hreplies Hclosing Hroom.
  destruct (ReadFlightList_loop_through catalog 0 flight_list w rest Hw
              Hreplies)
    as (j & passed & w0 & Hrest & [Hport Hcancel] & _ & _ & Hrun).
  { intros k Hk.
    assert (Hk' := collected_firstn_length catalog 0 k).
    eapply Nat.le_lt_trans; [| exact Hroom].
    apply Nat.add_le_mono_l. exact Hk'. }
  rewrite ReadFlightList_unfold.
  replace (S (List.length (replies w)))
    with (List.length catalog
          + S (List.length catalog + List.length rest))%nat
    by (rewrite Hreplies, length_app, acknowledged_length; lia).
  rewrite Hrun, ReadFlightList_loop_cases.
  assert (Hfull : full (flight_list ++ collected 0 catalog) = false)
    by (unfold full; apply Nat.leb_gt; rewrite length_app; lia).
  rewrite Hfull, SelectFlight_cases. cbv zeta. rewrite !Hport. cbn [negb].
  unfold next_reply. rewrite Hrest.
  destruct (fst (hd (MT_ERROR, []) rest)); try (now elim Hclosing);
    cbn [MessageType_eqb negb]; do 2 eexists; reflexivity.
Qed.

(** X11.  When the SELECT after the last record read is answered by a
    timeout, by silence or by anything but ACK and NACK, the call
    fails, and the records read until then, their metadata replies
    being terminated, are in the list: a caller that ignores the
    result sees a shortened catalog. *)
Theorem ReadFlightList_keeps_records_on_failure
    (catalog : list (list byte * Reply)) (rest : list Reply)
    (flight_list : RecordedFlightList) (w : World) :
  undisturbed w ->
  replies w = acknowledged catalog ++ rest ->
  well_terminated catalog = true ->
  fst (hd (MT_ERROR, []) rest) <> MT_ACK ->
  fst (hd (MT_ERROR, []) rest) <> MT_NACK ->
  (List.length flight_list + List.length (collected 0 catalog)
   < list_capacity)%nat ->
  exists events w',
    ReadFlightList flight_list w =
      Some ((false, flight_list ++ collected 0 catalog), events, w').
Proof.
  intros Hw Hreplies _ Hack Hnack Hroom.
  destruct (ReadFlightList_catalog_closed catalog rest flight_list w Hw
              Hreplies Hack Hroom) as (events & w' & E).
  exists events, w'. rewrite E.
  destruct (fst (hd (MT_ERROR, []) rest)); try reflexivity.
  now elim Hnack.
Qed.

(** X12.  When the list fills, the enumeration ends with success and
    without asking for another record: after as many readable records
    as the list had room for, no further SELECT goes out and the
    replies that follow stay with the device. *)
Theorem ReadFlightList_stops_when_full
    (catalog : list (list byte * Reply)) (rest : list Reply)
    (flight_list : RecordedFlightList) (w : World) :
  undisturbed w ->
  replies w = acknowledged catalog ++ rest ->
  (forall j reply, In reply (map snd catalog) -> readable j reply <> None) ->
  (List.length flight_list + List.length catalog = list_capacity)%nat ->
  exists events w',
    ReadFlightList flight_list w =
      Some ((true, flight_list ++ collected 0 catalog), events, w') /\
    List.length (flight_list ++ collected 0 catalog) = list_capacity /\
    replies w' = rest /\
    List.length (selected events) = List.length catalog.
Proof.
  intros Hw Hreplies Hall Hfill.
  destruct (ReadFlightList_loop_through catalog 0 flight_list w rest Hw
              Hreplies)
    as (j & passed & w0 & Hrest & _ & _ & Hcount & Hrun).
  { intros k Hk.
    assert (Hk' := collected_length (firstn k catalog) 0).
    rewrite length_firstn in Hk'.
    apply Nat.lt_le_trans
      with (List.length flight_list + List.length catalog)%nat;
      [| rewrite Hfill; apply Nat.le_refl].
    apply Nat.add_lt_mono_l.
    eapply Nat.le_lt_trans; [exact Hk' |].
    rewrite Nat.min_l by (apply Nat.lt_le_incl; exact Hk). exact Hk. }
  assert (Hlen : List.length (flight_list ++ collected 0 catalog)
                 = list_capacity)
    by (rewrite length_app, collected_all_readable by exact Hall; exact Hfill).
  rewrite ReadFlightList_unfold.
  replace (S (List.length (replies w)))
    with (List.length catalog
          + S (List.length catalog + List.length rest))%nat
    by (rewrite Hreplies, length_app, acknowledged_length; lia).
  rewrite Hrun, ReadFlightList_loop_cases.
  assert (Hfull : full (flight_list ++ collected 0 catalog) = true)
    by (unfold full; apply Nat.leb_le; lia).
  rewrite Hfull. do 2 eexists. split; [reflexivity |].
  split; [exact Hlen |]. split; [exact Hrest |].
  change (ProgressRange 10 :: passed ++ [])
    with ([ProgressRange 10] ++ passed ++ []).
  rewrite !selected_app. cbn. rewrite app_nil_r. exact Hcount.
Qed.

(** X13.  For a catalog of terminated metadata replies, each record of
    the list carries, as its record number, the place its SELECT had
    in the enumeration, modulo 256; the places of records that were
    skipped are missing.  That number is what [DownloadFlight] hands
    to [SelectFlight]. *)
Theorem ReadFlightList_records_carry_places
    (catalog : list (list byte * Reply)) (rest : list Reply)
    (flight_list : RecordedFlightList) (w : World) :
  undisturbed w ->
  replies w = acknowledged catalog ++ rest ->
  well_terminated catalog = true ->
  fst (hd (MT_ERROR, []) rest) <> MT_ACK ->
  (List.length flight_list + List.length (collected 0 catalog)
   < list_capacity)%nat ->
  exists ok added events w',
    ReadFlightList flight_list w =
      Some ((ok, flight_list ++ added), events, w') /\
    map flarm added =
    map (fun place => Z.of_nat place mod 256) (readable_places 0 catalog).
Proof.
  intros Hw Hreplies _ Hclosing Hroom.
  destruct (ReadFlightList_catalog_closed catalog rest flight_list w Hw
              Hreplies Hclosing Hroom) as (events & w' & E).
  exists (MessageType_eqb (fst (hd (MT_ERROR, []) rest)) MT_NACK),
    (collected 0 catalog), events, w'.
  split; [exact E |]. exact (collected_places catalog 0).
Qed.

End CatalogEnds.

Lemma ReadFlightList_only_appends_run :
  option_map (fun r => List.length (snd (fst (fst r))))
    (@ReadFlightList small_target []
       (calm (acknowledged
                [([], info_reply "2000-11-08|20:05:21|01:21:09|J.Doe|");
                 ([], info_reply "2000-11-09|10:00:00|00:30:00|J.Doe|");
                 ([], info_reply "2000-11-10|11:00:00|00:45:00|J.Doe|")]))) =
  Some 2%nat.
Proof. vm_compute. reflexivity. Qed.

Lemma ReadFlightList_only_appends_witness :
  exists (ok : bool) (flight_list' : RecordedFlightList)
         (events : list Event) (w' : World),
    @ReadFlightList small_target []
      (calm (acknowledged
               [([], info_reply "2000-11-08|20:05:21|01:21:09|J.Doe|");
                ([], (MT_ACK, bytes "ab" ++ [x00]));
                ([], info_reply "2000-11-10|11:00:00|00:45:00|J.Doe|")])) =
      Some ((ok, flight_list'), events, w') /\
    map flarm flight_list' = [0; 2] /\
    (exists added,
       flight_list' = [] ++ added /\
       Forall (fun f => 0 <= flarm f < 256) added) /\
    (List.length flight_list' <= 2)%nat.
Proof.
  assert (E : exists ok flight_list' events w',
            @ReadFlightList small_target []
              (calm (acknowledged
                 [([], info_reply "2000-11-08|20:05:21|01:21:09|J.Doe|");
                  ([], (MT_ACK, bytes "ab" ++ [x00]));
                  ([], info_reply "2000-11-10|11:00:00|00:45:00|J.Doe|")])) =
              Some ((ok, flight_list'), events, w') /\
            map flarm flight_list' = [0; 2])
    by (do 4 eexists; split; vm_compute; reflexivity).
  destruct E as (ok & flight_list' & events & w' & E & Hplaces).
  exists ok, flight_list', events, w'.
  split; [exact E |]. split; [exact Hplaces |].
  exact (@ReadFlightList_only_appends small_target _ _ _ _ _ _ E).
Defined.

Lemma ReadFlightList_keeps_records_on_failure_witness :
  exists events w',
    @ReadFlightList xcsoar_target []
      (calm (acknowledged
               [([], info_reply "2000-11-08|20:05:21|01:21:09|J.Doe|")])) =
    Some ((false,
           [{| date := {| year := 2000; month := 11; day := 8 |};
               start_time := {| hour := 20; minute := 5; second := 21 |};
               end_time := {| hour := 21; minute := 26; second := 30 |};
               flarm := 0 |}]), events, w').
Proof.
  destruct (@ReadFlightList_keeps_records_on_failure xcsoar_target
              [([], info_reply "2000-11-08|20:05:21|01:21:09|J.Doe|")] [] []
              (calm (acknowledged
                 [([], info_reply "2000-11-08|20:05:21|01:21:09|J.Doe|")])))
    as (events & w' & E).
  - split; intros n; reflexivity.
  - reflexivity.
  - reflexivity.
  - discriminate.
  - discriminate.
  - apply Nat.ltb_lt. vm_compute. reflexivity.
  - exists events, w'. exact E.
Defined.

Lemma ReadFlightList_stops_when_full_witness :
  exists events w',
    @ReadFlightList small_target []
      (calm (acknowledged
               [([], info_reply "2000-11-08|20:05:21|01:21:09|J.Doe|");
                ([], info_reply "2000-11-09|10:00:00|00:30:00|J.Doe|")]
             ++ [(MT_ACK, [])])) =
      Some ((true,
             @collected small_target 0
               [([], info_reply "2000-11-08|20:05:21|01:21:09|J.Doe|");
                ([], info_reply "2000-11-09|10:00:00|00:30:00|J.Doe|")]),
            events, w') /\
    replies w' = [(MT_ACK, [])] /\
    List.length (selected events) = 2%nat.
Proof.
  destruct (@ReadFlightList_stops_when_full small_target
              [([], info_reply "2000-11-08|20:05:21|01:21:09|J.Doe|");
               ([], info_reply "2000-11-09|10:00:00|00:30:00|J.Doe|")]
              [(MT_ACK, [])] []
              (calm (acknowledged
                       [([], info_reply "2000-11-08|20:05:21|01:21:09|J.Doe|");
                        ([], info_reply "2000-11-09|10:00:00|00:30:00|J.Doe|")]
                     ++ [(MT_ACK, [])])))
    as (events & w' & E & _ & Hrest & Hcount).
  - split; intros n; reflexivity.
  - reflexivity.
  - intros j reply [<- | [<- | []]]; vm_compute; discriminate.
  - reflexivity.
  - exists events, w'. split; [exact E |]. split; [exact Hrest | exact Hcount].
Defined.

Lemma ReadFlightList_records_carry_places_witness :
  exists ok added events w',
    @ReadFlightList xcsoar_target []
      (calm (catalog_replies
               [([], (MT_NACK, []));
                ([], info_reply "2000-11-08|20:05:21|01:21:09|J.Doe|")] [])) =
      Some ((ok, added), events, w') /\
    map flarm added = [1].
Proof.
  destruct (@ReadFlightList_records_carry_places xcsoar_target
              [([], (MT_NACK, []));
               ([], info_reply "2000-11-08|20:05:21|01:21:09|J.Doe|")]
              [(MT_NACK, [])] []
              (calm (catalog_replies
                 [([], (MT_NACK, []));
                  ([], info_reply "2000-11-08|20:05:21|01:21:09|J.Doe|")] [])))
    as (ok & added & events & w' & E & Hplaces).
  - split; intros n; reflexivity.
  - reflexivity.
  - reflexivity.
  - discriminate.
  - apply Nat.ltb_lt. vm_compute. reflexivity.
  - exists ok, added, events, w'. split; [exact E | exact Hplaces].
Defined.

(** * Further properties of the download *)

Lemma exchanges_only (events : list Event) :
  forallb is_exchange events = true ->
  writes events = [] /\ ~ In Delete events /\
  forall range highest, Forall (progress_within range highest) events.
Proof.
  induction events as [| e events IH]; intros H.
  - repeat split; [intros [] | constructor].
  - cbn in H. apply andb_true_iff in H as [He Hrest].
    destruct (IH Hrest) as (Hw & Hd & Hp).
    destruct e; try discriminate He; (repeat split;
      [exact Hw | intros [F | F]; [discriminate F | exact (Hd F)]
      | intros range highest; constructor; [exact I | apply Hp]]).
Qed.

Lemma byte_value_nonneg (b : byte) : 0 <= byte_value b.
Proof. unfold byte_value. lia. Qed.

Lemma file_unchanged (f : option (list byte)) :
  f = option_map (fun old => old ++ concat (@nil (list byte))) f.
Proof. destruct f; cbn; [rewrite app_nil_r |]; reflexivity. Qed.

(** What a run of the download loop does to the sink, however it ends:
    the file grows by what was written, nothing is opened or deleted,
    and the progress stays within 0 to 100. *)
Lemma DownloadFlight_loop_sink (fuel : nat) :
  forall (w w' : World) (result : bool) (events : list Event),
    DownloadFlight_loop fuel w = Some (result, events, w') ->
    file w' = option_map (fun old => old ++ concat (writes events)) (file w) /\
    ~ In Delete events /\
    Forall (progress_within 100 100) events.
Proof.
  induction fuel as [| fuel IH]; intros w w' result events; [discriminate |].
  rewrite DownloadFlight_loop_cases. cbv zeta.
  assert (Hquiet : forall (l : list Event) (v : World),
            forallb (fun e => match e with
                              | ProgressRange _ | ProgressPosition _
                              | WriteData _ | Delete | Open _ => false
                              | _ => true
                              end) l = true ->
            file v = file w ->
            file v = option_map (fun old => old ++ concat (writes l)) (file w)
            /\ ~ In Delete l /\ Forall (progress_within 100 100) l).
  { intros l v Hl Hv. rewrite Hv. clear Hv.
    induction l as [| e l IHl].
    - split; [apply file_unchanged |]. split; [intros [] | constructor].
    - cbn in Hl. apply andb_true_iff in Hl as [He Hl].
      destruct (IHl Hl) as (Hf & Hd & Hp).
      destruct e; try discriminate He;
        (split; [exact Hf |]; split;
         [intros [F | F]; [discriminate F | exact (Hd F)]
         | constructor; [exact I | exact Hp]]). }
  destruct (negb (port w (sends w)));
    [intros [= _ <- <-]; now apply Hquiet |].
  destruct (negb (port w (S (sends w))));
    [intros [= _ <- <-]; now apply Hquiet |].
  destruct (cancel w (polls w));
    [intros [= _ <- <-]; now apply Hquiet |].
  destruct (negb (MessageType_eqb (fst (next_reply w)) MT_ACK)
            || (Z.of_nat (List.length (snd (next_reply w))) <=? 3));
    [intros [= _ <- <-]; now apply Hquiet |].
  destruct (cancel w (S (polls w)));
    [intros [= _ <- <-]; now apply Hquiet |].
  set (data := snd (next_reply w)).
  assert (Hprogress : progress_within 100 100
            (ProgressPosition (Z.min (byte_value (nth 2 data x00)) 100)))
    by (cbn; pose proof (byte_value_nonneg (nth 2 data x00)); lia).
  destruct (Byte.eqb (last data x00) x1a).
  - intros [= _ <- <-].
    split; [cbn; rewrite app_nil_r; reflexivity |].
    split; [cbn; intuition discriminate |].
    repeat (apply Forall_cons; [first [exact I | exact Hprogress] |]).
    apply Forall_nil.
  - match goal with
    | |- context [DownloadFlight_loop fuel ?w2] =>
        destruct (DownloadFlight_loop fuel w2)
          as [[[result3 events3] w3] |] eqn:E; [| discriminate];
        destruct (IH _ _ _ _ E) as (Hfile & Hdelete & Hwithin)
    end.
    intros [= _ <- <-].
    split.
    + rewrite Hfile. cbn [file with_file writes flat_map app concat].
      fold (writes events3).
      destruct (file w) as [old |]; cbn [option_map]; [| reflexivity].
      rewrite <- app_assoc. reflexivity.
    + split.
      * cbn [app In]. intuition discriminate.
      * cbn [app].
        repeat (apply Forall_cons; [first [exact I | exact Hprogress] |]).
        exact Hwithin.
Qed.

Lemma DownloadFlight_path_sink (w : World) :
  exists result events w',
    DownloadFlight_path w = Some (result, events, w') /\
    ~ In Delete events /\
    existsb opens events = true /\
    Forall (progress_within 100 100) events /\
    (if can_open w then file w' = Some (concat (writes events))
     else result = false /\ file w' = file w /\ events = [Open false]).
Proof.
  rewrite DownloadFlight_path_cases.
  destruct (can_open w).
  - cbv zeta. destruct (cancel w (polls w)).
    + do 3 eexists. split; [reflexivity |].
      split; [cbn; intuition discriminate |]. split; [reflexivity |].
      split; [repeat constructor | reflexivity].
    + destruct (DownloadFlight_loop_returns (S (List.length (replies w)))
                  (polled (with_file w (Some []))) (Nat.lt_succ_diag_r _))
        as (result & events & w' & E & _).
      rewrite E.
      destruct (DownloadFlight_loop_sink _ _ _ _ _ E)
        as (Hfile & Hdelete & Hwithin).
      do 3 eexists. split; [reflexivity |].
      split; [cbn; intuition discriminate |]. split; [reflexivity |].
      split; [| exact Hfile].
      repeat (apply Forall_cons; [first [exact I | reflexivity] |]).
      exact Hwithin.
  - do 3 eexists. split; [reflexivity |].
    split; [cbn; intuition discriminate |]. split; [reflexivity |].
    split; [repeat constructor |]. repeat split.
Qed.



(** X15.  [DownloadFlight(path, env)] never deletes.  Once the
    destination is open, the file holds exactly what was written, so
    after a failure it is the truncated log; when the destination
    cannot be opened the call fails and leaves the file as it was. *)
Theorem DownloadFlight_path_leaves_partial_file (w : World) :
  exists result events w',
    DownloadFlight_path w = Some (result, events, w') /\
    ~ In Delete events /\
    (if can_open w then file w' = Some (concat (writes events))
     else result = false /\ file w' = file w /\ events = [Open false]).
Proof.
  destruct (DownloadFlight_path_sink w)
    as (result & events & w' & E & Hdelete & _ & _ & Hfile).
  exists result, events, w'. repeat split; assumption.
Qed.

Example DownloadFlight_path_leaves_partial_file_run :
  option_map (fun r => (fst (fst r), file (snd r)))
    (DownloadFlight_path
       (calm [(MT_ACK, bytes "ab2hello "); (MT_ERROR, [])])) =
  Some (false, Some (bytes "hello ")).
Proof. vm_compute. reflexivity. Qed.

(** X16.  [DownloadFlight(flight, path, env)] reports success only when
    the device acknowledged the SELECT and then sent chunks of more
    than 3 bytes, all acknowledged, up to one ending in 0x1A; the file
    then holds the data of these chunks from offset 3 on, less the
    final sentinel, and the replies behind the final chunk are left. *)
Theorem DownloadFlight_success_means_complete (flight : RecordedFlightInfo)
    (w w' : World) (events : list Event) :
  DownloadFlight flight w = Some (true, events, w') ->
  exists (select_payload : list byte) (chunks : list (list byte))
         (final : list byte),
    replies w =
      (MT_ACK, select_payload)
        :: map (pair MT_ACK) chunks ++ (MT_ACK, final) :: replies w' /\
    Forall inner_chunk chunks /\
    (3 < List.length final)%nat /\ last final x00 = x1a /\
    file w' =
      Some (concat (map (skipn 3) chunks) ++ removelast (skipn 3 final)).
Proof.
  rewrite DownloadFlight_cases, SelectFlight_cases. cbv zeta.
  destruct (negb (port w (sends w))); [discriminate |].
  destruct (negb (port w (S (sends w)))); [discriminate |].
  destruct (negb (port w (S (S (sends w))))); [discriminate |].
  unfold next_reply.
  destruct (replies w) as [| [type select_payload] rest] eqn:Hreplies;
    [discriminate |].
  cbn [hd fst].
  destruct (MessageType_eqb type MT_ACK) eqn:Etype; [| discriminate].
  assert (type = MT_ACK) by (destruct type; try discriminate; reflexivity).
  subst type. cbn [negb].
  destruct (cancel (received (sent w 3)) (polls (received (sent w 3))));
    [discriminate |].
  destruct (DownloadFlight_path (polled (received (sent w 3))))
    as [[[[|] path_events] w2] |] eqn:Epath; try discriminate.
  intros [= _ ->].
  destruct (DownloadFlight_path_success _ _ _ Epath)
    as (chunks & final & Hrest & Hchunks & Hlen & Hlast & Hwrites & Hfile).
  exists select_payload, chunks, final.
  cbn [replies polled received sent with_polls with_replies with_sends]
    in Hrest.
  rewrite Hreplies in Hrest. cbn [tl] in Hrest.
  split; [now rewrite Hrest |]. split; [exact Hchunks |].
  split; [exact Hlen |]. split; [exact Hlast |].
  rewrite Hfile, Hwrites, concat_app. cbn [concat].
  now rewrite app_nil_r.
Qed.

Lemma DownloadFlight_success_means_complete_witness :
  exists (events : list Event) (w' : World),
    DownloadFlight indeterminate_flight
      (calm [(MT_ACK, []); (MT_ACK, bytes "ab2hello ");
             (MT_ACK, bytes "ab2world" ++ [x1a])]) =
      Some (true, events, w') /\
    file w' = Some (bytes "hello world").
Proof.
  assert (E : exists events w',
            DownloadFlight indeterminate_flight
              (calm [(MT_ACK, []); (MT_ACK, bytes "ab2hello ");
                     (MT_ACK, bytes "ab2world" ++ [x1a])]) =
            Some (true, events, w'))
    by (do 2 eexists; vm_compute; reflexivity).
  destruct E as (events & w' & E). exists events, w'.
  split; [exact E |].
  destruct (DownloadFlight_success_means_complete _ _ _ _ E)
    as (select_payload & chunks & final & Hreplies & _ & _ & _ & Hfile).
  rewrite Hfile. clear Hfile.
  assert (Hw' : replies w' = []).
  { vm_compute in E. injection E as _ <-. reflexivity. }
  rewrite Hw' in Hreplies. cbn [replies calm] in Hreplies.
  injection Hreplies as _ Hchunks.
  destruct chunks as [| c1 [| c2 chunks]]; cbn [map app] in Hchunks.
  - discriminate Hchunks.
  - injection Hchunks as <- <-. reflexivity.
  - injection Hchunks as _ _ Hmore.
    destruct chunks; discriminate Hmore.
Defined.

(** X17.  [DownloadFlight(flight, path, env)] is all or nothing for the
    file.  If it never came to open the destination it has failed and
    the file is as it was.  Otherwise a success leaves exactly what
    was written and has deleted nothing, and a failure leaves no file
    at all, also when the destination could not be opened and a file
    was there before. *)
Theorem DownloadFlight_all_or_nothing (flight : RecordedFlightInfo)
    (w : World) :
  exists result events w',
    DownloadFlight flight w = Some (result, events, w') /\
    (existsb opens events = false ->
     result = false /\ file w' = file w /\ writes events = []) /\
    (existsb opens events = true ->
     if result
     then file w' = Some (concat (writes events)) /\ ~ In Delete events
     else file w' = None).
Proof.
  rewrite DownloadFlight_cases.
  destruct (SelectFlight (flarm flight) w) as [[[ack ev1] w1] |] eqn:E1.
  2: { destruct (SelectFlight_returns (flarm flight) w)
         as (a & e & v & E & _). congruence. }
  destruct (exchanges_only _ (SelectFlight_exchanges _ _ _ _ _ E1))
    as (Hwrites1 & Hdelete1 & _).
  destruct (SelectFlight_returns (flarm flight) w)
    as (a & e & v & E & _ & _ & _ & _ & _ & _ & Hfile1 & _ & Hopens1 & _).
  rewrite E1 in E. injection E as <- <- <-.
  destruct (no_opens _ Hopens1) as [Hnone1 _].
  destruct (negb (MessageType_eqb ack MT_ACK)).
  { do 3 eexists. split; [reflexivity |]. split.
    - intros _. repeat split; assumption.
    - rewrite Hnone1. discriminate. }
  destruct (cancel w1 (polls w1)).
  { do 3 eexists. split; [reflexivity |]. split.
    - intros _. split; [reflexivity |]. split; [exact Hfile1 |].
      unfold writes in *. rewrite flat_map_app, Hwrites1. reflexivity.
    - rewrite existsb_app, Hnone1. discriminate. }
  destruct (DownloadFlight_path_sink (polled w1))
    as (result & ev2 & w2 & E2 & Hdelete2 & Hopens2 & _ & Hfile2).
  rewrite E2.
  assert (Hwrites : forall tail,
            writes (ev1 ++ IsCancelledPoll false :: tail) = writes tail)
    by (intros tail; unfold writes in *;
        rewrite flat_map_app, Hwrites1; reflexivity).
  destruct result.
  - do 3 eexists. split; [reflexivity |]. split.
    + rewrite existsb_app. cbn [existsb opens orb]. rewrite Hopens2.
      rewrite orb_true_r. discriminate.
    + intros _. change (can_open (polled w1)) with (can_open w1) in Hfile2.
      destruct (can_open w1); [| destruct Hfile2 as [F _]; discriminate F].
      rewrite Hwrites. split; [exact Hfile2 |].
      intros Hin. apply in_app_or in Hin as [Hin | [Hin | Hin]];
        [exact (Hdelete1 Hin) | discriminate Hin | exact (Hdelete2 Hin)].
  - do 3 eexists. split; [reflexivity |]. split.
    + rewrite existsb_app. cbn [existsb opens orb].
      rewrite existsb_app, Hopens2. cbn [orb].
      rewrite orb_true_r. discriminate.
    + intros _. reflexivity.
Qed.

Lemma DownloadFlight_all_or_nothing_witness :
  exists events w',
    DownloadFlight indeterminate_flight
      {| replies := [(MT_ACK, [])]; port := fun _ => true; sends := 0;
         cancel := fun _ => false; polls := 0; can_open := false;
         file := Some (bytes "an older log") |} =
      Some (false, events, w') /\
    existsb opens events = true /\
    file w' = None.
Proof.
  destruct (DownloadFlight_all_or_nothing indeterminate_flight
              {| replies := [(MT_ACK, [])]; port := fun _ => true; sends := 0;
                 cancel := fun _ => false; polls := 0; can_open := false;
                 file := Some (bytes "an older log") |})
    as (result & events & w' & E & _ & H).
  vm_compute in E. injection E as <- <- <-.
  do 2 eexists. split; [vm_compute; reflexivity |].
  split; [reflexivity |]. apply H. reflexivity.
Defined.


(** * Further properties of the exchanges *)

Lemma c_str_stops (text junk : list byte) :
  c_str (text ++ x00 :: junk) = c_str text.
Proof.
  induction text as [| b text IH]; cbn [app c_str].
  - reflexivity.
  - destruct (Byte.eqb b x00); [reflexivity | now rewrite IH].
Qed.

(** X18.  An answer of [SelectFlight] other than [MT_ERROR] is the
    device's: start byte, header and the record number as one escaped
    byte, the number taken modulo 256, went out in this order, one wait
    followed, and exactly the head of the replies was taken. *)
Theorem SelectFlight_answer_is_a_reply (i : Z) (w w' : World)
    (ack_result : MessageType) (events : list Event) :
  SelectFlight i w = Some (ack_result, events, w') ->
  ack_result <> MT_ERROR ->
  exists (payload : list byte) (number : byte),
    byte_value number = i mod 256 /\
    replies w = (ack_result, payload) :: replies w' /\
    sends w' = (3 + sends w)%nat /\
    events =
      [StartByte;
       Header (PrepareFrameHeader MT_SELECTRECORD [number]) 1000;
       Escaped [number] 1000; Wait 1000].
Proof.
  rewrite SelectFlight_cases. cbv zeta.
  destruct (negb (port w (sends w))); [intros [= <- _ _] F; now destruct F |].
  destruct (negb (port w (S (sends w))));
    [intros [= <- _ _] F; now destruct F |].
  destruct (negb (port w (S (S (sends w)))));
    [intros [= <- _ _] F; now destruct F |].
  unfold next_reply.
  destruct (replies w) as [| [type payload] rest] eqn:Hreplies;
    cbn [hd fst]; intros [= <- <- <-] Hanswer; [now destruct Hanswer |].
  exists payload, (uint8_byte i).
  split; [apply byte_value_uint8 |].
  cbn [replies sends received sent with_replies with_sends].
  rewrite Hreplies. repeat split.
Qed.

Lemma SelectFlight_answer_is_a_reply_witness :
  exists (events : list Event) (w' : World),
    SelectFlight 300 (calm [(MT_NACK, bytes "no"); (MT_ACK, [])]) =
      Some (MT_NACK, events, w') /\
    exists (payload : list byte) (number : byte),
      byte_value number = 44 /\
      replies (calm [(MT_NACK, bytes "no"); (MT_ACK, [])]) =
        (MT_NACK, payload) :: replies w' /\
      sends w' = 3%nat /\
      events =
        [StartByte;
         Header (PrepareFrameHeader MT_SELECTRECORD [number]) 1000;
         Escaped [number] 1000; Wait 1000].
Proof.
  do 2 eexists. split; [vm_compute; reflexivity |].
  refine (SelectFlight_answer_is_a_reply 300
            (calm [(MT_NACK, bytes "no"); (MT_ACK, [])]) _ MT_NACK _ _ _);
    [vm_compute; reflexivity | discriminate].
Defined.

Section InfoFacts.
Context {T : Target}.

(** X19.  [ReadFlightInfo] reads the metadata as a C string from
    offset 2 of the payload: whatever follows the first zero byte of
    the payload changes neither the result nor the events of the
    exchange. *)
Theorem ReadFlightInfo_stops_at_terminator (flight : RecordedFlightInfo)
    (w : World) (type : MessageType) (lead text junk junk' : list byte)
    (rest : list Reply) :
  List.length lead = 2%nat ->
  option_map fst
    (ReadFlightInfo flight
       (with_replies w ((type, lead ++ text ++ x00 :: junk) :: rest))) =
  option_map fst
    (ReadFlightInfo flight
       (with_replies w ((type, lead ++ text ++ x00 :: junk') :: rest))).
Proof.
  intros Hlead.
  destruct lead as [| a [| b [| c lead]]]; try discriminate Hlead.
  rewrite !ReadFlightInfo_cases. cbv zeta.
  unfold next_reply, received, sent, with_replies, with_sends.
  cbn [replies port sends hd tl fst snd app skipn].
  rewrite !c_str_stops.
  assert (Hlong : forall tail : list byte,
            (Z.of_nat (List.length (a :: b :: text ++ x00 :: tail)) <=? 2)
            = false).
  { intros tail. apply Z.leb_gt. cbn [List.length].
    rewrite length_app. cbn [List.length]. lia. }
  rewrite !Hlong.
  destruct (negb (port w (sends w))); [reflexivity |].
  destruct (negb (port w (S (sends w)))); reflexivity.
Qed.

End InfoFacts.

Lemma ReadFlightInfo_stops_at_terminator_witness :
  option_map fst
    (ReadFlightInfo (T := xcsoar_target) indeterminate_flight
       (with_replies (calm [])
          [(MT_ACK,
            bytes "ab" ++ bytes "2011-08-12|12:23:48|02:03:25|"
              ++ x00 :: bytes "left in the buffer")])) =
  option_map fst
    (ReadFlightInfo (T := xcsoar_target) indeterminate_flight
       (with_replies (calm [])
          [(MT_ACK,
            bytes "ab" ++ bytes "2011-08-12|12:23:48|02:03:25|"
              ++ x00 :: [])])).
Proof.
  apply (ReadFlightInfo_stops_at_terminator (T := xcsoar_target)).
  reflexivity.
Defined.

(** * The record numbers of the catalog requests *)

Section CatalogIndices.
Context {T : Target}.

(** With the port open, a turn of the loop that finds room in the list
    sends its SELECT, whatever follows. *)
Lemma ReadFlightList_loop_selects (fuel : nat) (i : Z)
    (flight_list : RecordedFlightList) (w w' : World)
    (result : bool * RecordedFlightList) (events : list Event) :
  port_open w -> full flight_list = false ->
  ReadFlightList_loop fuel i flight_list w = Some (result, events, w') ->
  exists later, selected events = uint8_byte i :: later.
Proof.
  intros Hport Hfull. destruct fuel as [| fuel]; [discriminate |].
  rewrite ReadFlightList_loop_cases, Hfull, SelectFlight_cases. cbv zeta.
  rewrite !Hport. cbn [negb].
  destruct (MessageType_eqb (fst (next_reply w)) MT_NACK);
    [intros [= _ <- _]; exists []; reflexivity |].
  destruct (negb (MessageType_eqb (fst (next_reply w)) MT_ACK));
    [intros [= _ <- _]; exists []; reflexivity |].
  destruct (cancel (received (sent w 3)) (polls (received (sent w 3))));
    [intros [= _ <- _]; exists []; reflexivity |].
  destruct (ReadFlightInfo (set_flarm indeterminate_flight i)
              (polled (received (sent w 3))))
    as [[[[ok flight_info] info_events] w2] |]; [| discriminate].
  destruct (ReadFlightList_loop fuel (wrap 8 (i + 1))
              (if ok then flight_list ++ [flight_info] else flight_list) w2)
    as [[[result3 events3] w3] |]; [| discriminate].
  intros [= _ <- _].
  exists (selected (IsCancelledPoll false :: info_events ++ events3)).
  reflexivity.
Qed.

(** C10.  In every run of [ReadFlightList] the record numbers of the
    SELECT requests count 0, 1, 2, ... modulo 256: request k carries
    k mod 256.  And while the device acknowledges and the list has
    room the requests do go out, one for every record of the catalog
    and one more, so that past 255 the numbers start again at 0. *)
Theorem ReadFlightList_index_wraps :
  (forall (flight_list : RecordedFlightList) (w w' : World)
          (result : bool * RecordedFlightList) (events : list Event),
     ReadFlightList flight_list w = Some (result, events, w') ->
     map byte_value (selected events) =
     map (fun k => Z.of_nat k mod 256)
         (seq 0 (List.length (selected events)))) /\
  (forall (catalog : list (list byte * Reply)) (rest : list Reply)
          (flight_list : RecordedFlightList) (w : World),
     undisturbed w ->
     replies w = acknowledged catalog ++ rest ->
     well_terminated catalog = true ->
     (List.length flight_list + List.length (collected 0 catalog)
      < list_capacity)%nat ->
     exists result events w',
       ReadFlightList flight_list w = Some (result, events, w') /\
       (List.length catalog < List.length (selected events))%nat /\
       map byte_value (selected events) =
       map (fun k => Z.of_nat k mod 256)
           (seq 0 (List.length (selected events)))).
Proof.
  assert (Hnumbers :
            forall (flight_list : RecordedFlightList) (w w' : World)
                   (result : bool * RecordedFlightList)
                   (events : list Event),
              ReadFlightList flight_list w = Some (result, events, w') ->
              map byte_value (selected events) =
              map (fun k => Z.of_nat k mod 256)
                  (seq 0 (List.length (selected events)))).
  { intros flight_list w w' result events E.
    rewrite ReadFlightList_unfold in E.
    destruct (ReadFlightList_loop (S (List.length (replies w))) 0
                flight_list w)
      as [[[result0 events0] w0] |] eqn:Eloop; [| discriminate].
    injection E as <- <- <-.
    change (selected (ProgressRange 10 :: events0)) with (selected events0).
    assert (Hzero : 0 <= 0 < 256) by lia.
    exact (ReadFlightList_loop_counter _ _ _ _ _ _ _ Hzero Eloop). }
  split; [exact Hnumbers |].
  intros catalog rest flight_list w Hw Hreplies _ Hroom.
  destruct (ReadFlightList_returns flight_list w)
    as (result & events & w' & E & _).
  exists result, events, w'. split; [exact E |].
  split; [| exact (Hnumbers _ _ _ _ _ E)].
  rewrite ReadFlightList_unfold in E.
  destruct (ReadFlightList_loop (S (List.length (replies w))) 0 flight_list w)
    as [[[result0 events0] w0] |] eqn:Eloop; [| discriminate].
  injection E as <- <- <-.
  change (selected (ProgressRange 10 :: events0)) with (selected events0).
  destruct (ReadFlightList_loop_through catalog 0 flight_list w rest Hw
              Hreplies)
    as (j & passed & w1 & _ & [Hport _] & _ & Hcount & Hrun).
  { intros k Hk.
    assert (Hk' := collected_firstn_length catalog 0 k).
    eapply Nat.le_lt_trans; [| exact Hroom].
    apply Nat.add_le_mono_l. exact Hk'. }
  revert Eloop.
  replace (S (List.length (replies w)))
    with (List.length catalog
          + S (List.length catalog + List.length rest))%nat
    by (rewrite Hreplies, length_app, acknowledged_length; lia).
  rewrite Hrun.
  destruct (ReadFlightList_loop (S (List.length catalog + List.length rest))
              j (flight_list ++ collected 0 catalog) w1)
    as [[[result1 events1] w2] |] eqn:Elast; [| discriminate].
  intros [= _ <- _].
  assert (Hfull : full (flight_list ++ collected 0 catalog) = false)
    by (unfold full; apply Nat.leb_gt; rewrite length_app; exact Hroom).
  destruct (ReadFlightList_loop_selects _ _ _ _ _ _ _ Hport Hfull Elast)
    as (later & Hfirst).
  rewrite selected_app, length_app, Hcount, Hfirst. cbn [List.length]. lia.
Qed.

End CatalogIndices.

Lemma ReadFlightList_index_wraps_witness :
  exists result events w',
    @ReadFlightList xcsoar_target []
      (calm (acknowledged (repeat ([], (MT_NACK, [])) 260))) =
      Some (result, events, w') /\
    (260 < List.length (selected events))%nat /\
    map byte_value (selected events) =
    map (fun k => Z.of_nat k mod 256)
        (seq 0 (List.length (selected events))).
Proof.
  refine (proj2 (@ReadFlightList_index_wraps xcsoar_target)
            (repeat ([], (MT_NACK, [])) 260) [] []
            (calm (acknowledged (repeat ([], (MT_NACK, [])) 260))) _ _ _ _).
  - split; intros n; reflexivity.
  - vm_compute. reflexivity.
  - vm_compute. reflexivity.
  - apply Nat.ltb_lt. vm_compute. reflexivity.
Defined.

(** * Where the cancellation flag is looked at *)

(** C1 as stated fails: both replies are ACKs of more than 3 bytes and
    the second ends in 0x1A, but the user cancels while the second is
    on its way; it is taken and not written, and the download fails
    with 6 bytes in the sink where the claim counts 11. *)
Lemma DownloadFlight_cancelled_chunk_not_written :
  exists (events : list Event) (w' : World),
    DownloadFlight_path
      {| replies := [(MT_ACK, bytes "ab2hello ");
                     (MT_ACK, bytes "ab2world" ++ [x1a])];
         port := fun _ => true; sends := 0;
         cancel := fun n => Nat.eqb n 4; polls := 0;
         can_open := true; file := None |} =
      Some (false, events, w') /\
    replies w' = [] /\
    file w' = Some (bytes "hello ") /\
    Z.of_nat (List.length (concat (writes events))) = 6 /\
    fold_right Z.add 0
      (map (fun c => Z.of_nat (List.length c) - 3)
           [bytes "ab2hello "; bytes "ab2world" ++ [x1a]]) - 1 = 11.
Proof. do 2 eexists. repeat split; vm_compute; reflexivity. Qed.

Lemma uint8_byte_wrap (a b : Z) :
  uint8_byte (wrap 8 a + b) = uint8_byte (a + b).
Proof.
  unfold uint8_byte, wrap. rewrite Zplus_mod_idemp_l. reflexivity.
Qed.

Lemma requests_from_next (i : Z) (n : nat) :
  forall start : nat,
    flat_map (fun k => [select_request (wrap 8 (i + 1) + Z.of_nat k);
                        info_request]) (seq start n) =
    flat_map (fun k => [select_request (i + Z.of_nat k); info_request])
             (seq (S start) n).
Proof.
  induction n as [| n IH]; intros start; [reflexivity |].
  cbn [seq flat_map app]. rewrite IH. unfold select_request.
  rewrite uint8_byte_wrap.
  replace (i + 1 + Z.of_nat start) with (i + Z.of_nat (S start)) by lia.
  reflexivity.
Qed.

(** The polls a run has made shift the count of those to come. *)
Lemma cancelled_at_shift (w w2 : World) (m n total : nat) :
  cancel w2 = cancel w -> polls w2 = (polls w + m)%nat ->
  total = (m + n)%nat ->
  cancelled_at w total ->
  (forall k, (k < m)%nat -> cancel w (polls w + k) = false) /\
  cancelled_at w2 n.
Proof.
  intros Hcancel Hpolls -> [Hbefore Hat]. split; [| split].
  - intros k Hk. apply Hbefore. lia.
  - intros k Hk. rewrite Hcancel, Hpolls, <- Nat.add_assoc.
    apply Hbefore. lia.
  - rewrite Hcancel, Hpolls, <- Nat.add_assoc. exact Hat.
Qed.

Lemma not_cancelled_yet (w : World) (n : nat) :
  cancelled_at w (S n) -> cancel w (polls w) = false.
Proof.
  intros [Hbefore _]. rewrite <- (Nat.add_0_r (polls w)).
  apply Hbefore. lia.
Qed.

Lemma cancelled_now (w : World) :
  cancelled_at w 0 -> cancel w (polls w) = true.
Proof. intros [_ Hat]. rewrite Nat.add_0_r in Hat. exact Hat. Qed.

Section CancelledCatalog.
Context {T : Target}.

Lemma ReadFlightInfo_sent (flight : RecordedFlightInfo) (w : World) :
  port w (sends w) = true -> port w (S (sends w)) = true ->
  exists ok flight_info,
    ReadFlightInfo flight w =
    Some ((ok, flight_info),
          [StartByte; Header info_request 1000; Wait 1000],
          received (sent w 2)).
Proof.
  intros P0 P1. rewrite ReadFlightInfo_cases. cbv zeta. rewrite P0, P1.
  cbn [negb].
  destruct (negb (MessageType_eqb (fst (next_reply w)) MT_ACK)
            || (Z.of_nat (List.length (snd (next_reply w))) <=? 2));
    [exists false, flight; reflexivity |].
  destruct (ParseRecordInfo (c_str (skipn 2 (snd (next_reply w)))) flight)
    as [ok flight_info].
  exists ok, flight_info. reflexivity.
Qed.

(** The user cancels while the SELECT behind the records of [catalog]
    is under way: every record before it is selected and asked for,
    that SELECT goes out and is acknowledged, and there the loop
    ends. *)
Lemma ReadFlightList_loop_cancelled (catalog : list (list byte * Reply)) :
  forall (fuel : nat) (i : Z) (flight_list : RecordedFlightList) (w : World)
         (payload : list byte) (rest : list Reply),
    port_open w ->
    replies w = acknowledged catalog ++ (MT_ACK, payload) :: rest ->
    (List.length flight_list + List.length catalog < list_capacity)%nat ->
    (List.length catalog < fuel)%nat ->
    cancelled_at w (List.length catalog) ->
    exists added events w',
      ReadFlightList_loop fuel i flight_list w =
        Some ((false, flight_list ++ added), events, w') /\
      (List.length added <= List.length catalog)%nat /\
      answers events = repeat false (List.length catalog) ++ [true] /\
      requests events =
        flat_map (fun k => [select_request (i + Z.of_nat k); info_request])
                 (seq 0 (List.length catalog))
        ++ [select_request (i + Z.of_nat (List.length catalog))] /\
      replies w' = rest /\
      exists before, events = before ++ [IsCancelledPoll true].
Proof.
  induction catalog as [| [select_payload reply] catalog IH];
    intros fuel i flight_list w payload rest Hport Hreplies Hroom Hfuel
           Hcancel;
    (destruct fuel as [| fuel]; [cbn in Hfuel; lia |]);
    rewrite ReadFlightList_loop_cases;
    (assert (Hfull : full flight_list = false)
       by (unfold full; apply Nat.leb_gt; lia));
    rewrite Hfull, SelectFlight_cases; cbv zeta; rewrite !Hport;
    cbn [negb]; unfold next_reply; rewrite Hreplies;
    cbn [acknowledged flat_map app hd fst snd MessageType_eqb negb];
    cbn [cancel polls received sent with_replies with_sends].
  - rewrite (cancelled_now w Hcancel).
    exists []. do 2 eexists. rewrite app_nil_r.
    split; [reflexivity |]. split; [apply Nat.le_refl |].
    split; [reflexivity |].
    split; [cbn; rewrite Z.add_0_r; reflexivity |].
    split; [cbn; rewrite Hreplies; reflexivity |].
    exists [ProgressPosition (i mod 10); StartByte;
            Header (select_request i) 1000; Escaped [uint8_byte i] 1000;
            Wait 1000].
    reflexivity.
  - rewrite (not_cancelled_yet w _ Hcancel).
    destruct (ReadFlightInfo_sent (set_flarm indeterminate_flight i)
                (polled (received (sent w 3))))
      as (ok & flight_info & Einfo); [apply Hport | apply Hport |].
    rewrite Einfo.
    destruct (IH fuel (wrap 8 (i + 1))
                 (if ok then flight_list ++ [flight_info] else flight_list)
                 (received (sent (polled (received (sent w 3))) 2))
                 payload rest)
      as (added & events3 & w3 & E3 & Hadded & Hanswers & Hrequests & Hrest
          & before & Hlast).
    + exact Hport.
    + cbn. rewrite Hreplies. reflexivity.
    + cbn [List.length] in Hroom.
      destruct ok; [rewrite length_app; cbn [List.length] |]; lia.
    + cbn [List.length] in Hfuel. lia.
    + apply (cancelled_at_shift w _ 1 _ (S (List.length catalog)));
        [reflexivity | cbn; lia | reflexivity | exact Hcancel].
    + rewrite E3.
      exists (if ok then flight_info :: added else added). do 2 eexists.
      split; [destruct ok; [rewrite <- app_assoc |]; reflexivity |].
      split; [destruct ok; cbn [List.length]; lia |].
      split.
      { cbn [answers flat_map app]. fold (answers events3).
        rewrite Hanswers. reflexivity. }
      split.
      { cbn [requests flat_map app]. fold (requests events3).
        rewrite Hrequests, requests_from_next.
        cbn [List.length seq flat_map app]. rewrite Z.add_0_r.
        unfold select_request at 2. rewrite uint8_byte_wrap.
        replace (i + 1 + Z.of_nat (List.length catalog))
          with (i + Z.of_nat (S (List.length catalog))) by lia.
        reflexivity. }
      split; [exact Hrest |].
      rewrite Hlast.
      exists (ProgressPosition (i mod 10)
                :: [StartByte; Header (select_request i) 1000;
                    Escaped [uint8_byte i] 1000; Wait 1000]
                ++ IsCancelledPoll false
                :: [StartByte; Header info_request 1000; Wait 1000]
                ++ before).
      cbn [app]. reflexivity.
Qed.

End CancelledCatalog.

(** The user cancels during the download: after the chunks written so
    far the next request goes out; the flag is found set either right
    behind that request ([late = false]), and the reply is not waited
    for, or behind its reply ([late = true]), and the chunk that came
    is not written. *)
Lemma DownloadFlight_loop_cancelled (chunks : list (list byte)) :
  forall (fuel : nat) (w : World) (late : bool) (pending : list byte)
         (rest : list Reply),
    port_open w ->
    replies w =
      map (pair MT_ACK) chunks
      ++ (if late then (MT_ACK, pending) :: rest else rest) ->
    Forall inner_chunk chunks ->
    (late = true -> (3 < List.length pending)%nat) ->
    (List.length chunks < fuel)%nat ->
    cancelled_at w (2 * List.length chunks + (if late then 1 else 0)) ->
    exists events w',
      DownloadFlight_loop fuel w = Some (false, events, w') /\
      answers events =
        repeat false (2 * List.length chunks + (if late then 1 else 0))
        ++ [true] /\
      requests events = repeat data_request (S (List.length chunks)) /\
      replies w' = rest /\
      writes events = map (skipn 3) chunks /\
      file w' =
        option_map (fun old => old ++ concat (map (skipn 3) chunks))
                   (file w) /\
      exists before, events = before ++ [IsCancelledPoll true].
Proof.
  induction chunks as [| chunk chunks IH];
    intros fuel w late pending rest Hport Hreplies Hchunks Hpending Hfuel
           Hcancel;
    (destruct fuel as [| fuel]; [cbn in Hfuel; lia |]);
    rewrite DownloadFlight_loop_cases; cbv zeta; rewrite !Hport;
    cbn [negb]; unfold next_reply; rewrite Hreplies;
    cbn [map app hd fst snd].
  - destruct late; cbn [List.length Nat.mul Nat.add] in Hcancel |- *.
    + rewrite (not_cancelled_yet w _ Hcancel).
      cbn [hd fst snd MessageType_eqb negb orb].
      specialize (Hpending eq_refl).
      destruct (Z.leb_spec (Z.of_nat (List.length pending)) 3) as [Hle | _];
        [lia |].
      assert (Hnext : cancel w (S (polls w)) = true)
        by (destruct Hcancel as [_ Hat]; rewrite Nat.add_1_r in Hat;
            exact Hat).
      rewrite Hnext. do 2 eexists. split; [reflexivity |].
      split; [reflexivity |]. split; [reflexivity |].
      split; [cbn; rewrite Hreplies; reflexivity |].
      split; [reflexivity |]. split; [apply file_unchanged |].
      exists [StartByte; Header data_request 1000; IsCancelledPoll false;
              Wait 3000].
      reflexivity.
    + rewrite (cancelled_now w Hcancel).
      do 2 eexists. split; [reflexivity |].
      split; [reflexivity |]. split; [reflexivity |].
      split; [cbn; rewrite Hreplies; reflexivity |].
      split; [reflexivity |]. split; [apply file_unchanged |].
      exists [StartByte; Header data_request 1000]. reflexivity.
  - inversion Hchunks as [| c cs [Hlen Hlast] Hothers]; subst c cs.
    destruct (cancelled_at_shift w
                (with_file (polled (received (polled (sent w 2))))
                   (option_map (fun old => old ++ skipn 3 chunk) (file w)))
                2 (2 * List.length chunks + (if late then 1 else 0))
                (2 * List.length (chunk :: chunks)
                 + (if late then 1 else 0)))
      as [Hbefore Hlater];
      [reflexivity | cbn; lia | cbn [List.length]; lia | exact Hcancel |].
    assert (H0 : cancel w (polls w) = false)
      by (rewrite <- (Nat.add_0_r (polls w)); apply Hbefore; lia).
    assert (H1 : cancel w (S (polls w)) = false)
      by (rewrite <- (Nat.add_1_r (polls w)); apply Hbefore; lia).
    rewrite H0, H1. cbn [MessageType_eqb negb orb].
    destruct (Z.leb_spec (Z.of_nat (List.length chunk)) 3) as [Hle | _];
      [lia |].
    destruct (Byte.eqb (last chunk x00) x1a) eqn:Esentinel;
      [apply Byte.byte_dec_bl in Esentinel; contradiction |].
    rewrite firstn_whole.
    destruct (IH fuel
                (with_file (polled (received (polled (sent w 2))))
                   (option_map (fun old => old ++ skipn 3 chunk) (file w)))
                late pending rest)
      as (events & w' & E & Hanswers & Hrequests & Hrest & Hwrites & Hfile
          & before & Hend); try assumption.
    + cbn. rewrite Hreplies. reflexivity.
    + cbn [List.length] in Hfuel. lia.
    + rewrite E. do 2 eexists. split; [reflexivity |].
      split.
      { cbn [answers flat_map app]. fold (answers events).
        rewrite Hanswers.
        replace (2 * List.length (chunk :: chunks)
                 + (if late then 1 else 0))%nat
          with (S (S (2 * List.length chunks + (if late then 1 else 0))))
          by (cbn [List.length]; lia).
        reflexivity. }
      split.
      { cbn [requests flat_map app]. fold (requests events).
        rewrite Hrequests. reflexivity. }
      split; [exact Hrest |].
      split.
      { cbn [writes flat_map app]. fold (writes events).
        rewrite Hwrites. reflexivity. }
      split.
      { rewrite Hfile. cbn [file with_file map concat].
        destruct (file w); cbn [option_map];
          [rewrite <- app_assoc |]; reflexivity. }
      rewrite Hend.
      exists ([StartByte; Header data_request 1000; IsCancelledPoll false;
               Wait 3000; IsCancelledPoll false;
               ProgressPosition (Z.min (byte_value (nth 2 chunk x00)) 100);
               WriteData (skipn 3 chunk)] ++ before).
      rewrite <- app_assoc. reflexivity.
Qed.

Lemma DownloadFlight_path_cancelled (chunks : list (list byte)) (w : World)
    (late : bool) (pending : list byte) (rest : list Reply) :
  port_open w -> can_open w = true ->
  replies w =
    map (pair MT_ACK) chunks
    ++ (if late then (MT_ACK, pending) :: rest else rest) ->
  Forall inner_chunk chunks ->
  (late = true -> (3 < List.length pending)%nat) ->
  cancelled_at w (1 + 2 * List.length chunks + (if late then 1 else 0)) ->
  exists events w',
    DownloadFlight_path w = Some (false, events, w') /\
    answers events =
      repeat false (1 + 2 * List.length chunks + (if late then 1 else 0))
      ++ [true] /\
    requests events = repeat data_request (S (List.length chunks)) /\
    replies w' = rest /\
    writes events = map (skipn 3) chunks /\
    file w' = Some (concat (map (skipn 3) chunks)) /\
    exists before, events = before ++ [IsCancelledPoll true].
Proof.
  intros Hport Hopen Hreplies Hchunks Hpending Hcancel.
  rewrite DownloadFlight_path_cases, Hopen. cbv zeta.
  rewrite (not_cancelled_yet w _ Hcancel).
  destruct (DownloadFlight_loop_cancelled chunks (S (List.length (replies w)))
              (polled (with_file w (Some []))) late pending rest)
    as (events & w' & E & Hanswers & Hrequests & Hrest & Hwrites & Hfile
        & before & Hend); try assumption.
  - rewrite Hreplies, length_app, length_map. lia.
  - apply (cancelled_at_shift w (polled (with_file w (Some []))) 1 _
             (1 + 2 * List.length chunks + (if late then 1 else 0)));
      [reflexivity | cbn; lia | lia | exact Hcancel].
  - rewrite E. do 2 eexists. split; [reflexivity |].
    split.
    { cbn [answers flat_map app]. fold (answers events).
      rewrite Hanswers. reflexivity. }
    split; [exact Hrequests |]. split; [exact Hrest |].
    split; [exact Hwrites |]. split; [exact Hfile |].
    rewrite Hend.
    exists (Open true :: IsCancelledPoll false :: ProgressRange 100 :: before).
    reflexivity.
Qed.

Lemma DownloadFlight_path_cancelled_first (w : World) :
  can_open w = true -> cancelled_at w 0 ->
  DownloadFlight_path w =
  Some (false, [Open true; IsCancelledPoll true],
        polled (with_file w (Some []))).
Proof.
  intros Hopen Hcancel. rewrite DownloadFlight_path_cases, Hopen. cbv zeta.
  rewrite (cancelled_now w Hcancel). reflexivity.
Qed.

Lemma DownloadFlight_cancelled_after_select (flight : RecordedFlightInfo)
    (w : World) :
  port_open w -> fst (next_reply w) = MT_ACK -> cancelled_at w 0 ->
  exists w',
    DownloadFlight flight w =
    Some (false,
          [StartByte; Header (select_request (flarm flight)) 1000;
           Escaped [uint8_byte (flarm flight)] 1000; Wait 1000;
           IsCancelledPoll true], w') /\
    replies w' = tl (replies w) /\ file w' = file w.
Proof.
  intros Hport Hack Hcancel.
  rewrite DownloadFlight_cases, SelectFlight_cases. cbv zeta.
  rewrite !Hport. cbn [negb]. rewrite Hack. cbn [MessageType_eqb negb].
  cbn [cancel polls received sent with_replies with_sends].
  rewrite (cancelled_now w Hcancel).
  eexists. split; [reflexivity |]. split; reflexivity.
Qed.

Lemma DownloadFlight_cancelled_before (flight : RecordedFlightInfo)
    (w : World) :
  port_open w -> (forall n, cancel w n = true) ->
  exists events w',
    DownloadFlight flight w = Some (false, events, w') /\
    requests events = [select_request (flarm flight)] /\
    existsb opens events = false /\ file w' = file w.
Proof.
  intros Hport Hcancel.
  rewrite DownloadFlight_cases, SelectFlight_cases. cbv zeta.
  rewrite !Hport. cbn [negb].
  destruct (negb (MessageType_eqb (fst (next_reply w)) MT_ACK));
    [do 2 eexists; repeat split; reflexivity |].
  cbn [cancel polls received sent with_replies with_sends].
  rewrite Hcancel. do 2 eexists; repeat split; reflexivity.
Qed.

Lemma ReadFlightList_cancelled_before {T : Target}
    (flight_list : RecordedFlightList) (w : World) :
  port_open w -> full flight_list = false -> (forall n, cancel w n = true) ->
  exists ok events w',
    ReadFlightList flight_list w = Some ((ok, flight_list), events, w') /\
    requests events = [select_request 0].
Proof.
  intros Hport Hfull Hcancel.
  rewrite ReadFlightList_unfold, ReadFlightList_loop_cases, Hfull,
    SelectFlight_cases.
  cbv zeta. rewrite !Hport. cbn [negb].
  destruct (MessageType_eqb (fst (next_reply w)) MT_NACK);
    [do 3 eexists; split; reflexivity |].
  destruct (negb (MessageType_eqb (fst (next_reply w)) MT_ACK));
    [do 3 eexists; split; reflexivity |].
  cbn [cancel polls received sent with_replies with_sends].
  rewrite Hcancel. do 3 eexists; split; reflexivity.
Qed.

(** C4, amended.  No run sends anything after a poll that found the
    flag set.  The flag is looked at after each acknowledged SELECT, in
    the catalog and in the download of a flight, and in the download
    loop before the first GETIGCDATA request, after each request has
    gone out and after each chunk has come in: a user who cancels just
    before one of these looks stops the operation exactly there, with
    failure.  Cancelled before the call, [ReadFlightList] leaves the
    list as it was and still sends the SELECT for record 0, and nothing
    else; [DownloadFlight] on a path sends nothing, on a flight only
    its SELECT. *)
Theorem cancellation_checked_after_select :
  (forall (T : Target) (flight_list : RecordedFlightList) (w : World),
     exists result events w',
       ReadFlightList flight_list w = Some (result, events, w') /\
       quiet_after_cancel events = true) /\
  (forall w : World,
     exists result events w',
       DownloadFlight_path w = Some (result, events, w') /\
       quiet_after_cancel events = true) /\
  (forall (flight : RecordedFlightInfo) (w : World),
     exists result events w',
       DownloadFlight flight w = Some (result, events, w') /\
       quiet_after_cancel events = true) /\
  (forall (T : Target) (catalog : list (list byte * Reply))
          (payload : list byte) (rest : list Reply)
          (flight_list : RecordedFlightList) (w : World),
     port_open w ->
     replies w = acknowledged catalog ++ (MT_ACK, payload) :: rest ->
     (List.length flight_list + List.length catalog < list_capacity)%nat ->
     cancelled_at w (List.length catalog) ->
     exists added events w',
       ReadFlightList flight_list w =
         Some ((false, flight_list ++ added), events, w') /\
       (List.length added <= List.length catalog)%nat /\
       answers events = repeat false (List.length catalog) ++ [true] /\
       requests events =
         flat_map (fun k => [select_request (Z.of_nat k); info_request])
                  (seq 0 (List.length catalog))
         ++ [select_request (Z.of_nat (List.length catalog))] /\
       replies w' = rest /\
       exists before, events = before ++ [IsCancelledPoll true]) /\
  (forall (flight : RecordedFlightInfo) (w : World),
     port_open w -> fst (next_reply w) = MT_ACK -> cancelled_at w 0 ->
     exists w',
       DownloadFlight flight w =
       Some (false,
             [StartByte; Header (select_request (flarm flight)) 1000;
              Escaped [uint8_byte (flarm flight)] 1000; Wait 1000;
              IsCancelledPoll true], w') /\
       replies w' = tl (replies w) /\ file w' = file w) /\
  (forall w : World,
     can_open w = true -> cancelled_at w 0 ->
     DownloadFlight_path w =
     Some (false, [Open true; IsCancelledPoll true],
           polled (with_file w (Some [])))) /\
  (forall (w : World) (chunks : list (list byte)) (rest : list Reply),
     port_open w -> can_open w = true ->
     replies w = map (pair MT_ACK) chunks ++ rest ->
     Forall inner_chunk chunks ->
     cancelled_at w (1 + 2 * List.length chunks) ->
     exists events w',
       DownloadFlight_path w = Some (false, events, w') /\
       answers events = repeat false (1 + 2 * List.length chunks) ++ [true] /\
       requests events = repeat data_request (S (List.length chunks)) /\
       replies w' = rest /\
       writes events = map (skipn 3) chunks /\
       file w' = Some (concat (map (skipn 3) chunks)) /\
       exists before, events = before ++ [IsCancelledPoll true]) /\
  (forall (w : World) (chunks : list (list byte)) (pending : list byte)
          (rest : list Reply),
     port_open w -> can_open w = true ->
     replies w = map (pair MT_ACK) chunks ++ (MT_ACK, pending) :: rest ->
     Forall inner_chunk chunks ->
     (3 < List.length pending)%nat ->
     cancelled_at w (2 + 2 * List.length chunks) ->
     exists events w',
       DownloadFlight_path w = Some (false, events, w') /\
       answers events = repeat false (2 + 2 * List.length chunks) ++ [true] /\
       requests events = repeat data_request (S (List.length chunks)) /\
       replies w' = rest /\
       writes events = map (skipn 3) chunks /\
       file w' = Some (concat (map (skipn 3) chunks)) /\
       exists before, events = before ++ [IsCancelledPoll true]) /\
  (forall (T : Target) (flight_list : RecordedFlightList) (w : World),
     port_open w -> full flight_list = false ->
     (forall n, cancel w n = true) ->
     exists ok events w',
       ReadFlightList flight_list w = Some ((ok, flight_list), events, w') /\
       requests events = [select_request 0]) /\
  (forall w : World,
     (forall n, cancel w n = true) ->
     exists events w',
       DownloadFlight_path w = Some (false, events, w') /\
       requests events = []) /\
  (forall (flight : RecordedFlightInfo) (w : World),
     port_open w -> (forall n, cancel w n = true) ->
     exists events w',
       DownloadFlight flight w = Some (false, events, w') /\
       requests events = [select_request (flarm flight)] /\
       existsb opens events = false /\ file w' = file w).
Proof.
  split; [intros T flight_list w; apply ReadFlightList_returns |].
  split; [intros w; apply DownloadFlight_path_returns |].
  split; [intros flight w; apply DownloadFlight_returns |].
  split.
  { intros T catalog payload rest flight_list w Hport Hreplies Hroom Hcancel.
    rewrite ReadFlightList_unfold.
    destruct (ReadFlightList_loop_cancelled catalog
                (S (List.length (replies w))) 0 flight_list w payload rest)
      as (added & events & w' & E & Hadded & Hanswers & Hrequests & Hrest
          & before & Hend); try assumption.
    { rewrite Hreplies, length_app, acknowledged_length. lia. }
    rewrite E. exists added. do 2 eexists. split; [reflexivity |].
    split; [exact Hadded |]. split; [exact Hanswers |].
    split; [exact Hrequests |]. split; [exact Hrest |].
    exists (ProgressRange 10 :: before). rewrite Hend. reflexivity. }
  split; [exact DownloadFlight_cancelled_after_select |].
  split; [exact DownloadFlight_path_cancelled_first |].
  split.
  { intros w chunks rest Hport Hopen Hreplies Hchunks Hcancel.
    destruct (DownloadFlight_path_cancelled chunks w false [] rest)
      as (events & w' & E & Hanswers & Hrest); try assumption.
    - discriminate.
    - rewrite Nat.add_0_r. exact Hcancel.
    - rewrite Nat.add_0_r in Hanswers.
      exists events, w'. split; [exact E |]. split; [exact Hanswers |].
      exact Hrest. }
  split.
  { intros w chunks pending rest Hport Hopen Hreplies Hchunks Hpending
           Hcancel.
    assert (Hcount : (1 + 2 * List.length chunks + 1
                      = 2 + 2 * List.length chunks)%nat) by lia.
    destruct (DownloadFlight_path_cancelled chunks w true pending rest)
      as (events & w' & E & Hanswers & Hrest); try assumption.
    - intros _. exact Hpending.
    - rewrite Hcount. exact Hcancel.
    - rewrite Hcount in Hanswers.
      exists events, w'. split; [exact E |]. split; [exact Hanswers |].
      exact Hrest. }
  split; [intros T; exact ReadFlightList_cancelled_before |].
  split; [exact DownloadFlight_path_cancelled_on_entry |].
  exact DownloadFlight_cancelled_before.
Qed.

Lemma cancellation_checked_after_select_witness :
  exists (events : list Event) (w' : World),
    DownloadFlight_path
      {| replies := [(MT_ACK, bytes "ab2hello ");
                     (MT_ACK, bytes "ab2world" ++ [x1a])];
         port := fun _ => true; sends := 0;
         cancel := fun n => Nat.eqb n 4; polls := 0;
         can_open := true; file := None |} =
      Some (false, events, w') /\
    answers events = [false; false; false; false; true] /\
    requests events = [data_request; data_request] /\
    replies w' = [] /\
    writes events = [bytes "hello "] /\
    file w' = Some (bytes "hello ") /\
    exists before, events = before ++ [IsCancelledPoll true].
Proof.
  destruct cancellation_checked_after_select
    as (_ & _ & _ & _ & _ & _ & _ & Hreply & _).
  refine (Hreply
            {| replies := [(MT_ACK, bytes "ab2hello ");
                           (MT_ACK, bytes "ab2world" ++ [x1a])];
               port := fun _ => true; sends := 0;
               cancel := fun n => Nat.eqb n 4; polls := 0;
               can_open := true; file := None |}
            [bytes "ab2hello "] (bytes "ab2world" ++ [x1a]) [] _ _ _ _ _ _).
  - intros n. reflexivity.
  - reflexivity.
  - reflexivity.
  - constructor; [split; [cbn; lia | discriminate] | constructor].
  - cbn. lia.
  - split; [| reflexivity].
    intros k Hk. cbn [List.length Nat.mul Nat.add] in Hk.
    apply Nat.eqb_neq. cbn. lia.
Defined.
